(** * trivy-glass: the report-aggregation and caching core

    A shallow embedding of the two cache-backed report-loading modules
    (the Redis-backed one, and the simplified in-process variant) and of
    the report table of the user interface, with the properties their
    specification states about them and further properties of the code.

    Layout: JavaScript values and the fragment of their semantics the code
    relies on; the engine interface (what the runtime leaves
    implementation-defined); the JSON-path extractor; the world the
    asynchronous functions run in (Redis keyspace, clock, cluster API,
    console); the exported functions; then the theorems. *)

From stdpp Require Import gmap strings list fin_maps pretty.
From Stdlib Require Import ZArith Ascii String Lia.

Local Open Scope string_scope.
Local Open Scope Z_scope.

(** ** Completions: a call either returns or throws *)

(** What a [catch] clause can observe of the thrown value: whether it is an
    [Error] instance (then its [message]) or some other value. *)
Inductive Exn : Type :=
| JSError (name : string) (message : string)
| ThrownValue.

Inductive Completion (A : Type) : Type :=
| Normal (a : A)
| Throw (e : Exn).
Arguments Normal {A} a.
Arguments Throw {A} e.

Definition cbind {A B} (c : Completion A) (k : A -> Completion B) : Completion B :=
  match c with
  | Normal a => k a
  | Throw e => Throw e
  end.

Declare Scope completion_scope.
Delimit Scope completion_scope with compl.
Notation "'let!' x ':=' c 'in' k" := (cbind c (fun x => k))
  (at level 10, x name, c at level 100, k at level 200) : completion_scope.

Definition TypeError (message : string) : Exn := JSError "TypeError" message.
Definition SyntaxError (message : string) : Exn := JSError "SyntaxError" message.

(** ** JavaScript values *)

(** The built-in objects a property walk over parsed JSON can reach:
    [Object.prototype], [Array.prototype] and the native functions that
    are their properties (named by their path, e.g.
    ["Object.prototype.toString"]). *)
Inductive Builtin : Type :=
| ObjectPrototype
| ArrayPrototype
| NativeFunction (name : string).

#[local] Set Warnings "-register-all".

(** Numbers are carried around and tested for truthiness, never computed
    with; integers stand for them.  An ordinary object is its prototype
    slot and its own properties in insertion order, read by the first
    binding of a key. *)
Inductive JSValue : Type :=
| VUndefined
| VNull
| VBool (b : bool)
| VNum (n : Z)
| VStr (s : string)
| VArr (elems : list JSValue)
| VObj (proto : JSValue) (props : list (string * JSValue))
| VBuiltin (b : Builtin).

(** [Record<string, unknown>]: the own properties of a plain object. *)
Definition JSObject : Type := list (string * JSValue).

(** An object literal, or an object made by [JSON.parse]: its prototype is
    [Object.prototype]. *)
Definition obj (props : JSObject) : JSValue := VObj (VBuiltin ObjectPrototype) props.

Definition typeof (v : JSValue) : string :=
  match v with
  | VUndefined => "undefined"
  | VNull => "object"
  | VBool _ => "boolean"
  | VNum _ => "number"
  | VStr _ => "string"
  | VArr _ | VObj _ _ => "object"
  | VBuiltin (NativeFunction _) => "function"
  | VBuiltin _ => "object"
  end.

(** ToBoolean. *)
Definition truthy (v : JSValue) : bool :=
  match v with
  | VUndefined | VNull => false
  | VBool b => b
  | VNum n => negb (n =? 0)
  | VStr s => negb (String.eqb s "")
  | VArr _ | VObj _ _ | VBuiltin _ => true
  end.

(** ** Strings *)

(** [s.split(sep)] for a one-character separator. *)
Fixpoint split (sep : ascii) (s : string) : list string :=
  match s with
  | EmptyString => [EmptyString]
  | String c rest =>
      if Ascii.eqb c sep then EmptyString :: split sep rest
      else match split sep rest with
           | [] => [String c EmptyString]
           | h :: t => String c h :: t
           end
  end.

(** [s.endsWith(suffix)]. *)
Definition endsWith (s suffix : string) : bool :=
  let n := String.length s in
  let m := String.length suffix in
  (m <=? n)%nat && String.eqb (substring (n - m) m s) suffix.

(** [s.includes(pat)]. *)
Fixpoint includes (s pat : string) : bool :=
  String.prefix pat s ||
  match s with
  | EmptyString => false
  | String _ rest => includes rest pat
  end.

Definition is_digit (c : ascii) : bool :=
  let n := nat_of_ascii c in ((48 <=? n) && (n <=? 57))%nat.

Fixpoint digits_value (acc : Z) (s : string) : option Z :=
  match s with
  | EmptyString => Some acc
  | String c rest =>
      if is_digit c
      then digits_value (10 * acc + Z.of_nat (nat_of_ascii c - 48)) rest
      else None
  end.

(** An array index: the canonical decimal spelling of a natural number
    (["0"], or digits that do not start with a zero). *)
Definition array_index (k : string) : option nat :=
  match k with
  | EmptyString => None
  | String "0" EmptyString => Some 0%nat
  | String "0" _ => None
  | _ => option_map Z.to_nat (digits_value 0 k)
  end.

(** ** Own properties *)

Fixpoint own_get (k : string) (props : JSObject) : option JSValue :=
  match props with
  | [] => None
  | (k', v) :: rest => if String.eqb k' k then Some v else own_get k rest
  end.

Definition has_own (k : string) (props : JSObject) : bool :=
  match own_get k props with Some _ => true | None => false end.

(** Overwrite the first binding of [k] in place. *)
Fixpoint own_update (k : string) (v : JSValue) (props : JSObject) : JSObject :=
  match props with
  | [] => []
  | (k', v') :: rest =>
      if String.eqb k' k then (k', v) :: rest else (k', v') :: own_update k v rest
  end.

(** ** The engine *)

Definition in_names (k : string) (names : list string) : bool :=
  existsb (String.eqb k) names.
Arguments in_names : simpl never.

(** The string-keyed properties of [Object.prototype] (ECMAScript with its
    Annex B, as every Node.js has them).  [__proto__] is the one accessor;
    [constructor] is [Object]; the others are methods. *)
Definition Object_prototype_names : list string :=
  [ "constructor"; "__defineGetter__"; "__defineSetter__"; "hasOwnProperty";
    "__lookupGetter__"; "__lookupSetter__"; "isPrototypeOf";
    "propertyIsEnumerable"; "toString"; "valueOf"; "__proto__";
    "toLocaleString" ].

(** What the language leaves to the implementation, or what lies outside
    the fragment modelled here:
    - [Array_prototype_names]: the method names of [Array.prototype]
      (they grow with the language edition);
    - [fn_in], [fn_get]: the [in] operator and property read on a native
      function object;
    - [Date_new]: the time value of [new Date(v)], in milliseconds since the
      epoch, [None] for an invalid date (NaN); converting an object to a
      primitive can throw;
    - [toLocale]: [toLocaleString()] of a valid date in the process's
      locale and time zone;
    - [toJSON_image]: what [JSON.stringify] makes of an object whose
      [toJSON] is a native function: [toJSON_image f v key] is the JSON
      image of what [f] returns when it is called on the object [v], held
      under [key] ([None] when that serialises to [undefined]); the call
      can throw. *)
Class Engine : Type := {
  Array_prototype_names : list string;
  fn_in : string -> string -> bool;
  fn_get : string -> string -> Completion JSValue;
  Date_new : JSValue -> Completion (option Z);
  toLocale : Z -> string;
  toJSON_image : string -> JSValue -> string -> Completion (option JSValue)
}.

(** [Date.prototype.toLocaleString]: an invalid date renders as the fixed
    string ["Invalid Date"]. *)
Definition Date_toLocaleString `{Engine} (tv : option Z) : string :=
  match tv with
  | None => "Invalid Date"
  | Some t => toLocale t
  end.

Section ObjectModel.
Context `{Engine}.

(** [Object.prototype] as the holder of a property. *)
Definition Object_prototype_get (k : string) (receiver_proto : JSValue) : JSValue :=
  if String.eqb k "__proto__" then receiver_proto
  else if String.eqb k "constructor" then VBuiltin (NativeFunction "Object")
  else VBuiltin (NativeFunction ("Object.prototype." ++ k)).

Definition Array_prototype_has (k : string) : bool :=
  String.eqb k "constructor" || in_names k Array_prototype_names.

Definition Array_prototype_get (k : string) : JSValue :=
  if String.eqb k "constructor" then VBuiltin (NativeFunction "Array")
  else VBuiltin (NativeFunction ("Array.prototype." ++ k)).

Definition array_own_get (elems : list JSValue) (k : string) : option JSValue :=
  if String.eqb k "length" then Some (VNum (Z.of_nat (List.length elems)))
  else match array_index k with
       | Some i => elems !! i
       | None => None
       end.

Arguments Object_prototype_get : simpl never.
Arguments Array_prototype_has : simpl never.
Arguments Array_prototype_get : simpl never.
Arguments array_own_get : simpl never.

(** [[GetPrototypeOf]] of the receivers of a property read in this model:
    ordinary objects, arrays and the two prototype objects. *)
Definition prototype_of (v : JSValue) : JSValue :=
  match v with
  | VObj proto _ => proto
  | VArr _ => VBuiltin ArrayPrototype
  | VBuiltin ArrayPrototype => VBuiltin ObjectPrototype
  | _ => VNull
  end.

(** [[HasProperty]]: own, then along the prototype chain. *)
Fixpoint HasProperty (v : JSValue) (k : string) : bool :=
  match v with
  | VObj proto props => has_own k props || HasProperty proto k
  | VArr elems =>
      match array_own_get elems k with
      | Some _ => true
      | None => Array_prototype_has k || in_names k Object_prototype_names
      end
  | VBuiltin ObjectPrototype => in_names k Object_prototype_names
  | VBuiltin ArrayPrototype =>
      String.eqb k "length" || Array_prototype_has k || in_names k Object_prototype_names
  | VBuiltin (NativeFunction f) => fn_in f k
  | _ => false
  end.

(** [[Get]] with its receiver: the [__proto__] getter answers with the
    prototype of the receiver, not of the holder. *)
Fixpoint Get_from (holder : JSValue) (k : string) (receiver : JSValue) : Completion JSValue :=
  match holder with
  | VObj proto props =>
      match own_get k props with
      | Some v => Normal v
      | None => Get_from proto k receiver
      end
  | VArr elems =>
      match array_own_get elems k with
      | Some v => Normal v
      | None =>
          if Array_prototype_has k then Normal (Array_prototype_get k)
          else if in_names k Object_prototype_names
               then Normal (Object_prototype_get k (prototype_of receiver))
               else Normal VUndefined
      end
  | VBuiltin ObjectPrototype =>
      if in_names k Object_prototype_names
      then Normal (Object_prototype_get k (prototype_of receiver))
      else Normal VUndefined
  | VBuiltin ArrayPrototype =>
      if String.eqb k "length" then Normal (VNum 0)
      else if Array_prototype_has k then Normal (Array_prototype_get k)
      else if in_names k Object_prototype_names
           then Normal (Object_prototype_get k (prototype_of receiver))
           else Normal VUndefined
  | VBuiltin (NativeFunction f) => fn_get f k
  | _ => Normal VUndefined
  end.

Definition is_Object (v : JSValue) : bool :=
  match v with
  | VArr _ | VObj _ _ | VBuiltin _ => true
  | _ => false
  end.

(** [k in v]: a TypeError when the right operand is not an object. *)
Definition js_in (k : string) (v : JSValue) : Completion bool :=
  if is_Object v then Normal (HasProperty v k)
  else Throw (TypeError "Cannot use 'in' operator to search for a key in a non-object").

(** [v[k]]: a TypeError on [undefined] and [null].  Reading a property of a
    boolean, number or string goes to its wrapper prototype, which is not
    modelled; the code never does it. *)
Definition js_get (v : JSValue) (k : string) : Completion JSValue :=
  match v with
  | VUndefined | VNull => Throw (TypeError "Cannot read properties of undefined or null")
  | _ => Get_from v k v
  end.

End ObjectModel.

(** ** The JSON-path extractor *)

Section Extractor.
Context `{Engine}.
Local Open Scope completion_scope.

(** The loop of [extractValue]: [Some v] when every part was found, [None]
    when the loop left the function with [return undefined]. *)
Fixpoint walk (parts : list string) (value : JSValue) : Completion (option JSValue) :=
  match parts with
  | [] => Normal (Some value)
  | part :: rest =>
      if truthy value && String.eqb (typeof value) "object" then
        let! found := js_in part value in
        if (found : bool) then
          let! next := js_get value part in
          walk rest next
        else Normal None
      else Normal None
  end.

(** Does the timestamp rule apply to this path? *)
Definition timestamp_path (jsonPath : string) : bool :=
  endsWith jsonPath "Timestamp" || includes jsonPath "creation".

(** [new Date(value).toLocaleString() || value]. *)
Definition render_date (value : JSValue) : Completion JSValue :=
  let! tv := Date_new value in
  let s := Date_toLocaleString tv in
  Normal (if negb (String.eqb s "") then VStr s else value).

Definition extractValue (o : JSValue) (jsonPath : string) : Completion JSValue :=
  if negb (truthy o) || String.eqb jsonPath "" then Normal VUndefined
  else
    let parts := tail (split "." jsonPath) in
    let! r := walk parts o in
    match r with
    | None => Normal VUndefined
    | Some value =>
        if truthy value && timestamp_path jsonPath then render_date value
        else Normal value
    end.

(** ** Assignment to a property *)

(** Does an assignment that finds no own property meet, going up from
    [holder], the [__proto__] accessor of [Object.prototype] before any data
    property of that name? *)
Fixpoint reaches_proto_setter (holder : JSValue) : bool :=
  match holder with
  | VObj proto props => negb (has_own "__proto__" props) && reaches_proto_setter proto
  | VArr _ | VBuiltin _ => true
  | _ => false
  end.

(** [o[k] = v] on an ordinary object [o]: an own property is overwritten in
    place; otherwise the key [__proto__] runs the inherited setter (which
    replaces the prototype when [v] is an object or [null], and ignores
    anything else); otherwise a new own property is appended. *)
Definition js_set (o : JSValue) (k : string) (v : JSValue) : JSValue :=
  match o with
  | VObj proto props =>
      if has_own k props then VObj proto (own_update k v props)
      else if String.eqb k "__proto__" && reaches_proto_setter proto then
        match v with
        | VNull | VArr _ | VObj _ _ | VBuiltin _ => VObj v props
        | _ => o
        end
      else VObj proto (props ++ [(k, v)])%list
  | _ => o
  end.

End Extractor.

(** ** JSON *)

Section Json.
Context `{Engine}.
Local Open Scope completion_scope.

(** The [toJSON] an object answers to, own or inherited.  No edition of
    the language gives [Object.prototype] or [Array.prototype] one, and an
    array has no own property of that name; what a function object answers
    is the engine's. *)
Fixpoint toJSON_of (v : JSValue) : Completion JSValue :=
  match v with
  | VObj proto props =>
      match own_get "toJSON" props with
      | Some hook => Normal hook
      | None => toJSON_of proto
      end
  | VBuiltin (NativeFunction f) => fn_get f "toJSON"
  | _ => Normal VUndefined
  end.

(** What [JSON.parse(JSON.stringify(v))] is, for the value [v] held under
    [key] (the empty string at the top): [None] when [JSON.stringify(v)] is
    [undefined].  An object that answers to [toJSON] with a function is
    serialised as what the function returns; a property whose value
    serialises to [undefined] is left out, an array element becomes [null];
    only own enumerable properties are serialised, and the parsed objects
    have the default prototype. *)
Fixpoint JSON_roundtrip (key : string) (v : JSValue) : Completion (option JSValue) :=
  match v with
  | VUndefined => Normal None
  | VNull | VBool _ | VNum _ | VStr _ => Normal (Some v)
  | VArr elems =>
      let! images :=
        (fix elements (i : nat) (es : list JSValue) : Completion (list JSValue) :=
           match es with
           | [] => Normal []
           | e :: rest =>
               let! j := JSON_roundtrip (pretty i) e in
               let! js := elements (S i) rest in
               Normal (match j with Some x => x | None => VNull end :: js)
           end) 0%nat elems in
      Normal (Some (VArr images))
  | VObj _ props =>
      let! hook := toJSON_of v in
      match hook with
      | VBuiltin (NativeFunction f) => toJSON_image f v key
      | _ =>
          let! members :=
            (fix members (ps : list (string * JSValue)) : Completion JSObject :=
               match ps with
               | [] => Normal []
               | (k, x) :: rest =>
                   let! j := JSON_roundtrip k x in
                   let! ms := members rest in
                   Normal (match j with Some y => (k, y) :: ms | None => ms end)
               end) props in
          Normal (Some (obj members))
      end
  | VBuiltin ObjectPrototype => Normal (Some (obj []))
  | VBuiltin ArrayPrototype => Normal (Some (VArr []))
  | VBuiltin (NativeFunction f) =>
      let! hook := fn_get f "toJSON" in
      match hook with
      | VBuiltin (NativeFunction g) => toJSON_image g v key
      | _ => Normal None
      end
  end.

(** The images of the elements of an array, from the index [i] on. *)
Fixpoint JSON_elements (i : nat) (es : list JSValue) : Completion (list JSValue) :=
  match es with
  | [] => Normal []
  | e :: rest =>
      let! j := JSON_roundtrip (pretty i) e in
      let! js := JSON_elements (S i) rest in
      Normal (match j with Some x => x | None => VNull end :: js)
  end.

End Json.

(** A text held by the cache store, by what [JSON.parse] makes of it:
    [JsonText v] is a JSON text that parses to [v]; [RawText s message] is
    the string [s], which is not JSON, with the message of the
    [SyntaxError] the engine's [JSON.parse] throws on it. *)
Inductive CachedText : Type :=
| JsonText (v : JSValue)
| RawText (s : string) (message : string).

(** [JSON.stringify(v)]: a text, [undefined], or the exception of a
    [toJSON] hook. *)
Definition JSON_stringify `{Engine} (v : JSValue) : Completion (option CachedText) :=
  (let! image := JSON_roundtrip "" v in Normal (option_map JsonText image))%compl.

Definition JSON_parse (t : CachedText) : Completion JSValue :=
  match t with
  | JsonText v => Normal v
  | RawText _ message => Throw (SyntaxError message)
  end.

(** Truthiness of a string: a JSON text is never empty. *)
Definition text_truthy (t : CachedText) : bool :=
  match t with
  | JsonText _ => true
  | RawText s _ => negb (String.eqb s "")
  end.

(** ** parseInt *)

Definition is_space (c : ascii) : bool :=
  let n := nat_of_ascii c in ((9 <=? n) && (n <=? 13) || (n =? 32))%nat.

Fixpoint skip_spaces (s : string) : string :=
  match s with
  | String c rest => if is_space c then skip_spaces rest else s
  | EmptyString => EmptyString
  end.

Fixpoint leading_digits (s : string) : string :=
  match s with
  | String c rest => if is_digit c then String c (leading_digits rest) else EmptyString
  | EmptyString => EmptyString
  end.

(** The Number nearest to an integer: an integer of at most 53 bits is a
    Number; a larger one is rounded to 53 significant bits, a tie to the
    even one.  (Beyond the range of the Numbers the result is an infinity,
    which no use of the result below tells from a large integer.) *)
Definition nearest_double (n : Z) : Z :=
  let a := Z.abs n in
  if a <=? 2 ^ 53 then n
  else
    let e := Z.log2 a - 52 in
    let q := a / 2 ^ e in
    let r := a mod 2 ^ e in
    let half := 2 ^ (e - 1) in
    let q := if r <? half then q
             else if half <? r then q + 1
             else if Z.even q then q else q + 1 in
    Z.sgn n * (q * 2 ^ e).

(** [parseInt(s, 10)]: leading white space, a sign, the longest run of
    digits, read as an integer and returned as the nearest Number; [None]
    is NaN.  (Past twenty digits an engine may read the further digits as
    zeros.) *)
Definition parseInt10 (s : string) : option Z :=
  let s := skip_spaces s in
  let '(sign, body) := match s with
                       | String "-" r => (-1, r)
                       | String "+" r => (1, r)
                       | _ => (1, s)
                       end in
  let ds := leading_digits body in
  if String.eqb ds "" then None
  else option_map (fun n => nearest_double (sign * n)) (digits_value 0 ds).

(** ** Data model *)

Record ColumnDefinition : Type := {
  col_name : string;
  col_description : option string;
  col_jsonPath : string;
  col_type : string;
  col_priority : option Z
}.

(** One entry of [spec.versions] of a CRD. *)
Record CRDVersion : Type := {
  version_name : string;
  additionalPrinterColumns : option (list ColumnDefinition)
}.

Record CRDSpec : Type := {
  spec_group : string;
  spec_scope : option string;
  spec_names_plural : string;
  spec_versions : list CRDVersion
}.

Record CRD : Type := {
  crd_metadata_name : string;
  crd_spec : CRDSpec
}.

Record CRDMetadata : Type := {
  group : string;
  plural : string;
  columns : list ColumnDefinition;
  scope : option string
}.

Record ReportsData : Type := {
  manifests : list JSValue;
  clusterName : string;
  rd_scope : string;
  error : option string;
  resource : option string
}.

(** The records as the JavaScript objects the code builds, key by key in
    the order of the object literals. *)
Definition opt_str (o : option string) : JSValue :=
  match o with Some s => VStr s | None => VUndefined end.

Definition opt_num (o : option Z) : JSValue :=
  match o with Some n => VNum n | None => VUndefined end.

Definition ColumnDefinition_to_js (c : ColumnDefinition) : JSValue :=
  obj [ ("name", VStr (col_name c));
        ("description", opt_str (col_description c));
        ("jsonPath", VStr (col_jsonPath c));
        ("type", VStr (col_type c));
        ("priority", opt_num (col_priority c)) ].

Definition CRDMetadata_to_js (m : CRDMetadata) : JSValue :=
  obj [ ("group", VStr (group m));
        ("plural", VStr (plural m));
        ("columns", VArr (List.map ColumnDefinition_to_js (columns m)));
        ("scope", opt_str (scope m)) ].

Definition opt_field (k : string) (o : option string) : JSObject :=
  match o with Some s => [(k, VStr s)] | None => [] end.

Definition ReportsData_to_js (d : ReportsData) : JSValue :=
  obj ([ ("manifests", VArr (manifests d));
         ("clusterName", VStr (clusterName d));
         ("scope", VStr (rd_scope d)) ]
       ++ opt_field "error" (error d)
       ++ opt_field "resource" (resource d))%list.

(** ** The world *)

(** A key of the Redis keyspace: the text and the instant (in seconds) at
    which the store drops it. *)
Record Entry : Type := {
  text : CachedText;
  expires_at : Z
}.

(** The three calls of [CustomObjectsApi] the code makes. *)
Inductive ApiCall : Type :=
| listClusterCustomObject (group version plural : string)
| getClusterCustomObject (group version plural name : string)
| listCustomObjectForAllNamespaces (group version plural : string).

(** The levels of the console that are recorded: [console.warn] and
    [console.error].  ([console.log] is not.) *)
Inductive Level : Type := Warn | Error.

Record World : Type := {
  redis : gmap string Entry;
  clock : Z;
  redis_commands : nat;
  api_calls : list ApiCall;
  console : list (Level * string)
}.

(** A response of the cluster API: a rejection with an [Error] of the given
    message (the client library rejects with subclasses of [Error]), or the
    fulfilled value.  Building the client ([makeApiClient]) is taken to
    succeed. *)
Definition Response (A : Type) : Type := string + A.

(** The cluster, as the answers it gives: the list of all CRDs (its [items]
    may be missing), the [spec] of the CRD of a given name (it may be
    missing), and the instances of a plural, listed across all namespaces
    or cluster-wide. *)
Record Cluster : Type := {
  all_crds : Response (option (list CRD));
  crd_by_name : string -> Response (option CRDSpec);
  instances_all_namespaces : string -> Response (option (list JSObject));
  instances_cluster : string -> Response (option (list JSObject))
}.

(** What a process is started with: the environment variable
    [CACHE_DURATION], the name of the current cluster of the kubeconfig
    ([None] when the kubeconfig has no current cluster),
    the cluster it talks to, and the faults of the Redis connection
    ([redis_fault n = Some msg]: the command number [n] is rejected with an
    [Error] of message [msg]). *)
Record Env : Type := {
  env_CACHE_DURATION : option string;
  current_cluster_name : option string;
  cluster : Cluster;
  redis_fault : nat -> option string
}.

(** [s || fallback] on an optional string. *)
Definition or_else (o : option string) (fallback : string) : string :=
  match o with
  | Some s => if String.eqb s "" then fallback else s
  | None => fallback
  end.

(** [parseInt(process.env.CACHE_DURATION || '1800', 10)], in seconds. *)
Definition CACHE_DURATION (env : Env) : option Z :=
  parseInt10 (or_else (env_CACHE_DURATION env) "1800").

(** [kubeConfig.getCurrentCluster()?.name || 'Unknown Cluster']. *)
Definition the_clusterName (env : Env) : string :=
  or_else (current_cluster_name env) "Unknown Cluster".

(** ** Asynchronous functions: state and exceptions *)

Definition M (A : Type) : Type := World -> Completion A * World.

Definition ret {A} (a : A) : M A := fun w => (Normal a, w).

Definition throw {A} (e : Exn) : M A := fun w => (Throw e, w).

Definition bind {A B} (m : M A) (k : A -> M B) : M B :=
  fun w => match m w with
           | (Normal a, w') => k a w'
           | (Throw e, w') => (Throw e, w')
           end.

(** [try { body } catch (err) { handler }]: what [body] did to the world
    before it threw stays done. *)
Definition try_catch {A} (body : M A) (handler : Exn -> M A) : M A :=
  fun w => match body w with
           | (Normal a, w') => (Normal a, w')
           | (Throw e, w') => handler e w'
           end.

Definition lift {A} (c : Completion A) : M A := fun w => (c, w).

Declare Scope async_scope.
Delimit Scope async_scope with async.
Notation "'await' x ':=' m 'in' k" := (bind m (fun x => k))
  (at level 10, x name, m at level 100, k at level 200) : async_scope.
Notation "'run' m 'then' k" := (bind m (fun _ => k))
  (at level 10, m at level 100, k at level 200) : async_scope.

Definition set_redis (r : gmap string Entry) (w : World) : World :=
  {| redis := r; clock := clock w; redis_commands := redis_commands w;
     api_calls := api_calls w; console := console w |}.

Definition count_command (w : World) : World :=
  {| redis := redis w; clock := clock w; redis_commands := S (redis_commands w);
     api_calls := api_calls w; console := console w |}.

Definition record_call (c : ApiCall) (w : World) : World :=
  {| redis := redis w; clock := clock w; redis_commands := redis_commands w;
     api_calls := api_calls w ++ [c]; console := console w |}.

Definition print (l : Level) (msg : string) (w : World) : World :=
  {| redis := redis w; clock := clock w; redis_commands := redis_commands w;
     api_calls := api_calls w; console := console w ++ [(l, msg)] |}.

(** Time passing between two calls. *)
Definition elapse (dt : Z) (w : World) : World :=
  {| redis := redis w; clock := clock w + dt; redis_commands := redis_commands w;
     api_calls := api_calls w; console := console w |}.

(** The text a key holds now: an entry past its expiry is gone. *)
Definition live (key : string) (w : World) : option CachedText :=
  match redis w !! key with
  | Some e => if clock w <? expires_at e then Some (text e) else None
  | None => None
  end.

(** The largest integer the store computes with (a signed 64-bit one). *)
Definition LLONG_MAX : Z := 9223372036854775807.

(** What the store answers to [SETEX key seconds value] at the instant
    [now] when it refuses the duration (as Redis 7 does): the duration is
    sent as the decimal text of the Number and has to be a 64-bit integer;
    it has to be positive, and the instant of expiry, in milliseconds, has
    to be a 64-bit integer too. *)
Definition SETEX_refusal (now seconds : Z) : option string :=
  if (seconds <? - LLONG_MAX - 1) || (LLONG_MAX <? seconds)
  then Some "ERR value is not an integer or out of range"
  else if (seconds <=? 0) || (LLONG_MAX / 1000 <? seconds)
          || (LLONG_MAX <? (now + seconds) * 1000)
       then Some "ERR invalid expire time in 'setex' command"
       else None.

Section Clients.
Context `{Engine}.
Variable env : Env.

(** A command sent over the Redis connection: rejected when the connection
    is at fault, otherwise answered by the store. *)
Definition redis_command {A} (answer : M A) : M A :=
  fun w => match redis_fault env (redis_commands w) with
           | Some msg => (Throw (JSError "Error" msg), count_command w)
           | None => answer (count_command w)
           end.

Definition redisClient_get (key : string) : M (option CachedText) :=
  redis_command (fun w => (Normal (live key w), w)).

(** [SETEX key seconds value]: the store refuses a duration that is NaN
    (sent as the text [NaN]) and the durations of [SETEX_refusal]. *)
Definition redisClient_setEx (key : string) (seconds : option Z) (value : CachedText) : M unit :=
  redis_command (fun w =>
    match seconds with
    | Some ttl =>
        match SETEX_refusal (clock w) ttl with
        | None =>
            (Normal tt,
             set_redis (<[key := {| text := value; expires_at := clock w + ttl |}]> (redis w)) w)
        | Some message => (Throw (JSError "Error" message), w)
        end
    | None => (Throw (JSError "Error" "ERR value is not an integer or out of range"), w)
    end).

Definition redisClient_del (key : string) : M unit :=
  redis_command (fun w => (Normal tt, set_redis (delete key (redis w)) w)).

(** [kubeConfig.makeApiClient(CustomObjectsApi)]: the client library
    throws when the kubeconfig has no current cluster. *)
Definition makeApiClient : M unit :=
  match current_cluster_name env with
  | Some _ => ret tt
  | None => throw (JSError "Error" "No active cluster!")
  end.

(** A call of the cluster API: recorded, then fulfilled or rejected. *)
Definition api {A} (c : ApiCall) (r : Response A) : M A :=
  fun w => match r with
           | inl msg => (Throw (JSError "Error" msg), record_call c w)
           | inr a => (Normal a, record_call c w)
           end.

(** [if (err instanceof Error) console.<level>(prefix + err.message)]. *)
Definition report (l : Level) (prefix : string) (err : Exn) : M unit :=
  match err with
  | JSError _ message => fun w => (Normal tt, print l (prefix ++ message) w)
  | ThrownValue => ret tt
  end.

(** [setEx(key, CACHE_DURATION, JSON.stringify(data))]: the text is made
    first, and a [toJSON] hook in the data can throw; for the objects and
    arrays the code serialises the result is a string unless a hook makes
    it [undefined], which the client refuses to send. *)
Definition cache_put (key : string) (data : JSValue) : M unit :=
  fun w =>
    match JSON_stringify data with
    | Normal (Some t) => redisClient_setEx key (CACHE_DURATION env) t w
    | Normal None => (Throw (TypeError "Invalid argument type"), w)
    | Throw e => (Throw e, w)
    end.

End Clients.

(** ** The Redis-backed module *)

Definition vendor_group : string := "aquasecurity.github.io".
Definition target_version : string := "v1alpha1".

(** [versions.find((v) => v.name === 'v1alpha1')]. *)
Definition find_version (versions : list CRDVersion) : option CRDVersion :=
  List.find (fun v => String.eqb (version_name v) target_version) versions.

(** [getColumnDefinitions]: the printer columns of a version, copied field
    by field; none when the version or its columns are missing. *)
Definition getColumnDefinitions (versionInfo : option CRDVersion) : list ColumnDefinition :=
  match versionInfo with
  | None => []
  | Some v =>
      match additionalPrinterColumns v with
      | Some cols =>
          List.map (fun col => {| col_name := col_name col;
                                  col_description := col_description col;
                                  col_jsonPath := col_jsonPath col;
                                  col_type := col_type col;
                                  col_priority := col_priority col |}) cols
      | None => []
      end
  end.

(** The filter of the discovery:
    [crd.spec.group === 'aquasecurity.github.io' && crd.spec.scope !== 'Namespaced']. *)
Definition keep_crd (crd : CRD) : bool :=
  String.eqb (spec_group (crd_spec crd)) vendor_group
  && negb (match spec_scope (crd_spec crd) with
           | Some s => String.eqb s "Namespaced"
           | None => false
           end).

(** The map of the discovery. *)
Definition describe_crd (crd : CRD) : CRDMetadata :=
  {| group := vendor_group;
     plural := spec_names_plural (crd_spec crd);
     columns := getColumnDefinitions (find_version (spec_versions (crd_spec crd)));
     scope := spec_scope (crd_spec crd) |}.

Definition default_columns : list ColumnDefinition :=
  [ {| col_name := "Name"; col_description := None;
       col_jsonPath := ".metadata.name"; col_type := "string"; col_priority := None |};
    {| col_name := "Age"; col_description := None;
       col_jsonPath := ".metadata.creationTimestamp"; col_type := "date"; col_priority := None |} ].

(** [err instanceof Error ? err.message : 'Unknown error']. *)
Definition message_of (err : Exn) : string :=
  match err with
  | JSError _ message => message
  | ThrownValue => "Unknown error"
  end.

(** The payload of the failure path of [loadReports]. *)
Definition error_payload (message crdPlural : string) : ReportsData :=
  {| manifests := [];
     clusterName := "Unknown Cluster";
     rd_scope := "Unknown";
     error := Some message;
     resource := Some crdPlural |}.

(** [value !== undefined ? value : null]. *)
Definition or_null (value : JSValue) : JSValue :=
  match value with VUndefined => VNull | _ => value end.

Fixpoint map_completion {A B} (f : A -> Completion B) (l : list A) : Completion (list B) :=
  match l with
  | [] => Normal []
  | x :: rest =>
      (let! y := f x in
       let! ys := map_completion f rest in
       Normal (y :: ys))%compl
  end.

Section RedisBacked.
Context `{Engine}.
Variable env : Env.

(** [columns.forEach((col) => { reportData[col.name] = ... })]. *)
Fixpoint assign_columns (cols : list ColumnDefinition) (item : JSObject)
    (reportData : JSValue) : Completion JSValue :=
  match cols with
  | [] => Normal reportData
  | col :: rest =>
      (let! value := extractValue (obj item) (col_jsonPath col) in
       assign_columns rest item
         (js_set reportData (col_name col) (or_null value)))%compl
  end.

(** The body of [items.map((item) => ...)]: the projected record of one
    instance. *)
Definition project (cols : list ColumnDefinition) (item : JSObject) : Completion JSValue :=
  (let! metadata := js_get (obj item) "metadata" in
   let reportData := obj [ ("metadata", if truthy metadata then metadata else obj []) ] in
   assign_columns cols item reportData)%compl.

Local Open Scope async_scope.

Definition crds_key : string := "aqua_security_crds".

(** The [try] block of [listAllAquaSecurityCRDs]. *)
Definition fetch_crds : M JSValue :=
  let cacheKey := crds_key in
  run makeApiClient env then
  await response :=
    api (listClusterCustomObject "apiextensions.k8s.io" "v1" "customresourcedefinitions")
        (all_crds (cluster env)) in
  let items := match response with Some l => l | None => [] end in
  let crds := List.map describe_crd (List.filter keep_crd items) in
  let result := VArr (List.map CRDMetadata_to_js crds) in
  run cache_put env cacheKey result then
  ret result.

(** The [catch] block of [listAllAquaSecurityCRDs]. *)
Definition fail_crds (err : Exn) : M JSValue :=
  run report Error "Critical error fetching Aqua CRDs: " err then
  ret (VArr []).

Definition listAllAquaSecurityCRDs : M JSValue :=
  let cacheKey := crds_key in
  await cachedData := redisClient_get env cacheKey in
  let fetch := try_catch fetch_crds fail_crds in
  match cachedData with
  | Some t => if text_truthy t then lift (JSON_parse t) else fetch
  | None => fetch
  end.

Definition reports_key (crdPlural : string) : string := "reports:" ++ crdPlural.

(** Step 4 of [loadReports]: the instances, listed across all namespaces
    for a namespaced CRD and cluster-wide otherwise; each call sits in a
    [try] of its own, whose [catch] warns and goes on with no instance. *)
Definition list_instances (crdPlural scope : string) : M (list JSObject) :=
  if String.eqb scope "Namespaced" then
    try_catch
      (await result :=
         api (listCustomObjectForAllNamespaces vendor_group target_version crdPlural)
             (instances_all_namespaces (cluster env) crdPlural) in
       ret (match result with Some l => l | None => [] end))
      (fun listErr =>
         run report Warn
           ("Warning: Could not list namespaced instances of " ++ crdPlural ++ ": ")
           listErr then
         ret [])
  else
    try_catch
      (await result :=
         api (listClusterCustomObject vendor_group target_version crdPlural)
             (instances_cluster (cluster env) crdPlural) in
       ret (match result with Some l => l | None => [] end))
      (fun listErr =>
         run report Warn
           ("Warning: Could not list cluster instances of " ++ crdPlural ++ ": ")
           listErr then
         ret []).

(** The [try] block of [loadReports]. *)
Definition fetch_reports (crdPlural : string) : M JSValue :=
  let cacheKey := reports_key crdPlural in
  let crdName := crdPlural ++ ".aquasecurity.github.io" in
  await crdSpec :=
    api (getClusterCustomObject "apiextensions.k8s.io" "v1" "customresourcedefinitions" crdName)
        (crd_by_name (cluster env) crdName) in
  match crdSpec with
  | None => throw (JSError "Error" ("CRD " ++ crdName ++ " did not return a valid spec"))
  | Some crdSpec =>
      match find_version (spec_versions crdSpec) with
      | None => throw (JSError "Error" ("No v1alpha1 version found for " ++ crdName))
      | Some versionInfo =>
          let columns := getColumnDefinitions (Some versionInfo) in
          let columns := if (List.length columns =? 0)%nat then default_columns else columns in
          let scope := or_else (spec_scope crdSpec) "Cluster" in
          await items := list_instances crdPlural scope in
          await filteredReports := lift (map_completion (project columns) items) in
          let data := ReportsData_to_js
                        {| manifests := filteredReports;
                           clusterName := the_clusterName env;
                           rd_scope := scope;
                           error := None;
                           resource := Some crdPlural |} in
          run cache_put env cacheKey data then
          ret data
      end
  end.

(** The [catch] block of [loadReports]. *)
Definition fail_reports (crdPlural : string) (err : Exn) : M JSValue :=
  let cacheKey := reports_key crdPlural in
  run report Error ("Critical error fetching " ++ crdPlural ++ ": ") err then
  let data := ReportsData_to_js (error_payload (message_of err) crdPlural) in
  run cache_put env cacheKey data then
  ret data.

Definition loadReports (crdPlural : string) : M JSValue :=
  let cacheKey := reports_key crdPlural in
  await cachedData := redisClient_get env cacheKey in
  let fetch :=
    run makeApiClient env then
    try_catch (fetch_reports crdPlural) (fail_reports crdPlural) in
  match cachedData with
  | Some t => if text_truthy t then lift (JSON_parse t) else fetch
  | None => fetch
  end.

Definition invalidateCache (crdPlural : string) : M unit :=
  redisClient_del env (reports_key crdPlural).

End RedisBacked.

(** ** The simplified variant: an in-process cache *)

Module Simple.

Record CacheEntry : Type := {
  data : JSValue;
  timestamp : Z
}.

(** [5 * 60 * 1000], in milliseconds. *)
Definition CACHE_DURATION : Z := 5 * 60 * 1000.

(** The module-level [cache] object, the value of [Date.now()] in
    milliseconds, and the calls made. *)
Record World : Type := {
  cache : gmap string CacheEntry;
  now : Z;
  api_calls : list ApiCall
}.

Definition set_cache (key : string) (e : CacheEntry) (w : World) : World :=
  {| cache := <[key := e]> (cache w); now := now w; api_calls := api_calls w |}.

Definition record_call (c : ApiCall) (w : World) : World :=
  {| cache := cache w; now := now w; api_calls := (api_calls w ++ [c])%list |}.

Definition elapse (dt : Z) (w : World) : World :=
  {| cache := cache w; now := now w + dt; api_calls := api_calls w |}.

(** [cache[crdPlural] && (now - cache[crdPlural].timestamp < CACHE_DURATION)]. *)
Definition fresh (crdPlural : string) (w : World) : option CacheEntry :=
  match cache w !! crdPlural with
  | Some e => if now w - timestamp e <? CACHE_DURATION then Some e else None
  | None => None
  end.

(** The kubeconfig is loaded anew on every call that finds no fresh entry
    (what it holds once loaded is the environment's), and the client is
    made before the [try]: without a current cluster the call throws. *)
Definition loadReports (env : Env) (crdPlural : string) (w : World)
    : Completion JSValue * World :=
  let now := now w in
  match fresh crdPlural w with
  | Some e => (Normal (data e), w)
  | None =>
      let clusterName := or_else (current_cluster_name env) "Unknown Cluster" in
      match current_cluster_name env with
      | None => (Throw (JSError "Error" "No active cluster!"), w)
      | Some _ =>
          let w := record_call (listCustomObjectForAllNamespaces vendor_group target_version
                                  crdPlural) w in
          match instances_all_namespaces (cluster env) crdPlural with
          | inr result =>
              let items := match result with Some l => l | None => [] end in
              let data := obj [ ("reports", VArr (List.map obj items));
                                ("clusterName", VStr clusterName) ] in
              (Normal data, set_cache crdPlural {| data := data; timestamp := now |} w)
          | inl message =>
              let data := obj [ ("reports", VArr []);
                                ("error", VStr message);
                                ("clusterName", VStr clusterName) ] in
              (Normal data, set_cache crdPlural {| data := data; timestamp := now |} w)
          end
      end
  end.

End Simple.

(** ** The report table of the user interface

    The functions of [ReportTable.svelte] that compute on the reports the
    server hands to the page.  The component runs in a browser; what its
    engine does with a primitive value (reading a property of a string, a
    number or a boolean; [String(v)] of a value that is not a string) is a
    parameter of the functions that can meet one. *)
Module ReportTable.

(** The two variables behind the sorted column, [sortColumn] and
    [sortDirection]: both start as written in the component. *)
Record SortState : Type := {
  sortColumn : string;
  sortDirection : string
}.

Definition initial : SortState := {| sortColumn := ""; sortDirection := "asc" |}.

(** A click on the header of a column. *)
Definition toggleSort (column : string) (s : SortState) : SortState :=
  if String.eqb (sortColumn s) column
  then {| sortColumn := sortColumn s;
          sortDirection := if String.eqb (sortDirection s) "asc" then "desc" else "asc" |}
  else {| sortColumn := column; sortDirection := "asc" |}.

(** The double quote and the line feed. *)
Definition quote : ascii := ascii_of_nat 34.
Definition newline : ascii := ascii_of_nat 10.

(** The [replace] of [escapeCsvValue]: every double quote becomes two. *)
Fixpoint double_quotes (s : string) : string :=
  match s with
  | EmptyString => EmptyString
  | String c rest =>
      if Ascii.eqb c quote then String quote (String quote (double_quotes rest))
      else String c (double_quotes rest)
  end.

(** A column of the table. *)
Record TableColumn : Type := {
  header : string;
  value : string;
  color : option string
}.

(** An integer index as a property key: the canonical decimal spelling of
    a number below [2^32 - 1]. *)
Definition index_key (k : string) : option Z :=
  match k with
  | EmptyString => None
  | String "0" EmptyString => Some 0
  | String "0" _ => None
  | _ => match digits_value 0 k with
         | Some n => if n <? 4294967295 then Some n else None
         | None => None
         end
  end.

Fixpoint insert_index (n : Z) (k : string) (l : list (Z * string)) : list (Z * string) :=
  match l with
  | [] => [(n, k)]
  | (m, k') :: rest => if n <? m then (n, k) :: l else (m, k') :: insert_index n k rest
  end.

(** [Object.keys(o)]: the integer indices in ascending order, then the
    other keys in the order of their creation. *)
Definition Object_keys (props : JSObject) : list string :=
  let names := List.map fst props in
  let indices :=
    fold_right (fun k acc => match index_key k with
                             | Some n => insert_index n k acc
                             | None => acc
                             end) [] names in
  (List.map snd indices
   ++ List.filter (fun k => match index_key k with Some _ => false | None => true end) names)%list.

(** [allKeys.add(key)] on a [Set], the keys in the order of insertion. *)
Definition set_add (key : string) (allKeys : list string) : list string :=
  if in_names key allKeys then allKeys else (allKeys ++ [key])%list.

(** The inner loop over the keys of one report. *)
Definition add_keys (allKeys : list string) (keys : list string) : list string :=
  fold_left (fun acc key => if String.eqb key "metadata" then acc else set_add key acc)
    keys allKeys.

Section Component.
Context `{Engine}.

(** [v[k]] on a boolean, a number or a string, [String(v)] and
    [s.toLowerCase()]: the engine's. *)
Variable prim_get : JSValue -> string -> Completion JSValue.
Variable ToString : JSValue -> Completion string.
Variable toLowerCase : string -> string.

(** The colour of the badge of a column, by its header. *)
Definition getColor (header : string) : option string :=
  let lowerHeader := toLowerCase header in
  if includes lowerHeader "fail" then Some "red"
  else if includes lowerHeader "pass" then Some "green"
  else if includes lowerHeader "unknown" then Some "gray"
  else if includes lowerHeader "critical" then Some "red"
  else if includes lowerHeader "high" then Some "orange"
  else if includes lowerHeader "medium" then Some "yellow"
  else if includes lowerHeader "low" then Some "green"
  else if includes lowerHeader "none" then Some "gray"
  else None.

(** The columns of the table: those handed to the component, or, when it
    is handed none, one per key of the reports other than [metadata]. *)
Definition tableColumns (columns : list ColumnDefinition) (reports : list JSObject)
    : list TableColumn :=
  if (0 <? List.length columns)%nat then
    List.map (fun col => {| header := col_name col;
                            value := col_jsonPath col;
                            color := getColor (col_name col) |}) columns
  else
    let allKeys := fold_left (fun acc report => add_keys acc (Object_keys report)) reports [] in
    List.map (fun key => {| header := key; value := key; color := getColor key |}) allKeys.

(** [escapeCsvValue]: a string with a comma, a double quote or a line feed
    is wrapped in double quotes, its own double quotes doubled; anything
    else goes through [String]. *)
Definition escapeCsvValue (value : JSValue) : Completion string :=
  match value with
  | VStr s =>
      if includes s "," || includes s (String quote EmptyString)
         || includes s (String newline EmptyString)
      then Normal (String quote (double_quotes s ++ String quote EmptyString))
      else Normal s
  | _ => ToString value
  end.

(** [acc[part]] for a truthy [acc]. *)
Definition read (acc : JSValue) (part : string) : Completion JSValue :=
  match acc with
  | VBool _ | VNum _ | VStr _ => prim_get acc part
  | _ => js_get acc part
  end.

(** [parts.reduce((acc, part) => acc && acc[part], obj)]. *)
Fixpoint reduce_parts (parts : list string) (acc : JSValue) : Completion JSValue :=
  match parts with
  | [] => Normal acc
  | part :: rest =>
      if truthy acc
      then (let! next := read acc part in reduce_parts rest next)%compl
      else reduce_parts rest acc
  end.

(** [get]: the value at a dotted path, the leading dot optional. *)
Definition get (o : JSValue) (path : string) : Completion JSValue :=
  if negb (truthy o) || String.eqb path "" then Normal VUndefined
  else
    let path := match path with
                | String c rest => if Ascii.eqb c "." then rest else path
                | EmptyString => path
                end in
    reduce_parts (split "." path) o.

End Component.

End ReportTable.

(** ** A reference engine

    An engine in the en-US locale and the UTC time zone, with the methods
    of [Array.prototype] as of ECMAScript 2022, to evaluate the functions
    on concrete inputs.  Of date strings it knows the one format Kubernetes
    writes ([YYYY-MM-DDTHH:mm:ssZ]); any other string is no date to it.  An
    object whose own [toString] is not callable cannot be converted to a
    primitive. *)
Module Reference.

(** Days since 1970-01-01 of a civil date, and back. *)
Definition days_from_civil (y m d : Z) : Z :=
  let y := if m <=? 2 then y - 1 else y in
  let era := y / 400 in
  let yoe := y - era * 400 in
  let doy := (153 * (if 2 <? m then m - 3 else m + 9) + 2) / 5 + d - 1 in
  let doe := yoe * 365 + yoe / 4 - yoe / 100 + doy in
  era * 146097 + doe - 719468.

Definition civil_from_days (z : Z) : Z * Z * Z :=
  let z := z + 719468 in
  let era := z / 146097 in
  let doe := z - era * 146097 in
  let yoe := (doe - doe / 1460 + doe / 36524 - doe / 146096) / 365 in
  let doy := doe - (365 * yoe + yoe / 4 - yoe / 100) in
  let mp := (5 * doy + 2) / 153 in
  let d := doy - (153 * mp + 2) / 5 + 1 in
  let m := if mp <? 10 then mp + 3 else mp - 9 in
  ((if m <=? 2 then yoe + era * 400 + 1 else yoe + era * 400), m, d).

Definition field (s : string) (from len : nat) : option Z :=
  digits_value 0 (substring from len s).

Definition sep_at (s : string) (i : nat) (c : string) : bool :=
  String.eqb (substring i 1 s) c.

Definition parse_timestamp (s : string) : option Z :=
  if (String.length s =? 20)%nat
     && sep_at s 4 "-" && sep_at s 7 "-" && sep_at s 10 "T"
     && sep_at s 13 ":" && sep_at s 16 ":" && sep_at s 19 "Z"
  then
    match field s 0 4, field s 5 2, field s 8 2, field s 11 2, field s 14 2, field s 17 2 with
    | Some y, Some m, Some d, Some hh, Some mm, Some ss =>
        if (1 <=? m) && (m <=? 12) && (1 <=? d) && (d <=? 31)
           && (hh <=? 23) && (mm <=? 59) && (ss <=? 59)
        then Some (((days_from_civil y m d * 24 + hh) * 60 + mm) * 60 * 1000 + ss * 1000)
        else None
    | _, _, _, _, _, _ => None
    end
  else None.

Definition two_digits (n : Z) : string :=
  if n <? 10 then "0" ++ pretty n else pretty n.

(** [M/D/YYYY, h:mm:ss AM]. *)
Definition format_en_US (t : Z) : string :=
  let secs := t / 1000 in
  let days := secs / 86400 in
  let rem := secs mod 86400 in
  let '(y, m, d) := civil_from_days days in
  let hh := rem / 3600 in
  let h12 := if hh mod 12 =? 0 then 12 else hh mod 12 in
  pretty m ++ "/" ++ pretty d ++ "/" ++ pretty y ++ ", "
  ++ pretty h12 ++ ":" ++ two_digits ((rem / 60) mod 60) ++ ":" ++ two_digits (rem mod 60)
  ++ (if hh <? 12 then " AM" else " PM").

Definition date_of (v : JSValue) : Completion (option Z) :=
  match v with
  | VStr s => Normal (parse_timestamp s)
  | VNum n => Normal (if Z.abs n <=? 8640000000000000 then Some n else None)
  | VBool b => Normal (Some (if b then 1 else 0))
  | VNull => Normal (Some 0)
  | VObj _ props =>
      match own_get "toString" props with
      | Some (VBuiltin (NativeFunction _)) | None => Normal None
      | Some _ => Throw (TypeError "Cannot convert object to primitive value")
      end
  | _ => Normal None
  end.

(** Of the native functions met as a [toJSON] hook it knows
    [Object.prototype.toString] and [toLocaleString]; any other it takes to
    return [undefined]. *)
Definition hook_image (f : string) (v : JSValue) (key : string) : Completion (option JSValue) :=
  if String.eqb f "Object.prototype.toString" || String.eqb f "Object.prototype.toLocaleString"
  then Normal (Some (VStr (match v with
                           | VArr _ => "[object Array]"
                           | VBuiltin (NativeFunction _) => "[object Function]"
                           | _ => "[object Object]"
                           end)))
  else Normal None.

#[export] Instance node : Engine := {|
  Array_prototype_names :=
    [ "at"; "concat"; "copyWithin"; "entries"; "every"; "fill"; "filter";
      "find"; "findIndex"; "findLast"; "findLastIndex"; "flat"; "flatMap";
      "forEach"; "includes"; "indexOf"; "join"; "keys"; "lastIndexOf"; "map";
      "pop"; "push"; "reduce"; "reduceRight"; "reverse"; "shift"; "slice";
      "some"; "sort"; "splice"; "toLocaleString"; "toString"; "unshift";
      "values" ];
  fn_in := fun _ k =>
    in_names k ["length"; "name"; "apply"; "bind"; "call"]
    || in_names k Object_prototype_names;
  fn_get := fun f k =>
    if String.eqb k "name" then Normal (VStr f) else Normal VUndefined;
  Date_new := date_of;
  toLocale := format_en_US;
  toJSON_image := hook_image
|}.

End Reference.

(** * Specification vocabulary *)

(** ** The extractor *)

(** Plain data, as [JSON.parse] and the API client produce it: every object
    in it has the default prototype. *)
Fixpoint plain (v : JSValue) : bool :=
  match v with
  | VObj proto props =>
      match proto with VBuiltin ObjectPrototype => true | _ => false end
      && forallb (fun '(_, x) => plain x) props
  | VArr elems => forallb plain elems
  | _ => true
  end.

(** The specification's reading of the walk: each segment is a direct key of the
    current object (for an array: an index or [length]). *)
Fixpoint direct_lookup (parts : list string) (v : JSValue) : option JSValue :=
  match parts with
  | [] => Some v
  | part :: rest =>
      match v with
      | VObj _ props =>
          match own_get part props with
          | Some x => direct_lookup rest x
          | None => None
          end
      | VArr elems =>
          match array_own_get elems part with
          | Some x => direct_lookup rest x
          | None => None
          end
      | _ => None
      end
  end.

(** What the loop tests before each step: a non-null object that has the
    segment as an own or inherited property. *)
Definition can_step `{Engine} (v : JSValue) (part : string) : bool :=
  truthy v && String.eqb (typeof v) "object" && HasProperty v part.


(** ** The cache-backed operations *)

(** No command of the Redis connection is ever rejected. *)
Definition no_faults (env : Env) : Prop := forall n, redis_fault env n = None.

(** What [if (cachedData)] lets through: a live, non-empty text. *)
Definition hit (key : string) (w : World) : option CachedText :=
  match live key w with
  | Some t => if text_truthy t then Some t else None
  | None => None
  end.

(** The ways the [try] block of [loadReports] fails, from the world [w] it
    starts in: the lookup of the CRD is rejected, the CRD has no [spec],
    the [spec] has no [v1alpha1] version, or anything else is thrown. *)
Inductive fetch_fails `{Engine} (env : Env) (crdPlural : string) (w : World) : Exn -> World -> Prop :=
| lookup_rejected msg :
    crd_by_name (cluster env) (crdPlural ++ ".aquasecurity.github.io") = inl msg ->
    fetch_fails env crdPlural w (JSError "Error" msg)
      (record_call (getClusterCustomObject "apiextensions.k8s.io" "v1"
                      "customresourcedefinitions" (crdPlural ++ ".aquasecurity.github.io")) w)
| spec_missing :
    crd_by_name (cluster env) (crdPlural ++ ".aquasecurity.github.io") = inr None ->
    fetch_fails env crdPlural w
      (JSError "Error" ("CRD " ++ (crdPlural ++ ".aquasecurity.github.io")
                        ++ " did not return a valid spec"))
      (record_call (getClusterCustomObject "apiextensions.k8s.io" "v1"
                      "customresourcedefinitions" (crdPlural ++ ".aquasecurity.github.io")) w)
| version_absent spec :
    crd_by_name (cluster env) (crdPlural ++ ".aquasecurity.github.io") = inr (Some spec) ->
    find_version (spec_versions spec) = None ->
    fetch_fails env crdPlural w
      (JSError "Error" ("No v1alpha1 version found for "
                        ++ (crdPlural ++ ".aquasecurity.github.io")))
      (record_call (getClusterCustomObject "apiextensions.k8s.io" "v1"
                      "customresourcedefinitions" (crdPlural ++ ".aquasecurity.github.io")) w)
| other_exception e w' :
    fetch_reports env crdPlural w = (Throw e, w') ->
    fetch_fails env crdPlural w e w'.

(** The result of a fetch that went through. *)
Definition fetched (env : Env) (crdPlural : string) (spec : CRDSpec) (ms : list JSValue)
    : ReportsData :=
  {| manifests := ms;
     clusterName := the_clusterName env;
     rd_scope := or_else (spec_scope spec) "Cluster";
     error := None;
     resource := Some crdPlural |}.

(** An own property of an object. *)
Definition own_field (v : JSValue) (k : string) : option JSValue :=
  match v with
  | VObj _ props => own_get k props
  | _ => None
  end.

(** The invariant of C8 on a payload: its [scope] is one of the three
    strings, and ["Unknown"] comes with an [error]. *)
Definition scope_invariant (v : JSValue) : Prop :=
  exists s, own_field v "scope" = Some (VStr s)
    /\ (s = "Cluster" \/ s = "Namespaced" \/ s = "Unknown")
    /\ (s = "Unknown" -> exists m, own_field v "error" = Some (VStr m)).

(** The cluster states the scope of a CRD as the API defines it:
    ["Cluster"] or ["Namespaced"], if at all. *)
Definition scopes_valid (env : Env) : Prop :=
  forall name spec,
    crd_by_name (cluster env) name = inr (Some spec) ->
    spec_scope spec = None \/ spec_scope spec = Some "Cluster"
    \/ spec_scope spec = Some "Namespaced".

(** Every report payload in the keyspace satisfies the invariant. *)
Definition cache_sound (w : World) : Prop :=
  forall q e, redis w !! reports_key q = Some e ->
    exists v, text e = JsonText v /\ scope_invariant v.

(** ** The projected record *)



(** [item.metadata || {}]. *)
Definition passthrough (item : JSObject) : JSValue :=
  match own_get "metadata" item with
  | Some m => if truthy m then m else obj []
  | None => obj []
  end.

(** ** The calls and the happy path of [loadReports] *)

(** The lookup of the CRD of a plural. *)
Definition lookup_call (crdPlural : string) : ApiCall :=
  getClusterCustomObject "apiextensions.k8s.io" "v1" "customresourcedefinitions"
    (crdPlural ++ ".aquasecurity.github.io").

(** The listing call made for a scope. *)
Definition listing_call (crdPlural scope : string) : ApiCall :=
  if String.eqb scope "Namespaced"
  then listCustomObjectForAllNamespaces vendor_group target_version crdPlural
  else listClusterCustomObject vendor_group target_version crdPlural.

(** The instances the listing step goes on with: those the cluster lists,
    none when the call is rejected or the answer has no [items]. *)
Definition listed_instances (env : Env) (crdPlural scope : string) : list JSObject :=
  match (if String.eqb scope "Namespaced"
         then instances_all_namespaces (cluster env) crdPlural
         else instances_cluster (cluster env) crdPlural) with
  | inr (Some l) => l
  | _ => []
  end.

(** The columns the records are projected with: those of the version, the
    two default columns when it has none. *)
Definition columns_for (version : CRDVersion) : list ColumnDefinition :=
  match getColumnDefinitions (Some version) with
  | [] => default_columns
  | cols => cols
  end.

(** The calls of one run of the [try] block of [loadReports]: the lookup,
    then one listing call when the schema resolved. *)
Definition expected_calls (env : Env) (crdPlural : string) : list ApiCall :=
  lookup_call crdPlural ::
  match crd_by_name (cluster env) (crdPlural ++ ".aquasecurity.github.io") with
  | inr (Some spec) =>
      match find_version (spec_versions spec) with
      | Some _ => [listing_call crdPlural (or_else (spec_scope spec) "Cluster")]
      | None => []
      end
  | _ => []
  end.

(** A payload that says which plural it is for, with its list of manifests
    and the name of its cluster. *)
Definition tagged (crdPlural : string) (v : JSValue) : Prop :=
  own_field v "resource" = Some (VStr crdPlural)
  /\ (exists ms, own_field v "manifests" = Some (VArr ms))
  /\ (exists c, own_field v "clusterName" = Some (VStr c)).

(** Every report payload in the keyspace is for the plural of its key. *)
Definition cache_tagged (w : World) : Prop :=
  forall q e, redis w !! reports_key q = Some e ->
    exists v, text e = JsonText v /\ tagged q v.

(** The record of an instance under the two default columns. *)
Definition default_record (item : JSObject) (name age : JSValue) : JSValue :=
  obj [ ("metadata", passthrough item); ("Name", or_null name); ("Age", or_null age) ].

(** What [extractValue] returns for a path on an instance ([undefined] in
    place of an exception). *)
Definition extracted `{Engine} (item : JSObject) (jsonPath : string) : JSValue :=
  match extractValue (obj item) jsonPath with
  | Normal v => v
  | Throw _ => VUndefined
  end.

(** The record of an instance under the two default columns, as extracted. *)
Definition default_row `{Engine} (item : JSObject) : JSValue :=
  default_record item (extracted item ".metadata.name")
    (extracted item ".metadata.creationTimestamp").

(** Both default columns can be extracted from the instance. *)
Definition default_columns_return `{Engine} (item : JSObject) : Prop :=
  (exists n, extractValue (obj item) ".metadata.name" = Normal n)
  /\ (exists a, extractValue (obj item) ".metadata.creationTimestamp" = Normal a).


(** ** Paths *)

(** A segment: a string without a dot. *)
Fixpoint dot_free (s : string) : bool :=
  match s with
  | EmptyString => true
  | String c rest => negb (Ascii.eqb c ".") && dot_free rest
  end.

(** ** The report table *)

(** A run of clicks on the headers, the first click first. *)
Definition clicks (columns : list string) (s : ReportTable.SortState) : ReportTable.SortState :=
  fold_left (fun s column => ReportTable.toggleSort column s) columns s.

(** Does the character occur in the string? *)
Fixpoint occurs (c : ascii) (s : string) : bool :=
  match s with
  | EmptyString => false
  | String c' rest => Ascii.eqb c' c || occurs c rest
  end.

(** How often the character occurs in the string. *)
Fixpoint count_char (c : ascii) (s : string) : nat :=
  match s with
  | EmptyString => 0%nat
  | String c' rest => ((if Ascii.eqb c' c then 1 else 0) + count_char c rest)%nat
  end.
(** * Sample data *)

(** Sample reports. *)
Definition report_2024 : JSValue :=
  obj [ ("metadata", obj [ ("name", VStr "nginx");
                           ("creationTimestamp", VStr "2024-01-01T00:00:00Z") ]) ].

Definition report_bad_date : JSValue :=
  obj [ ("metadata", obj [ ("name", VStr "nginx");
                           ("creationTimestamp", VStr "not-a-date") ]) ].

Definition report_odd_object : JSValue :=
  obj [ ("metadata", obj [ ("creationTimestamp", obj [ ("toString", VNull) ]) ]) ].

(** A sample cluster: two CRDs of the vendor group. *)
Definition sample_columns : list ColumnDefinition :=
  [ {| col_name := "Repository"; col_description := Some "The name of image repository";
       col_jsonPath := ".report.artifact.repository"; col_type := "string";
       col_priority := None |};
    {| col_name := "Age"; col_description := None;
       col_jsonPath := ".metadata.creationTimestamp"; col_type := "date";
       col_priority := None |} ].

Definition vulnerabilityreports_spec : CRDSpec :=
  {| spec_group := "aquasecurity.github.io";
     spec_scope := Some "Namespaced";
     spec_names_plural := "vulnerabilityreports";
     spec_versions := [ {| version_name := "v1alpha1";
                           additionalPrinterColumns := Some sample_columns |} ] |}.

Definition clustercompliancereports_spec : CRDSpec :=
  {| spec_group := "aquasecurity.github.io";
     spec_scope := Some "Cluster";
     spec_names_plural := "clustercompliancereports";
     spec_versions := [ {| version_name := "v1alpha1";
                           additionalPrinterColumns := None |} ] |}.

Definition compliance_crd : CRD :=
  {| crd_metadata_name := "clustercompliancereports.aquasecurity.github.io";
     crd_spec := clustercompliancereports_spec |}.

Definition vulnerability_crd : CRD :=
  {| crd_metadata_name := "vulnerabilityreports.aquasecurity.github.io";
     crd_spec := vulnerabilityreports_spec |}.

Definition nginx_report : JSObject :=
  [ ("metadata", obj [ ("name", VStr "nginx");
                       ("creationTimestamp", VStr "2024-01-01T00:00:00Z") ]);
    ("report", obj [ ("artifact", obj [ ("repository", VStr "library/nginx") ]) ]) ].

(** A cluster with the two CRDs, one report, and no right to list
    cluster-scoped instances. *)
Definition sample_cluster : Cluster :=
  {| all_crds := inr (Some [compliance_crd; vulnerability_crd]);
     crd_by_name := fun name =>
       if String.eqb name "vulnerabilityreports.aquasecurity.github.io"
       then inr (Some vulnerabilityreports_spec)
       else if String.eqb name "clustercompliancereports.aquasecurity.github.io"
            then inr (Some clustercompliancereports_spec)
            else inl "HTTP-Code: 404 Message: Not Found";
     instances_all_namespaces := fun crdPlural =>
       if String.eqb crdPlural "vulnerabilityreports" then inr (Some [nginx_report])
       else inl "HTTP-Code: 404 Message: Not Found";
     instances_cluster := fun _ => inl "HTTP-Code: 403 Message: Forbidden" |}.

Definition unreachable_cluster : Cluster :=
  {| all_crds := inl "connect ECONNREFUSED 10.96.0.1:443";
     crd_by_name := fun _ => inl "connect ECONNREFUSED 10.96.0.1:443";
     instances_all_namespaces := fun _ => inl "connect ECONNREFUSED 10.96.0.1:443";
     instances_cluster := fun _ => inl "connect ECONNREFUSED 10.96.0.1:443" |}.

Definition sample_env : Env :=
  {| env_CACHE_DURATION := None;
     current_cluster_name := Some "kind-trivy";
     cluster := sample_cluster;
     redis_fault := fun _ => None |}.

Definition env_without_cluster : Env :=
  {| env_CACHE_DURATION := None;
     current_cluster_name := Some "kind-trivy";
     cluster := unreachable_cluster;
     redis_fault := fun _ => None |}.


(** A process that has just started: nothing cached, nothing called. *)
Definition boot : World :=
  {| redis := ∅; clock := 0; redis_commands := 0; api_calls := []; console := [] |}.

Definition simple_boot : Simple.World :=
  {| Simple.cache := ∅; Simple.now := 0; Simple.api_calls := [] |}.

(** What the first call for the sample reports returns. *)
Definition sample_reports : JSValue :=
  obj [ ("manifests",
         VArr [ obj [ ("metadata", obj [ ("name", VStr "nginx");
                                         ("creationTimestamp", VStr "2024-01-01T00:00:00Z") ]);
                      ("Repository", VStr "library/nginx");
                      ("Age", VStr "1/1/2024, 12:00:00 AM") ] ]);
        ("clusterName", VStr "kind-trivy");
        ("scope", VStr "Namespaced");
        ("resource", VStr "vulnerabilityreports") ].


(** ** Further samples *)

(** A report whose timestamp is an object that cannot be converted to a
    primitive. *)
Definition odd_report : JSObject :=
  [ ("metadata", obj [ ("name", VStr "odd");
                       ("creationTimestamp", obj [ ("toString", VNull) ]) ]) ].

(** A report with a count of zero. *)
Definition report_counts : JSValue :=
  obj [ ("metadata", obj [ ("name", VStr "nginx") ]);
        ("summary", obj [ ("criticalCount", VNum 0) ]) ].

(** The sample cluster, with the given compliance reports listed
    cluster-wide. *)
Definition cluster_listing (items : list JSObject) : Cluster :=
  {| all_crds := all_crds sample_cluster;
     crd_by_name := crd_by_name sample_cluster;
     instances_all_namespaces := instances_all_namespaces sample_cluster;
     instances_cluster := fun crdPlural =>
       if String.eqb crdPlural "clustercompliancereports" then inr (Some items)
       else inl "HTTP-Code: 404 Message: Not Found" |}.

Definition env_listing (items : list JSObject) : Env :=
  {| env_CACHE_DURATION := None;
     current_cluster_name := Some "kind-trivy";
     cluster := cluster_listing items;
     redis_fault := fun _ => None |}.

(** A store that rejects the second command it is sent. *)
Definition env_flaky : Env :=
  {| env_CACHE_DURATION := None;
     current_cluster_name := Some "kind-trivy";
     cluster := sample_cluster;
     redis_fault := fun n =>
       if (n =? 1)%nat then Some "LOADING Redis is loading the dataset in memory" else None |}.

(** A store that takes reads and refuses writes, as a read-only replica
    does: of the commands of a call of [loadReports] that fetches (the
    [get], the [setEx] of the result, the [setEx] of the failure), only the
    first is taken. *)
Definition env_readonly : Env :=
  {| env_CACHE_DURATION := None;
     current_cluster_name := Some "kind-trivy";
     cluster := sample_cluster;
     redis_fault := fun n =>
       if (n mod 3 =? 0)%nat then None
       else Some "READONLY You can't write against a read only replica." |}.

(** A kubeconfig without a current cluster. *)
Definition env_no_context : Env :=
  {| env_CACHE_DURATION := None;
     current_cluster_name := None;
     cluster := sample_cluster;
     redis_fault := fun _ => None |}.


(** The store after the first call for the sample reports, and after a
    first discovery. *)
Definition after_first_call : World :=
  snd (loadReports (H := Reference.node) sample_env "vulnerabilityreports" boot).

Definition after_discovery : World :=
  snd (listAllAquaSecurityCRDs (H := Reference.node) sample_env boot).

(** The records of the sample reports, as the page hands them to the
    table. *)
Definition sample_manifests : list JSObject :=
  [ [ ("metadata", obj [ ("name", VStr "nginx");
                         ("creationTimestamp", VStr "2024-01-01T00:00:00Z") ]);
      ("Repository", VStr "library/nginx");
      ("Age", VStr "1/1/2024, 12:00:00 AM") ] ].

(** A browser for the samples: of a primitive it knows the [length] of a
    string, [String] of the primitives and of a plain object, and the lower
    case of the letters A to Z. *)
Definition sample_prim_get (v : JSValue) (k : string) : Completion JSValue :=
  match v with
  | VStr s => if String.eqb k "length" then Normal (VNum (Z.of_nat (String.length s)))
              else Normal VUndefined
  | _ => Normal VUndefined
  end.

Definition sample_ToString (v : JSValue) : Completion string :=
  match v with
  | VUndefined => Normal "undefined"
  | VNull => Normal "null"
  | VBool b => Normal (if b then "true" else "false")
  | VNum n => Normal (pretty n)
  | VStr s => Normal s
  | _ => Normal "[object Object]"
  end.

Definition lower (c : ascii) : ascii :=
  let n := nat_of_ascii c in
  if ((65 <=? n) && (n <=? 90))%nat then ascii_of_nat (n + 32) else c.

Fixpoint sample_toLowerCase (s : string) : string :=
  match s with
  | EmptyString => EmptyString
  | String c rest => String (lower c) (sample_toLowerCase rest)
  end.

(** * Properties *)

(** ** The extractor *)

Section ExtractorFacts.
Context `{Engine}.

Lemma plain_own_get k props v :
  forallb (fun '(_, x) => plain x) props = true ->
  own_get k props = Some v -> plain v = true.
Proof.
  induction props as [|[k' x] rest IH]; simpl; [discriminate|].
  intros Hall Hget. apply andb_true_iff in Hall as [Hx Hrest].
  destruct (String.eqb k' k); [congruence | auto].
Qed.

Lemma plain_array_own_get elems k v :
  forallb plain elems = true ->
  array_own_get elems k = Some v -> plain v = true.
Proof.
  unfold array_own_get. intros Hall.
  destruct (String.eqb k "length"); [intros [= <-]; reflexivity|].
  destruct (array_index k) as [i|]; [|discriminate].
  intros Hi. rewrite forallb_forall in Hall. apply Hall.
  apply list_elem_of_In. eapply list_elem_of_lookup_2. exact Hi.
Qed.



Lemma typeof_object_is_Object v :
  truthy v = true -> typeof v = "object" -> is_Object v = true.
Proof. destruct v; simpl; try discriminate; auto. Qed.

(** One step of the loop on plain data. *)
Lemma walk_step part rest v :
  plain v = true ->
  walk (part :: rest) v =
    if can_step v part
    then match Get_from v part v with
         | Normal next => walk rest next
         | Throw e => Throw e
         end
    else Normal None.
Proof.
  intros Hplain. unfold can_step. simpl.
  destruct (truthy v) eqn:Ht; [|reflexivity].
  destruct (String.eqb_spec (typeof v) "object") as [Ho|Ho]; [|reflexivity].
  simpl. unfold js_in. rewrite (typeof_object_is_Object v Ht Ho). simpl.
  destruct (HasProperty v part); [|reflexivity].
  unfold js_get. destruct v; try discriminate; reflexivity.
Qed.


Lemma own_get_has_own k props x : own_get k props = Some x -> has_own k props = true.
Proof. unfold has_own. intros ->. reflexivity. Qed.

(** Segments that are direct keys are found by the loop. *)
Lemma walk_direct parts : forall v x,
  plain v = true -> direct_lookup parts v = Some x -> walk parts v = Normal (Some x).
Proof.
  induction parts as [|part rest IH]; intros v x Hplain; [simpl; congruence|].
  rewrite walk_step by assumption. unfold can_step. simpl.
  destruct v as [| | | | |elems|proto props|b]; try discriminate.
  - destruct (array_own_get elems part) as [y|] eqn:Hown; [|discriminate].
    simpl. rewrite Hown. intros Hd. apply IH; [|exact Hd].
    eauto using plain_array_own_get.
  - destruct (own_get part props) as [y|] eqn:Hown; [|discriminate].
    simpl. rewrite (own_get_has_own _ _ _ Hown), Hown. simpl. intros Hd.
    apply IH; [|exact Hd]. simpl in Hplain. apply andb_true_iff in Hplain as [_ Hprops].
    eauto using plain_own_get.
Qed.


End ExtractorFacts.

Section ExtractorTheorems.
Context `{Engine}.

Lemma extractValue_walk o jsonPath :
  truthy o = true -> jsonPath <> "" ->
  extractValue o jsonPath =
    match walk (tail (split "." jsonPath)) o with
    | Normal None => Normal VUndefined
    | Normal (Some value) =>
        if truthy value && timestamp_path jsonPath then render_date value
        else Normal value
    | Throw e => Throw e
    end.
Proof.
  intros Ht Hp. unfold extractValue. rewrite Ht.
  destruct (String.eqb_spec jsonPath ""); [contradiction|]. simpl.
  destruct (walk _ o) as [[v|]|e]; reflexivity.
Qed.


(** C3.  When the timestamp rule applies to the path and the walk ends on a
    truthy value: a value the engine reads as a valid date comes back as its
    locale rendering (not empty, when the engine's renderings are not); a
    value that is no date comes back as the string ["Invalid Date"], not as
    the value itself, because that is how an invalid date renders and the
    string is truthy, so the fallback [|| value] is never taken. *)
Theorem extractValue_timestamp (o : JSValue) (jsonPath : string) (v : JSValue) :
  truthy o = true -> jsonPath <> "" ->
  walk (tail (split "." jsonPath)) o = Normal (Some v) ->
  truthy v = true -> timestamp_path jsonPath = true ->
  (forall t, Date_new v = Normal (Some t) -> toLocale t <> "" ->
     extractValue o jsonPath = Normal (VStr (toLocale t)))
  /\ (Date_new v = Normal None ->
      extractValue o jsonPath = Normal (VStr "Invalid Date")).
Proof.
  intros Ht Hne Hwalk Hv Hrule.
  rewrite extractValue_walk, Hwalk, Hv, Hrule by assumption. simpl.
  unfold render_date. split.
  - intros t -> Hs. simpl. destruct (String.eqb_spec (toLocale t) ""); [contradiction|].
    reflexivity.
  - intros ->. reflexivity.
Qed.

End ExtractorTheorems.


(** The date conversion can throw: an object whose own [toString] is not
    callable has no primitive value. *)
Example extractValue_can_throw :
  extractValue (H := Reference.node) report_odd_object ".metadata.creationTimestamp"
  = Throw (TypeError "Cannot convert object to primitive value").
Proof. reflexivity. Qed.


Lemma extractValue_timestamp_witness :
  extractValue (H := Reference.node) report_2024 ".metadata.creationTimestamp"
    = Normal (VStr "1/1/2024, 12:00:00 AM")
  /\ extractValue (H := Reference.node) report_bad_date ".metadata.creationTimestamp"
    = Normal (VStr "Invalid Date").
Proof.
  split.
  - refine (proj1 (extractValue_timestamp (H := Reference.node) report_2024
              ".metadata.creationTimestamp" (VStr "2024-01-01T00:00:00Z")
              eq_refl _ eq_refl eq_refl eq_refl) 1704067200000 eq_refl _);
      vm_compute; discriminate.
  - refine (proj2 (extractValue_timestamp (H := Reference.node) report_bad_date
              ".metadata.creationTimestamp" (VStr "not-a-date")
              eq_refl _ eq_refl eq_refl eq_refl) eq_refl);
      discriminate.
Defined.

(** ** The cache-backed operations *)

Section Operations.
Context `{Engine}.
Variable env : Env.

(** The array case of [JSON_roundtrip], by the images of the elements. *)
Lemma JSON_roundtrip_array key elems :
  JSON_roundtrip key (VArr elems) =
    match JSON_elements 0 elems with
    | Normal images => Normal (Some (VArr images))
    | Throw e => Throw e
    end.
Proof.
  cbn [JSON_roundtrip]. generalize 0%nat as i. intros i.
  match goal with |- cbind (?f i elems) _ = _ =>
    assert (Heq : forall es n, f n es = JSON_elements n es) end.
  { induction es as [|e rest IH]; intros n; [reflexivity|].
    simpl. match goal with |- cbind ?c _ = _ => destruct c as [j|]; [|reflexivity] end.
    cbn [cbind]. rewrite IH. reflexivity. }
  rewrite Heq. destruct (JSON_elements i elems); reflexivity.
Qed.


(** The payload of [loadReports] through JSON: its own keys stay, the
    records become their images. *)
Lemma JSON_roundtrip_ReportsData d :
  JSON_roundtrip "" (ReportsData_to_js d) =
    match JSON_elements 0 (manifests d) with
    | Normal images =>
        Normal (Some (ReportsData_to_js {| manifests := images;
                                           clusterName := clusterName d;
                                           rd_scope := rd_scope d;
                                           error := error d;
                                           resource := resource d |}))
    | Throw e => Throw e
    end.
Proof.
  pose proof (JSON_roundtrip_array "manifests" (manifests d)) as Harr.
  destruct d as [ms c s [e|] [r|]]; cbn [manifests clusterName rd_scope error resource] in *;
    unfold ReportsData_to_js, obj; cbn [manifests clusterName rd_scope error resource opt_field app];
    cbn [JSON_roundtrip toJSON_of own_get String.eqb Ascii.eqb Bool.eqb];
    cbn [JSON_roundtrip] in Harr; rewrite Harr;
    destruct (JSON_elements 0 ms); reflexivity.
Qed.

Lemma JSON_stringify_ReportsData d t :
  JSON_stringify (ReportsData_to_js d) = Normal (Some t) ->
  exists images,
    JSON_elements 0 (manifests d) = Normal images
    /\ t = JsonText (ReportsData_to_js {| manifests := images;
                                          clusterName := clusterName d;
                                          rd_scope := rd_scope d;
                                          error := error d;
                                          resource := resource d |}).
Proof.
  unfold JSON_stringify. rewrite JSON_roundtrip_ReportsData.
  destruct (JSON_elements 0 (manifests d)) as [images|]; [|discriminate].
  intros [= <-]. eauto.
Qed.

Lemma JSON_stringify_error_payload msg crdPlural :
  JSON_stringify (ReportsData_to_js (error_payload msg crdPlural)) =
  Normal (Some (JsonText (ReportsData_to_js (error_payload msg crdPlural)))).
Proof. reflexivity. Qed.

(** A duration the store takes is positive. *)
Lemma SETEX_refusal_positive now ttl : SETEX_refusal now ttl = None -> 0 < ttl.
Proof.
  unfold SETEX_refusal. destruct (_ || _); [discriminate|].
  destruct (Z.leb_spec ttl 0); [discriminate | lia].
Qed.

Lemma redisClient_get_run key w :
  redis_fault env (redis_commands w) = None ->
  redisClient_get env key w = (Normal (live key w), count_command w).
Proof. intros Hok. unfold redisClient_get, redis_command. rewrite Hok. reflexivity. Qed.

Lemma redisClient_get_rejected key w msg :
  redis_fault env (redis_commands w) = Some msg ->
  redisClient_get env key w = (Throw (JSError "Error" msg), count_command w).
Proof. intros Hf. unfold redisClient_get, redis_command. rewrite Hf. reflexivity. Qed.

Lemma makeApiClient_run name w :
  current_cluster_name env = Some name -> makeApiClient env w = (Normal tt, w).
Proof. intros Hc. unfold makeApiClient. rewrite Hc. reflexivity. Qed.

Lemma makeApiClient_throws w :
  current_cluster_name env = None ->
  makeApiClient env w = (Throw (JSError "Error" "No active cluster!"), w).
Proof. intros Hc. unfold makeApiClient. rewrite Hc. reflexivity. Qed.

Lemma cache_put_run key data t ttl w :
  JSON_stringify data = Normal (Some t) ->
  CACHE_DURATION env = Some ttl -> SETEX_refusal (clock w) ttl = None ->
  redis_fault env (redis_commands w) = None ->
  cache_put env key data w =
    (Normal tt,
     set_redis (<[key := {| text := t; expires_at := clock w + ttl |}]> (redis w))
       (count_command w)).
Proof.
  intros Hs Hd Htakes Hok. unfold cache_put, redisClient_setEx, redis_command.
  rewrite Hs, Hd, Hok. cbn [clock count_command]. rewrite Htakes. reflexivity.
Qed.

Lemma cache_put_rejected key data t msg w :
  JSON_stringify data = Normal (Some t) ->
  redis_fault env (redis_commands w) = Some msg ->
  cache_put env key data w = (Throw (JSError "Error" msg), count_command w).
Proof.
  intros Hs Hf. unfold cache_put, redisClient_setEx, redis_command. rewrite Hs, Hf. reflexivity.
Qed.

(** Whatever [cache_put] does, it returns only after storing the text under
    the key, with the configured duration; when it throws the keyspace is
    as before. *)
Lemma cache_put_cases key data c w w' :
  cache_put env key data w = (c, w') ->
  clock w' = clock w /\ api_calls w' = api_calls w /\ console w' = console w
  /\ match c with
     | Normal _ =>
         exists t ttl, JSON_stringify data = Normal (Some t)
           /\ CACHE_DURATION env = Some ttl
           /\ SETEX_refusal (clock w) ttl = None
           /\ redis_fault env (redis_commands w) = None
           /\ redis w' = <[key := {| text := t; expires_at := clock w + ttl |}]> (redis w)
           /\ redis_commands w' = S (redis_commands w)
     | Throw _ => redis w' = redis w
     end.
Proof.
  unfold cache_put, redisClient_setEx, redis_command.
  destruct (JSON_stringify data) as [[t|]|e]; [|intros [= <- <-]; auto..].
  destruct (redis_fault env (redis_commands w)) as [msg|] eqn:Hf; [intros [= <- <-]; auto|].
  destruct (CACHE_DURATION env) as [ttl|]; [|intros [= <- <-]; auto].
  cbn [clock count_command].
  destruct (SETEX_refusal (clock w) ttl) eqn:Htakes; intros [= <- <-]; simpl; repeat split; auto.
  exists t, ttl. auto 10.
Qed.

Lemma cache_put_frame key data c w w' :
  cache_put env key data w = (c, w') ->
  forall k, k <> key -> redis w' !! k = redis w !! k.
Proof.
  intros Hput k Hk. destruct (cache_put_cases _ _ _ _ _ Hput) as (_ & _ & _ & Hcase).
  destruct c.
  - destruct Hcase as (t & ttl & _ & _ & _ & _ & -> & _). apply lookup_insert_ne.
    intros Heq. apply Hk. symmetry. exact Heq.
  - rewrite Hcase. reflexivity.
Qed.


Lemma report_run l prefix err w :
  exists w', report l prefix err w = (Normal tt, w')
    /\ redis w' = redis w /\ clock w' = clock w /\ api_calls w' = api_calls w
    /\ redis_commands w' = redis_commands w
    /\ console w' = (console w ++ match err with
                                  | JSError _ m => [(l, (prefix ++ m)%string)]
                                  | ThrownValue => []
                                  end)%list.
Proof.
  destruct err; simpl; eexists; split; try reflexivity; simpl; rewrite ?app_nil_r; auto.
Qed.

(** The listing step never throws and leaves the keyspace alone. *)
Lemma list_instances_run crdPlural scope w :
  exists items w', list_instances env crdPlural scope w = (Normal items, w')
    /\ redis w' = redis w /\ clock w' = clock w
    /\ redis_commands w' = redis_commands w.
Proof.
  unfold list_instances.
  destruct (String.eqb scope "Namespaced"); unfold try_catch, bind, api, ret;
    [destruct (instances_all_namespaces (cluster env) crdPlural) as [msg|r]
    |destruct (instances_cluster (cluster env) crdPlural) as [msg|r]];
    simpl; eauto 10.
Qed.

(** A rejected listing: a warning, and no instance. *)
Lemma list_instances_rejected crdPlural scope msg w :
  (if String.eqb scope "Namespaced"
   then instances_all_namespaces (cluster env) crdPlural
   else instances_cluster (cluster env) crdPlural) = inl msg ->
  exists w', list_instances env crdPlural scope w = (Normal [], w')
    /\ redis w' = redis w /\ clock w' = clock w
    /\ redis_commands w' = redis_commands w
    /\ console w' =
       (console w ++
        [(Warn, (((if String.eqb scope "Namespaced"
                   then "Warning: Could not list namespaced instances of "
                   else "Warning: Could not list cluster instances of ")
                  ++ crdPlural ++ ": ") ++ msg)%string)])%list.
Proof.
  unfold list_instances.
  destruct (String.eqb scope "Namespaced"); intros ->;
    unfold try_catch, bind, api, ret; simpl; eexists; split; try reflexivity; simpl;
    repeat split.
Qed.

(** The listing step in full: the instances it yields, the one call it
    records. *)
Lemma list_instances_full crdPlural scope w :
  exists w',
    list_instances env crdPlural scope w = (Normal (listed_instances env crdPlural scope), w')
    /\ redis w' = redis w /\ clock w' = clock w
    /\ redis_commands w' = redis_commands w
    /\ api_calls w' = (api_calls w ++ [listing_call crdPlural scope])%list.
Proof.
  unfold list_instances, listed_instances, listing_call.
  destruct (String.eqb scope "Namespaced"); unfold try_catch, bind, api, ret;
    [destruct (instances_all_namespaces (cluster env) crdPlural) as [msg|[l|]]
    |destruct (instances_cluster (cluster env) crdPlural) as [msg|[l|]]];
    simpl; eexists; repeat split.
Qed.

End Operations.

Section LoadReports.
Context `{Engine}.
Variable env : Env.

Lemma reports_key_inj p q : reports_key p = reports_key q -> p = q.
Proof. unfold reports_key. intros Heq. cbv in Heq. congruence. Qed.

Lemma reports_key_not_crds_key p : reports_key p <> crds_key.
Proof. unfold reports_key, crds_key. intros Heq. cbv in Heq. discriminate Heq. Qed.

Lemma fetch_fails_throws crdPlural w e w' :
  fetch_fails env crdPlural w e w' -> fetch_reports env crdPlural w = (Throw e, w').
Proof.
  intros [msg Hr|Hr|spec Hr Hv|e' w'' Hf]; [| | |exact Hf];
    unfold fetch_reports, bind, api, throw; rewrite Hr; cbv beta iota; [reflexivity..|].
  rewrite Hv. reflexivity.
Qed.

Lemma columns_for_eq version :
  (if (List.length (getColumnDefinitions (Some version)) =? 0)%nat
   then default_columns else getColumnDefinitions (Some version))
  = columns_for version.
Proof. unfold columns_for. destruct (getColumnDefinitions (Some version)); reflexivity. Qed.

(** The [try] block when the schema resolves, up to the projection of the
    records and the write to the cache. *)
Lemma fetch_reports_resolved crdPlural w spec version :
  crd_by_name (cluster env) (crdPlural ++ ".aquasecurity.github.io") = inr (Some spec) ->
  find_version (spec_versions spec) = Some version ->
  exists w1,
    fetch_reports env crdPlural w =
      match map_completion (project (columns_for version))
              (listed_instances env crdPlural (or_else (spec_scope spec) "Cluster")) with
      | Normal ms =>
          match cache_put env (reports_key crdPlural)
                  (ReportsData_to_js (fetched env crdPlural spec ms)) w1 with
          | (Normal _, w2) => (Normal (ReportsData_to_js (fetched env crdPlural spec ms)), w2)
          | (Throw e, w2) => (Throw e, w2)
          end
      | Throw e => (Throw e, w1)
      end
    /\ redis w1 = redis w /\ clock w1 = clock w
    /\ redis_commands w1 = redis_commands w
    /\ api_calls w1 =
       (api_calls w ++ [lookup_call crdPlural;
                        listing_call crdPlural (or_else (spec_scope spec) "Cluster")])%list.
Proof.
  intros Hcrd Hv. unfold fetch_reports, bind, api. rewrite Hcrd. cbv beta iota.
  rewrite Hv, columns_for_eq.
  match goal with |- context [list_instances env ?p ?s ?w0] =>
    destruct (list_instances_full env p s w0) as (w1 & -> & Hr1 & Hc1 & Hn1 & Ha1) end.
  unfold lift. exists w1. split; [|repeat split; auto].
  - destruct (map_completion _ _); reflexivity.
  - rewrite Ha1. simpl. rewrite <- app_assoc. reflexivity.
Qed.

(** A [try] block that returns has resolved the schema, and has stored what
    it returns under the key of the plural, for the configured duration. *)
Lemma fetch_reports_normal crdPlural w data w' :
  fetch_reports env crdPlural w = (Normal data, w') ->
  exists spec version ms t ttl,
    crd_by_name (cluster env) (crdPlural ++ ".aquasecurity.github.io") = inr (Some spec)
    /\ find_version (spec_versions spec) = Some version
    /\ data = ReportsData_to_js (fetched env crdPlural spec ms)
    /\ JSON_stringify data = Normal (Some t)
    /\ CACHE_DURATION env = Some ttl /\ SETEX_refusal (clock w) ttl = None
    /\ redis w' = <[reports_key crdPlural := {| text := t; expires_at := clock w + ttl |}]> (redis w)
    /\ clock w' = clock w.
Proof.
  unfold fetch_reports, bind, api, throw.
  destruct (crd_by_name _ _) as [msg|[spec|]] eqn:Hcrd; cbv beta iota; try discriminate.
  destruct (find_version _) as [version|] eqn:Hv; try discriminate.
  match goal with |- context [list_instances env ?p ?s ?w0] =>
    destruct (list_instances_run env p s w0) as (items & w1 & -> & Hr1 & Hc1 & Hn1) end.
  unfold lift.
  destruct (map_completion _ items) as [ms|e]; try discriminate.
  match goal with |- context [cache_put env ?k ?d ?w0] =>
    destruct (cache_put env k d w0) as [c w2] eqn:Hput end.
  destruct (cache_put_cases env _ _ _ _ _ Hput) as (Hc2 & _ & _ & Hcase).
  destruct c as [[]|e]; [|discriminate]. unfold ret. intros [= <- <-].
  destruct Hcase as (t & ttl & Hs & Hd & Htakes & _ & Hredis & _).
  simpl in Hc1, Hr1. rewrite Hc1 in Htakes, Hredis.
  exists spec, version, ms, t, ttl. rewrite Hredis, Hr1, Hc2, Hc1. auto 10.
Qed.

(** A [try] block that throws has left the keyspace as it was. *)
Lemma fetch_reports_throws crdPlural w e w' :
  fetch_reports env crdPlural w = (Throw e, w') ->
  redis w' = redis w /\ clock w' = clock w.
Proof.
  unfold fetch_reports, bind, api, throw.
  destruct (crd_by_name _ _) as [msg|[spec|]] eqn:Hcrd; cbv beta iota;
    try (intros [= <- <-]; auto).
  destruct (find_version _) as [version|] eqn:Hv; try (intros [= <- <-]; auto).
  match goal with |- context [list_instances env ?p ?s ?w0] =>
    destruct (list_instances_run env p s w0) as (items & w1 & -> & Hr1 & Hc1 & Hn1) end.
  unfold lift.
  destruct (map_completion _ items) as [ms|e0]; [|intros [= <- <-]; auto].
  match goal with |- context [cache_put env ?k ?d ?w0] =>
    destruct (cache_put env k d w0) as [c w2] eqn:Hput end.
  destruct (cache_put_cases env _ _ _ _ _ Hput) as (Hc2 & _ & _ & Hcase).
  destruct c as [[]|e0]; [discriminate|]. intros [= <- <-].
  rewrite Hcase, Hc2. auto.
Qed.

(** The [try] block, however it ends: the calls it has recorded, and the
    keys it has left alone. *)
Lemma fetch_reports_frame crdPlural c w w' :
  fetch_reports env crdPlural w = (c, w') ->
  api_calls w' = (api_calls w ++ expected_calls env crdPlural)%list
  /\ clock w' = clock w
  /\ (forall k, k <> reports_key crdPlural -> redis w' !! k = redis w !! k).
Proof.
  unfold expected_calls.
  destruct (crd_by_name (cluster env) (crdPlural ++ ".aquasecurity.github.io"))
    as [msg|[spec|]] eqn:Hcrd.
  1,3: unfold fetch_reports, bind, api, throw; rewrite Hcrd; cbv beta iota;
       intros [= <- <-]; auto.
  destruct (find_version (spec_versions spec)) as [version|] eqn:Hv.
  2: { unfold fetch_reports, bind, api, throw. rewrite Hcrd. cbv beta iota. rewrite Hv.
       intros [= <- <-]. auto. }
  destruct (fetch_reports_resolved crdPlural w spec version Hcrd Hv)
    as (w1 & -> & Hr1 & Hc1 & _ & Ha1).
  destruct (map_completion _ _) as [ms|e0].
  - match goal with |- context [cache_put env ?k ?d ?w0] =>
      destruct (cache_put env k d w0) as [c0 w2] eqn:Hput end.
    destruct (cache_put_cases env _ _ _ _ _ Hput) as (Hc2 & Ha2 & _ & _).
    pose proof (cache_put_frame env _ _ _ _ _ Hput) as Hframe.
    destruct c0 as [[]|e0]; intros [= <- <-];
      (split; [congruence|]; split; [congruence|];
       intros k Hk; rewrite (Hframe k Hk), Hr1; reflexivity).
  - intros [= <- <-]. split; [exact Ha1|]. split; [exact Hc1|].
    intros k _. rewrite Hr1. reflexivity.
Qed.

(** The [catch] block, when the store takes the write. *)
Lemma fail_reports_run crdPlural err w ttl :
  CACHE_DURATION env = Some ttl -> SETEX_refusal (clock w) ttl = None ->
  redis_fault env (redis_commands w) = None ->
  exists w',
    fail_reports env crdPlural err w
      = (Normal (ReportsData_to_js (error_payload (message_of err) crdPlural)), w')
    /\ redis w' =
       <[reports_key crdPlural :=
           {| text := JsonText (ReportsData_to_js (error_payload (message_of err) crdPlural));
              expires_at := clock w + ttl |}]> (redis w)
    /\ clock w' = clock w /\ api_calls w' = api_calls w
    /\ redis_commands w' = S (redis_commands w)
    /\ console w' = (console w ++ match err with
                                  | JSError _ m =>
                                      [(Error, (("Critical error fetching " ++ crdPlural
                                                 ++ ": ") ++ m)%string)]
                                  | ThrownValue => []
                                  end)%list.
Proof.
  intros Hd Htakes Hok. unfold fail_reports, bind.
  destruct (report_run Error ("Critical error fetching " ++ crdPlural ++ ": ") err w)
    as (w1 & -> & Hr1 & Hc1 & Ha1 & Hn1 & Hl1).
  rewrite (cache_put_run env _ _ _ ttl w1 (JSON_stringify_error_payload _ _) Hd)
    by (rewrite ?Hc1, ?Hn1; assumption).
  eexists; split; [reflexivity|]. simpl. rewrite Hr1, Hc1, Ha1, Hn1, Hl1.
  repeat split.
Qed.

(** The [catch] block returns only the error payload, and only after
    storing it. *)
Lemma fail_reports_normal crdPlural err w r w' :
  fail_reports env crdPlural err w = (Normal r, w') ->
  r = ReportsData_to_js (error_payload (message_of err) crdPlural)
  /\ exists ttl, CACHE_DURATION env = Some ttl /\ SETEX_refusal (clock w) ttl = None
     /\ redis w' = <[reports_key crdPlural :=
                       {| text := JsonText r; expires_at := clock w + ttl |}]> (redis w)
     /\ clock w' = clock w.
Proof.
  unfold fail_reports, bind.
  destruct (report_run Error ("Critical error fetching " ++ crdPlural ++ ": ") err w)
    as (w1 & -> & Hr1 & Hc1 & Ha1 & Hn1 & _).
  match goal with |- context [cache_put env ?k ?d ?w0] =>
    destruct (cache_put env k d w0) as [c w2] eqn:Hput end.
  destruct (cache_put_cases env _ _ _ _ _ Hput) as (Hc2 & _ & _ & Hcase).
  destruct c as [[]|e0]; [|discriminate]. unfold ret. intros [= <- <-].
  split; [reflexivity|].
  destruct Hcase as (t & ttl & Hs & Hd & Htakes & _ & Hredis & _).
  rewrite JSON_stringify_error_payload in Hs. injection Hs as <-.
  exists ttl. rewrite Hredis, Hr1, Hc2, Hc1. rewrite Hc1 in Htakes. auto.
Qed.

(** The [catch] block, however it ends: it calls no cluster API and leaves
    the other keys alone. *)
Lemma fail_reports_frame crdPlural err c w w' :
  fail_reports env crdPlural err w = (c, w') ->
  api_calls w' = api_calls w /\ clock w' = clock w
  /\ (forall k, k <> reports_key crdPlural -> redis w' !! k = redis w !! k)
  /\ (forall e, c = Throw e -> redis w' = redis w).
Proof.
  unfold fail_reports, bind.
  destruct (report_run Error ("Critical error fetching " ++ crdPlural ++ ": ") err w)
    as (w1 & -> & Hr1 & Hc1 & Ha1 & _).
  match goal with |- context [cache_put env ?k ?d ?w0] =>
    destruct (cache_put env k d w0) as [c0 w2] eqn:Hput end.
  destruct (cache_put_cases env _ _ _ _ _ Hput) as (Hc2 & Ha2 & _ & Hcase).
  pose proof (cache_put_frame env _ _ _ _ _ Hput) as Hframe.
  assert (Hend : api_calls w2 = api_calls w /\ clock w2 = clock w
                 /\ forall k, k <> reports_key crdPlural -> redis w2 !! k = redis w !! k).
  { split; [congruence|]. split; [congruence|].
    intros k Hk. rewrite (Hframe k Hk), Hr1. reflexivity. }
  destruct Hend as (Ha & Hc & Hk).
  destruct c0 as [[]|e0]; unfold ret; intros [= <- <-]; repeat split; auto.
  - intros e He. discriminate He.
  - intros e _. congruence.
Qed.

Lemma loadReports_unfold crdPlural w :
  loadReports env crdPlural w =
    match redis_fault env (redis_commands w) with
    | Some msg => (Throw (JSError "Error" msg), count_command w)
    | None =>
        match hit (reports_key crdPlural) w with
        | Some t => (JSON_parse t, count_command w)
        | None =>
            match current_cluster_name env with
            | Some _ => try_catch (fetch_reports env crdPlural) (fail_reports env crdPlural)
                          (count_command w)
            | None => (Throw (JSError "Error" "No active cluster!"), count_command w)
            end
        end
    end.
Proof.
  unfold loadReports, bind.
  destruct (redis_fault env (redis_commands w)) as [msg|] eqn:Hf.
  - rewrite (redisClient_get_rejected env _ _ _ Hf). reflexivity.
  - rewrite (redisClient_get_run env _ _ Hf). unfold hit, makeApiClient, lift.
    destruct (live (reports_key crdPlural) w) as [t|].
    + destruct (text_truthy t); [destruct (JSON_parse t); reflexivity|].
      destruct (current_cluster_name env); reflexivity.
    + destruct (current_cluster_name env); reflexivity.
Qed.

Lemma loadReports_hit crdPlural w t :
  redis_fault env (redis_commands w) = None ->
  hit (reports_key crdPlural) w = Some t ->
  loadReports env crdPlural w = (JSON_parse t, count_command w).
Proof. intros Hok Hhit. rewrite loadReports_unfold, Hok, Hhit. reflexivity. Qed.

Lemma loadReports_miss crdPlural w name :
  current_cluster_name env = Some name ->
  redis_fault env (redis_commands w) = None ->
  hit (reports_key crdPlural) w = None ->
  loadReports env crdPlural w =
    try_catch (fetch_reports env crdPlural) (fail_reports env crdPlural) (count_command w).
Proof. intros Hc Hok Hmiss. rewrite loadReports_unfold, Hok, Hmiss, Hc. reflexivity. Qed.

(** A call of [loadReports], however it ends: the calls it has recorded,
    and the keys it has left alone. *)
Lemma loadReports_frame crdPlural c w w' :
  loadReports env crdPlural w = (c, w') ->
  api_calls w' =
    (api_calls w ++
     match redis_fault env (redis_commands w), hit (reports_key crdPlural) w,
           current_cluster_name env with
     | None, None, Some _ => expected_calls env crdPlural
     | _, _, _ => []
     end)%list
  /\ clock w' = clock w
  /\ (forall k, k <> reports_key crdPlural -> redis w' !! k = redis w !! k).
Proof.
  rewrite loadReports_unfold.
  destruct (redis_fault env (redis_commands w));
    [intros [= <- <-]; simpl; rewrite app_nil_r; auto|].
  destruct (hit (reports_key crdPlural) w);
    [intros [= <- <-]; simpl; rewrite app_nil_r; auto|].
  destruct (current_cluster_name env);
    [|intros [= <- <-]; simpl; rewrite app_nil_r; auto].
  unfold try_catch.
  destruct (fetch_reports env crdPlural (count_command w)) as [[data|e] w1] eqn:Hfetch;
    destruct (fetch_reports_frame _ _ _ _ Hfetch) as (Ha & Hc & Hr);
    change (api_calls (count_command w)) with (api_calls w) in Ha;
    change (clock (count_command w)) with (clock w) in Hc;
    change (redis (count_command w)) with (redis w) in Hr.
  - intros [= <- <-]. auto.
  - intros Hfail. destruct (fail_reports_frame _ _ _ _ _ Hfail) as (Ha' & Hc' & Hr' & _).
    split; [congruence|]. split; [congruence|].
    intros k Hk. rewrite (Hr' k Hk). apply Hr, Hk.
Qed.

(** The branch of [loadReports] that fetches, when the schema resolves. *)
Lemma loadReports_resolved crdPlural w name spec version :
  current_cluster_name env = Some name ->
  redis_fault env (redis_commands w) = None ->
  hit (reports_key crdPlural) w = None ->
  crd_by_name (cluster env) (crdPlural ++ ".aquasecurity.github.io") = inr (Some spec) ->
  find_version (spec_versions spec) = Some version ->
  exists w1,
    loadReports env crdPlural w =
      match map_completion (project (columns_for version))
              (listed_instances env crdPlural (or_else (spec_scope spec) "Cluster")) with
      | Normal ms =>
          match cache_put env (reports_key crdPlural)
                  (ReportsData_to_js (fetched env crdPlural spec ms)) w1 with
          | (Normal _, w2) => (Normal (ReportsData_to_js (fetched env crdPlural spec ms)), w2)
          | (Throw e, w2) => fail_reports env crdPlural e w2
          end
      | Throw e => fail_reports env crdPlural e w1
      end
    /\ redis w1 = redis w /\ clock w1 = clock w
    /\ redis_commands w1 = S (redis_commands w).
Proof.
  intros Hname Hget Hmiss Hcrd Hv. rewrite (loadReports_miss _ _ name) by assumption.
  unfold try_catch.
  destruct (fetch_reports_resolved crdPlural (count_command w) spec version Hcrd Hv)
    as (w1 & -> & Hr1 & Hc1 & Hn1 & _).
  exists w1. split; [|auto].
  destruct (map_completion _ _) as [ms|e]; [|reflexivity].
  destruct (cache_put _ _ _ w1) as [[[]|e] w2]; reflexivity.
Qed.

(** The life of an entry just written. *)
Lemma live_insert key t (ttl dt : Z) w w0 :
  redis w = <[key := {| text := t; expires_at := clock w0 + ttl |}]> (redis w0) ->
  clock w = clock w0 ->
  live key (elapse dt w) = if dt <? ttl then Some t else None.
Proof.
  intros Hr Hc. unfold live. simpl. rewrite Hr, lookup_insert_eq, Hc. simpl.
  destruct (Z.ltb_spec (clock w0 + dt) (clock w0 + ttl)), (Z.ltb_spec dt ttl);
    try reflexivity; lia.
Qed.

Lemma hit_insert key v (ttl dt : Z) (w w0 : World) :
  redis w = <[key := {| text := JsonText v; expires_at := clock w0 + ttl |}]> (redis w0) ->
  clock w = clock w0 ->
  hit key (elapse dt w) = if dt <? ttl then Some (JsonText v) else None.
Proof.
  intros Hr Hc. unfold hit. rewrite (live_insert key (JsonText v) ttl dt w w0 Hr Hc).
  destruct (dt <? ttl); reflexivity.
Qed.

(** Time does not bring an entry back. *)
Lemma miss_persists key (w w' : World) (dt : Z) :
  hit key w = None -> redis w' = redis w -> clock w' = clock w -> 0 <= dt ->
  hit key (elapse dt w') = None.
Proof.
  intros Hmiss Hr Hc Hdt. revert Hmiss. unfold hit, live. simpl. rewrite Hr, Hc.
  destruct (redis w !! key) as [en|]; [|reflexivity].
  destruct (Z.ltb_spec (clock w) (expires_at en)), (Z.ltb_spec (clock w + dt) (expires_at en));
    simpl; auto; lia.
Qed.

Lemma hit_lookup key w t :
  hit key w = Some t -> exists e, redis w !! key = Some e /\ text e = t.
Proof.
  unfold hit, live. destruct (redis w !! key) as [e|]; [|discriminate].
  destruct (clock w <? expires_at e); [|discriminate].
  destruct (text_truthy (text e)); [|discriminate]. intros [= <-]. eauto.
Qed.

(** The failure path of a call that finds nothing in the cache: what is
    returned, what is stored, what is logged. *)
Lemma loadReports_fails_run crdPlural w name ttl e w1 :
  current_cluster_name env = Some name ->
  CACHE_DURATION env = Some ttl -> SETEX_refusal (clock w) ttl = None ->
  redis_fault env (redis_commands w) = None ->
  hit (reports_key crdPlural) w = None ->
  fetch_reports env crdPlural (count_command w) = (Throw e, w1) ->
  redis_fault env (redis_commands w1) = None ->
  exists w',
    loadReports env crdPlural w
      = (Normal (ReportsData_to_js (error_payload (message_of e) crdPlural)), w')
    /\ redis w' =
       <[reports_key crdPlural :=
           {| text := JsonText (ReportsData_to_js (error_payload (message_of e) crdPlural));
              expires_at := clock w + ttl |}]> (redis w)
    /\ clock w' = clock w
    /\ api_calls w' = api_calls w1.
Proof.
  intros Hname Hd Htakes Hget Hmiss Hthrow Hset.
  rewrite (loadReports_miss _ _ name) by assumption. unfold try_catch. rewrite Hthrow.
  destruct (fetch_reports_throws _ _ _ _ Hthrow) as [Hr Hc]. simpl in Hr, Hc.
  destruct (fail_reports_run crdPlural e w1 ttl Hd) as (w' & -> & Hr' & Hc' & Ha' & _);
    [rewrite Hc; exact Htakes | exact Hset |].
  exists w'. split; [reflexivity|]. rewrite Hr', Hr, Hc', Hc. auto.
Qed.

(** C1, as amended.  When the kubeconfig has a current cluster, the cache
    has nothing for the plural and the [try] block fails (the lookup of the
    CRD is rejected, its [spec] is missing, the [v1alpha1] version is
    absent, or anything else is thrown in it), [loadReports] returns
    exactly the error payload, with the message of the failure and the
    plural, and has stored that payload under ["reports:<plural>"] for the
    configured duration, provided the store takes the read and that write.
    A fetch that goes through stores its result for the same duration. *)
Theorem loadReports_failure_cached (crdPlural : string) (w : World) (name : string)
    (ttl : Z) (e : Exn) (w' : World) :
  current_cluster_name env = Some name ->
  CACHE_DURATION env = Some ttl -> SETEX_refusal (clock w) ttl = None ->
  redis_fault env (redis_commands w) = None ->
  hit (reports_key crdPlural) w = None ->
  fetch_fails env crdPlural (count_command w) e w' ->
  redis_fault env (redis_commands w') = None ->
  let payload :=
    obj [ ("manifests", VArr []);
          ("clusterName", VStr "Unknown Cluster");
          ("scope", VStr "Unknown");
          ("error", VStr match e with
                         | JSError _ message => message
                         | ThrownValue => "Unknown error"
                         end);
          ("resource", VStr crdPlural) ] in
  (exists w'',
     loadReports env crdPlural w = (Normal payload, w'')
     /\ redis w'' =
        <["reports:" ++ crdPlural :=
            {| text := JsonText payload; expires_at := clock w + ttl |}]> (redis w)
     /\ live ("reports:" ++ crdPlural) w'' = Some (JsonText payload))
  /\ (forall w0 data w1,
        fetch_reports env crdPlural w0 = (Normal data, w1) ->
        exists t, redis w1 =
                  <["reports:" ++ crdPlural :=
                      {| text := t; expires_at := clock w0 + ttl |}]> (redis w0)).
Proof.
  intros Hname Hd Htakes Hget Hmiss Hfail Hset payload. split.
  - pose proof (fetch_fails_throws _ _ _ _ Hfail) as Hthrow.
    destruct (loadReports_fails_run crdPlural w name ttl e w' Hname Hd Htakes Hget Hmiss
                Hthrow Hset) as (w'' & -> & Hr & Hc & _).
    exists w''. split; [destruct e; reflexivity|].
    assert (Hpay : ReportsData_to_js (error_payload (message_of e) crdPlural) = payload)
      by (destruct e; reflexivity).
    rewrite Hpay in Hr. split; [exact Hr|].
    unfold live. rewrite Hr, Hc. unfold reports_key. rewrite lookup_insert_eq. simpl.
    pose proof (SETEX_refusal_positive _ _ Htakes).
    destruct (Z.ltb_spec (clock w) (clock w + ttl)); [reflexivity | lia].
  - intros w0 data w1 Hfetch.
    destruct (fetch_reports_normal _ _ _ _ Hfetch)
      as (spec & version & ms & t & ttl' & _ & _ & _ & _ & Hd' & _ & Hredis & _).
    exists t. rewrite Hredis. unfold reports_key. congruence.
Qed.

(** C6, as amended.  When the kubeconfig has a current cluster, the cache
    has nothing for the plural, the schema resolves and the listing call is
    rejected, [loadReports] warns on the console and, provided the store
    takes the read and the write of the result, returns the report with no
    manifest, no [error] field and the scope of the CRD (["Cluster"] when
    the CRD states none), and stores it. *)
Theorem loadReports_listing_rejected (crdPlural : string) (w : World) (name : string)
    (ttl : Z) (spec : CRDSpec) (version : CRDVersion) (msg : string) :
  current_cluster_name env = Some name ->
  CACHE_DURATION env = Some ttl -> SETEX_refusal (clock w) ttl = None ->
  redis_fault env (redis_commands w) = None ->
  redis_fault env (S (redis_commands w)) = None ->
  hit (reports_key crdPlural) w = None ->
  crd_by_name (cluster env) (crdPlural ++ ".aquasecurity.github.io") = inr (Some spec) ->
  find_version (spec_versions spec) = Some version ->
  (if String.eqb (or_else (spec_scope spec) "Cluster") "Namespaced"
   then instances_all_namespaces (cluster env) crdPlural
   else instances_cluster (cluster env) crdPlural) = inl msg ->
  let data := obj [ ("manifests", VArr []);
                    ("clusterName", VStr (if String.eqb name "" then "Unknown Cluster"
                                          else name));
                    ("scope", VStr (match spec_scope spec with
                                    | Some s => if String.eqb s "" then "Cluster" else s
                                    | None => "Cluster"
                                    end));
                    ("resource", VStr crdPlural) ] in
  exists w',
    loadReports env crdPlural w = (Normal data, w')
    /\ console w' =
       (console w ++
        [(Warn, (((if String.eqb (or_else (spec_scope spec) "Cluster") "Namespaced"
                   then "Warning: Could not list namespaced instances of "
                   else "Warning: Could not list cluster instances of ")
                  ++ crdPlural ++ ": ") ++ msg)%string)])%list
    /\ live ("reports:" ++ crdPlural) w' = Some (JsonText data).
Proof.
  intros Hname Hd Htakes Hget Hset Hmiss Hcrd Hv Hlist data.
  rewrite (loadReports_miss _ _ name) by assumption.
  unfold try_catch, fetch_reports, bind, api. rewrite Hcrd. cbv beta iota. rewrite Hv.
  match goal with |- context [list_instances env ?p ?s ?w0] =>
    destruct (list_instances_rejected env p s msg w0 Hlist)
      as (w1 & -> & Hr1 & Hc1 & Hn1 & Hlog) end.
  unfold lift. cbn [map_completion].
  assert (Hdata : ReportsData_to_js
                    {| manifests := []; clusterName := the_clusterName env;
                       rd_scope := or_else (spec_scope spec) "Cluster";
                       error := None; resource := Some crdPlural |} = data).
  { unfold data, the_clusterName. rewrite Hname. reflexivity. }
  rewrite Hdata.
  match goal with |- context [cache_put env ?k ?d ?w0] =>
    rewrite (cache_put_run env k d (JsonText data) ttl w0 eq_refl Hd)
      by (rewrite ?Hc1, ?Hn1; assumption) end.
  eexists. split; [reflexivity|]. split.
  - simpl. rewrite Hlog. reflexivity.
  - unfold live. simpl. unfold reports_key. rewrite lookup_insert_eq. simpl.
    pose proof (SETEX_refusal_positive _ _ Htakes).
    destruct (Z.ltb_spec (clock w1) (clock w1 + ttl)); [reflexivity | lia].
Qed.

(** A call that finds nothing in the cache returns, and has stored what it
    returns (through JSON) under the key of the plural, to expire the
    configured duration later: after a fetch that went through as after one
    that failed. *)
Lemma loadReports_miss_stores (crdPlural : string) (w : World) (name : string) (ttl : Z) :
  current_cluster_name env = Some name ->
  no_faults env -> CACHE_DURATION env = Some ttl -> SETEX_refusal (clock w) ttl = None ->
  hit (reports_key crdPlural) w = None ->
  exists r w' cached,
    loadReports env crdPlural w = (Normal r, w')
    /\ JSON_roundtrip "" r = Normal (Some cached)
    /\ redis w' = <[reports_key crdPlural :=
                      {| text := JsonText cached; expires_at := clock w + ttl |}]> (redis w)
    /\ clock w' = clock w.
Proof.
  intros Hname Hok Hd Htakes Hmiss.
  destruct (fetch_reports env crdPlural (count_command w)) as [[data|e] w1] eqn:Hfetch.
  - rewrite (loadReports_miss _ _ name) by (auto using Hok). unfold try_catch. rewrite Hfetch.
    destruct (fetch_reports_normal _ _ _ _ Hfetch)
      as (spec & version & ms & t & ttl' & _ & _ & _ & Hs & Hd' & _ & Hredis & Hc).
    assert (ttl' = ttl) as -> by congruence.
    unfold JSON_stringify in Hs.
    destruct (JSON_roundtrip "" data) as [[cached|]|] eqn:Hj; try discriminate.
    injection Hs as <-. exists data, w1, cached. auto.
  - destruct (loadReports_fails_run crdPlural w name ttl e w1 Hname Hd Htakes (Hok _) Hmiss
                Hfetch (Hok _)) as (w' & -> & Hr & Hc & _).
    eexists _, w', _. split; [reflexivity|]. split; [reflexivity|]. auto.
Qed.

(** The second of two calls, Redis-backed: less than the configured
    duration after a call that found nothing in the cache, [loadReports]
    returns what that call stored, calls no cluster API and leaves the
    keyspace as it is. *)
Lemma loadReports_second_call (crdPlural : string) (w : World) (name : string)
    (ttl dt : Z) :
  current_cluster_name env = Some name ->
  no_faults env -> CACHE_DURATION env = Some ttl -> SETEX_refusal (clock w) ttl = None ->
  hit (reports_key crdPlural) w = None ->
  0 <= dt < ttl ->
  exists r1 w1 cached w2,
    loadReports env crdPlural w = (Normal r1, w1)
    /\ JSON_roundtrip "" r1 = Normal (Some cached)
    /\ loadReports env crdPlural (elapse dt w1) = (Normal cached, w2)
    /\ api_calls w2 = api_calls w1
    /\ redis w2 = redis w1.
Proof.
  intros Hname Hok Hd Htakes Hmiss Hdt.
  destruct (loadReports_miss_stores crdPlural w name ttl Hname Hok Hd Htakes Hmiss)
    as (r1 & w1 & cached & Hfirst & Hj & Hredis & Hc).
  exists r1, w1, cached, (count_command (elapse dt w1)).
  split; [exact Hfirst|]. split; [exact Hj|]. split; [|split; reflexivity].
  rewrite (loadReports_hit crdPlural (elapse dt w1) (JsonText cached)); [reflexivity|apply Hok|].
  rewrite (hit_insert _ cached ttl dt w1 w Hredis Hc).
  destruct (Z.ltb_spec dt ttl); [reflexivity | lia].
Qed.

Lemma scope_invariant_fetched crdPlural spec ms :
  spec_scope spec = None \/ spec_scope spec = Some "Cluster"
  \/ spec_scope spec = Some "Namespaced" ->
  scope_invariant (ReportsData_to_js (fetched env crdPlural spec ms)).
Proof.
  intros Hs. exists (or_else (spec_scope spec) "Cluster"). split; [reflexivity|].
  destruct Hs as [-> | [-> | ->]]; simpl; split; auto; discriminate.
Qed.

Lemma scope_invariant_error msg crdPlural :
  scope_invariant (ReportsData_to_js (error_payload msg crdPlural)).
Proof. exists "Unknown". simpl. eauto 6. Qed.

Lemma cache_sound_insert w w' crdPlural v ttl :
  cache_sound w -> scope_invariant v ->
  redis w' = <[reports_key crdPlural := {| text := JsonText v; expires_at := ttl |}]> (redis w) ->
  cache_sound w'.
Proof.
  intros Hsound Hv Hredis q e. rewrite Hredis.
  destruct (decide (reports_key crdPlural = reports_key q)) as [<-|Hne].
  - rewrite lookup_insert_eq. intros [= <-]. eauto.
  - rewrite lookup_insert_ne by assumption. apply Hsound.
Qed.

(** C8.  On a cluster that states scopes as the API defines them, and a
    keyspace whose report payloads satisfy the invariant, every value
    [loadReports] returns has a [scope] among ["Cluster"], ["Namespaced"]
    and ["Unknown"], with an [error] whenever it is ["Unknown"]; and the
    keyspace it leaves satisfies the invariant again. *)
Theorem loadReports_scope (crdPlural : string) (w : World) (r : JSValue) (w' : World) :
  scopes_valid env -> cache_sound w ->
  loadReports env crdPlural w = (Normal r, w') ->
  scope_invariant r /\ cache_sound w'.
Proof.
  intros Hvalid Hsound. rewrite loadReports_unfold.
  destruct (redis_fault env (redis_commands w)); [discriminate|].
  destruct (hit (reports_key crdPlural) w) as [t|] eqn:Hhit.
  - intros [= Hparse <-]. destruct (hit_lookup _ _ _ Hhit) as (e & He & <-).
    destruct (Hsound _ _ He) as (v & Hv & Hinv). rewrite Hv in Hparse.
    injection Hparse as <-. split; [exact Hinv | exact Hsound].
  - destruct (current_cluster_name env); [|discriminate]. unfold try_catch.
    destruct (fetch_reports env crdPlural (count_command w)) as [[data|e] w1] eqn:Hfetch.
    + intros [= <- <-].
      destruct (fetch_reports_normal _ _ _ _ Hfetch)
        as (spec & version & ms & t & ttl & Hcrd & _ & -> & Hs & _ & _ & Hredis & _).
      pose proof (Hvalid _ _ Hcrd) as Hscope. split.
      * apply scope_invariant_fetched, Hscope.
      * destruct (JSON_stringify_ReportsData _ _ Hs) as (images & _ & ->).
        eapply (cache_sound_insert (count_command w)); [exact Hsound| |exact Hredis].
        apply (scope_invariant_fetched crdPlural spec images), Hscope.
    + intros Hfail. destruct (fetch_reports_throws _ _ _ _ Hfetch) as [Hr _].
      destruct (fail_reports_normal _ _ _ _ _ Hfail) as (-> & ttl & _ & _ & Hredis & _).
      split; [apply scope_invariant_error|].
      eapply (cache_sound_insert w1); [|apply scope_invariant_error|exact Hredis].
      intros q e0. rewrite Hr. apply Hsound.
Qed.

End LoadReports.

Section Discovery.
Context `{Engine}.
Variable env : Env.

Lemma listAllAquaSecurityCRDs_unfold w :
  listAllAquaSecurityCRDs env w =
    match redis_fault env (redis_commands w) with
    | Some msg => (Throw (JSError "Error" msg), count_command w)
    | None =>
        match hit crds_key w with
        | Some t => (JSON_parse t, count_command w)
        | None => try_catch (fetch_crds env) fail_crds (count_command w)
        end
    end.
Proof.
  unfold listAllAquaSecurityCRDs, bind.
  destruct (redis_fault env (redis_commands w)) as [msg|] eqn:Hf.
  - rewrite (redisClient_get_rejected env _ _ _ Hf). reflexivity.
  - rewrite (redisClient_get_run env _ _ Hf). unfold hit.
    destruct (live crds_key w) as [t|]; [|reflexivity].
    destruct (text_truthy t); [|reflexivity].
    unfold lift. destruct (JSON_parse t); reflexivity.
Qed.

(** The [catch] block of the discovery never throws, and writes nothing to
    the cache. *)
Lemma fail_crds_run err w :
  exists w', fail_crds err w = (Normal (VArr []), w')
    /\ redis w' = redis w /\ clock w' = clock w /\ api_calls w' = api_calls w
    /\ redis_commands w' = redis_commands w
    /\ console w' = (console w ++ match err with
                                  | JSError _ m =>
                                      [(Error, ("Critical error fetching Aqua CRDs: " ++ m)%string)]
                                  | ThrownValue => []
                                  end)%list.
Proof.
  unfold fail_crds, bind.
  destruct (report_run Error "Critical error fetching Aqua CRDs: " err w)
    as (w1 & -> & Hr & Hc & Ha & Hn & Hl). unfold ret. eauto 8.
Qed.

(** The list the discovery builds always has a JSON text. *)
Lemma JSON_roundtrip_column key c :
  exists image, JSON_roundtrip key (ColumnDefinition_to_js c) = Normal (Some image).
Proof. destruct c as [n [d|] p t [q|]]; eexists; reflexivity. Qed.

Lemma JSON_elements_total {A} (f : A -> JSValue) :
  (forall key a, exists image, JSON_roundtrip key (f a) = Normal (Some image)) ->
  forall l i, exists images, JSON_elements i (List.map f l) = Normal images.
Proof.
  intros Hf. induction l as [|a l IH]; intros i; cbn [List.map JSON_elements]; [eauto|].
  destruct (Hf (pretty i) a) as [image ->]. destruct (IH (S i)) as [images ->].
  cbn [cbind]. eauto.
Qed.

Lemma JSON_roundtrip_metadata key m :
  exists image, JSON_roundtrip key (CRDMetadata_to_js m) = Normal (Some image).
Proof.
  pose proof (JSON_roundtrip_array "columns" (List.map ColumnDefinition_to_js (columns m)))
    as Harr.
  destruct (JSON_elements_total ColumnDefinition_to_js JSON_roundtrip_column (columns m) 0)
    as [images Himages].
  rewrite Himages in Harr.
  unfold CRDMetadata_to_js, obj.
  cbn [JSON_roundtrip toJSON_of own_get String.eqb Ascii.eqb Bool.eqb].
  cbn [JSON_roundtrip] in Harr. rewrite Harr. destruct (scope m); eexists; reflexivity.
Qed.

Lemma JSON_roundtrip_discovery crds :
  exists images,
    JSON_roundtrip "" (VArr (List.map CRDMetadata_to_js crds)) = Normal (Some (VArr images)).
Proof.
  rewrite JSON_roundtrip_array.
  destruct (JSON_elements_total CRDMetadata_to_js JSON_roundtrip_metadata crds 0)
    as [images ->]. eauto.
Qed.

(** The [try] block of the discovery, however it ends: a result is the
    kept CRDs, stored; an exception leaves the keyspace as it was. *)
Lemma fetch_crds_cases c w w' :
  fetch_crds env w = (c, w') ->
  clock w' = clock w
  /\ api_calls w' =
     (api_calls w ++
      match current_cluster_name env with
      | Some _ => [listClusterCustomObject "apiextensions.k8s.io" "v1"
                     "customresourcedefinitions"]
      | None => []
      end)%list
  /\ (forall k, k <> crds_key -> redis w' !! k = redis w !! k)
  /\ match c with
     | Normal result =>
         exists name response t ttl,
           current_cluster_name env = Some name
           /\ all_crds (cluster env) = inr response
           /\ result = VArr (List.map CRDMetadata_to_js
                               (List.map describe_crd
                                  (List.filter keep_crd
                                     (match response with Some l => l | None => [] end))))
           /\ JSON_stringify result = Normal (Some t)
           /\ CACHE_DURATION env = Some ttl /\ SETEX_refusal (clock w) ttl = None
           /\ redis w' = <[crds_key := {| text := t; expires_at := clock w + ttl |}]> (redis w)
     | Throw _ => redis w' = redis w
     end.
Proof.
  unfold fetch_crds, bind, makeApiClient, throw, ret.
  destruct (current_cluster_name env) as [name|];
    [|intros [= <- <-]; rewrite app_nil_r; auto].
  unfold api.
  destruct (all_crds (cluster env)) as [msg|response]; [intros [= <- <-]; simpl; auto|].
  match goal with |- context [cache_put env ?k ?d ?w0] =>
    destruct (cache_put env k d w0) as [c0 w2] eqn:Hput end.
  destruct (cache_put_cases env _ _ _ _ _ Hput) as (Hc2 & Ha2 & _ & Hcase).
  pose proof (cache_put_frame env _ _ _ _ _ Hput) as Hframe.
  simpl in Hc2, Ha2, Hframe, Hcase.
  destruct c0 as [[]|e0]; intros [= <- <-]; (split; [exact Hc2|]); (split; [exact Ha2|]);
    (split; [exact Hframe|]); [|exact Hcase].
  destruct Hcase as (t & ttl & Hs & Hd & Htakes & _ & Hredis & _).
  exists name, response, t, ttl. auto 10.
Qed.

Lemma keep_crd_spec crd :
  keep_crd crd = true <->
  spec_group (crd_spec crd) = "aquasecurity.github.io"
  /\ spec_scope (crd_spec crd) <> Some "Namespaced".
Proof.
  unfold keep_crd, vendor_group. rewrite andb_true_iff, negb_true_iff, String.eqb_eq.
  destruct (spec_scope (crd_spec crd)) as [s|].
  - destruct (String.eqb_spec s "Namespaced") as [->|Hne]; split; intros [Hg Hs];
      split; auto; congruence.
  - split; intros [Hg _]; split; auto; discriminate.
Qed.

(** A call of [listAllAquaSecurityCRDs], however it ends: the calls it has
    recorded, and the keys it has left alone. *)
Lemma discovery_frame c w w' :
  listAllAquaSecurityCRDs env w = (c, w') ->
  api_calls w' =
    (api_calls w ++
     match redis_fault env (redis_commands w), hit crds_key w, current_cluster_name env with
     | None, None, Some _ =>
         [listClusterCustomObject "apiextensions.k8s.io" "v1" "customresourcedefinitions"]
     | _, _, _ => []
     end)%list
  /\ clock w' = clock w
  /\ (forall k, k <> crds_key -> redis w' !! k = redis w !! k).
Proof.
  rewrite listAllAquaSecurityCRDs_unfold.
  destruct (redis_fault env (redis_commands w));
    [intros [= <- <-]; simpl; rewrite app_nil_r; auto|].
  destruct (hit crds_key w);
    [intros [= <- <-]; simpl; rewrite app_nil_r; auto|].
  unfold try_catch.
  destruct (fetch_crds env (count_command w)) as [[r|e] w1] eqn:Hfetch;
    destruct (fetch_crds_cases _ _ _ Hfetch) as (Hc & Ha & Hframe & _);
    simpl in Hc, Ha, Hframe.
  - intros [= <- <-]. split; [|auto]. rewrite Ha. destruct (current_cluster_name env); auto.
  - destruct (fail_crds_run e w1) as (w2 & -> & Hr2 & Hc2 & Ha2 & _).
    intros [= <- <-]. rewrite Hc2, Ha2, Ha, Hc. split; [|split; [reflexivity|]].
    + destruct (current_cluster_name env); reflexivity.
    + intros k Hk. rewrite Hr2. apply Hframe, Hk.
Qed.

(** The discovery that goes through: what is returned, what is stored. *)
Lemma discovery_stores w name ttl response :
  current_cluster_name env = Some name ->
  CACHE_DURATION env = Some ttl -> SETEX_refusal (clock w) ttl = None ->
  redis_fault env (redis_commands w) = None ->
  redis_fault env (S (redis_commands w)) = None ->
  hit crds_key w = None ->
  all_crds (cluster env) = inr response ->
  exists r w' cached,
    listAllAquaSecurityCRDs env w = (Normal r, w')
    /\ r = VArr (List.map CRDMetadata_to_js
                   (List.map describe_crd
                      (List.filter keep_crd (match response with Some l => l | None => [] end))))
    /\ JSON_roundtrip "" r = Normal (Some cached)
    /\ redis w' = <[crds_key := {| text := JsonText cached; expires_at := clock w + ttl |}]>
                    (redis w)
    /\ clock w' = clock w
    /\ redis_commands w' = S (S (redis_commands w)).
Proof.
  intros Hname Hd Htakes Hget Hset Hmiss Hcrds.
  rewrite listAllAquaSecurityCRDs_unfold, Hget, Hmiss.
  unfold try_catch, fetch_crds, bind, makeApiClient, ret. rewrite Hname. unfold api.
  rewrite Hcrds.
  match goal with |- context [cache_put env ?k (VArr (List.map CRDMetadata_to_js ?crds)) ?w0] =>
    destruct (JSON_roundtrip_discovery crds) as [images Hj];
    rewrite (cache_put_run env k _ (JsonText (VArr images)) ttl w0) by
      (first [unfold JSON_stringify; rewrite Hj; reflexivity | assumption]) end.
  eexists _, _, _. split; [reflexivity|]. split; [reflexivity|]. split; [exact Hj|].
  simpl. auto.
Qed.

Lemma describe_columns crd :
  List.map ColumnDefinition_to_js (columns (describe_crd crd)) =
  List.map ColumnDefinition_to_js
    match find_version (spec_versions (crd_spec crd)) with
    | Some v => match additionalPrinterColumns v with Some cols => cols | None => [] end
    | None => []
    end.
Proof.
  unfold describe_crd, getColumnDefinitions. cbn [columns].
  destruct (find_version _) as [v|]; [|reflexivity].
  destruct (additionalPrinterColumns v) as [cols|]; [|reflexivity].
  rewrite List.map_map. apply List.map_ext. intros []. reflexivity.
Qed.

(** C5, as amended.  When the kubeconfig has a current cluster, the cache
    has nothing under the discovery key, the cluster answers with a list of
    CRDs and the store takes the read and the write of the result,
    [listAllAquaSecurityCRDs] returns the metadata of exactly the CRDs of
    the list whose group is ["aquasecurity.github.io"] and whose scope is
    not ["Namespaced"], in the order of the list: for each, the group, the
    plural, the printer columns of its [v1alpha1] version and its scope.
    For a list of one ["Cluster"] and one ["Namespaced"] CRD of that group,
    that is the metadata of the first alone. *)
Theorem listAllAquaSecurityCRDs_filters (w : World) (name : string) (ttl : Z)
    (items : list CRD) :
  current_cluster_name env = Some name ->
  CACHE_DURATION env = Some ttl -> SETEX_refusal (clock w) ttl = None ->
  redis_fault env (redis_commands w) = None ->
  redis_fault env (S (redis_commands w)) = None ->
  hit crds_key w = None ->
  all_crds (cluster env) = inr (Some items) ->
  let column (col : ColumnDefinition) :=
    obj [ ("name", VStr (col_name col));
          ("description", match col_description col with
                          | Some d => VStr d
                          | None => VUndefined
                          end);
          ("jsonPath", VStr (col_jsonPath col));
          ("type", VStr (col_type col));
          ("priority", match col_priority col with
                       | Some p => VNum p
                       | None => VUndefined
                       end) ] in
  let metadata (crd : CRD) :=
    obj [ ("group", VStr "aquasecurity.github.io");
          ("plural", VStr (spec_names_plural (crd_spec crd)));
          ("columns",
           VArr (List.map column
                   match List.find (fun v => String.eqb (version_name v) "v1alpha1")
                           (spec_versions (crd_spec crd)) with
                   | Some v => match additionalPrinterColumns v with
                               | Some cols => cols
                               | None => []
                               end
                   | None => []
                   end));
          ("scope", match spec_scope (crd_spec crd) with
                    | Some s => VStr s
                    | None => VUndefined
                    end) ] in
  exists kept w',
    listAllAquaSecurityCRDs env w = (Normal (VArr (List.map metadata kept)), w')
    /\ kept = List.filter keep_crd items
    /\ (forall crd, In crd kept <->
          In crd items
          /\ spec_group (crd_spec crd) = "aquasecurity.github.io"
          /\ spec_scope (crd_spec crd) <> Some "Namespaced")
    /\ (forall c n,
          items = [c; n] ->
          spec_group (crd_spec c) = "aquasecurity.github.io" ->
          spec_group (crd_spec n) = "aquasecurity.github.io" ->
          spec_scope (crd_spec c) = Some "Cluster" ->
          spec_scope (crd_spec n) = Some "Namespaced" ->
          kept = [c]).
Proof.
  intros Hname Hd Htakes Hget Hset Hmiss Hcrds column metadata.
  destruct (discovery_stores w name ttl (Some items) Hname Hd Htakes Hget Hset Hmiss Hcrds)
    as (r & w' & _ & -> & -> & _).
  exists (List.filter keep_crd items), w'. split; [|split; [reflexivity|split]].
  - do 3 f_equal. rewrite List.map_map. apply List.map_ext. intros crd.
    unfold CRDMetadata_to_js. rewrite describe_columns. reflexivity.
  - intros crd. rewrite filter_In, keep_crd_spec. reflexivity.
  - intros c n -> Hgc Hgn Hsc Hsn. simpl.
    assert (keep_crd c = true) as -> by (apply keep_crd_spec; split; congruence).
    assert (keep_crd n = false) as ->; [|reflexivity].
    unfold keep_crd. rewrite Hsn. simpl. apply andb_false_r.
Qed.

End Discovery.

(** ** The in-process variant *)

Section SimpleVariant.
Variable env : Env.

Lemma Simple_loadReports_hit crdPlural (w : Simple.World) e :
  Simple.fresh crdPlural w = Some e ->
  Simple.loadReports env crdPlural w = (Normal (Simple.data e), w).
Proof. intros Hfresh. unfold Simple.loadReports. rewrite Hfresh. reflexivity. Qed.

Lemma Simple_fresh_lookup crdPlural (w : Simple.World) e :
  Simple.fresh crdPlural w = Some e -> Simple.cache w !! crdPlural = Some e.
Proof.
  unfold Simple.fresh. destruct (Simple.cache w !! crdPlural) as [e'|]; [|discriminate].
  destruct (_ <? _); [congruence | discriminate].
Qed.

(** Without a current cluster, a call that finds no fresh entry throws
    before it calls the cluster or writes an entry. *)
Lemma Simple_loadReports_no_cluster crdPlural (w : Simple.World) :
  current_cluster_name env = None ->
  Simple.fresh crdPlural w = None ->
  Simple.loadReports env crdPlural w = (Throw (JSError "Error" "No active cluster!"), w).
Proof. intros Hnone Hmiss. unfold Simple.loadReports. rewrite Hmiss, Hnone. reflexivity. Qed.

(** With a current cluster, a call that finds no fresh entry lists the
    instances and overwrites the entry of the plural with what it returns,
    stamped with the current time: after a listing that went through as
    after one that failed. *)
Lemma Simple_loadReports_miss crdPlural (w : Simple.World) name :
  current_cluster_name env = Some name ->
  Simple.fresh crdPlural w = None ->
  exists r,
    Simple.loadReports env crdPlural w =
      (Normal r,
       Simple.set_cache crdPlural {| Simple.data := r; Simple.timestamp := Simple.now w |}
         (Simple.record_call
            (listCustomObjectForAllNamespaces vendor_group target_version crdPlural) w)).
Proof.
  intros Hname Hmiss. unfold Simple.loadReports. rewrite Hmiss, Hname.
  destruct (instances_all_namespaces (cluster env) crdPlural); eauto.
Qed.

(** The second of two calls, in-process: less than the duration after a
    call that found no fresh entry, [loadReports] returns the very value
    that call returned, and calls no cluster API. *)
Lemma Simple_loadReports_second_call crdPlural (w : Simple.World) name (dt : Z) :
  current_cluster_name env = Some name ->
  Simple.fresh crdPlural w = None ->
  dt < Simple.CACHE_DURATION ->
  exists r1 w1,
    Simple.loadReports env crdPlural w = (Normal r1, w1)
    /\ Simple.loadReports env crdPlural (Simple.elapse dt w1)
       = (Normal r1, Simple.elapse dt w1).
Proof.
  intros Hname Hmiss Hdt.
  destruct (Simple_loadReports_miss crdPlural w name Hname Hmiss) as (r & Hr).
  eexists _, _. split; [exact Hr|].
  unfold Simple.loadReports at 1. unfold Simple.fresh. simpl.
  rewrite lookup_insert_eq. simpl.
  replace (Simple.now w + dt - Simple.now w) with dt by lia.
  apply Z.ltb_lt in Hdt. rewrite Hdt. reflexivity.
Qed.

End SimpleVariant.

Section CacheTheorems.
Context `{Engine}.
Variable env : Env.

(** C7, as amended.  Two calls of [loadReports] for a plural with nothing
    else touching the cache in between, the second within the life of the
    cache entry: the second returns the cached payload and makes no call to
    the cluster API.  When the kubeconfig has a current cluster, the store
    takes the commands and the configured duration is one the store
    accepts, a first call that finds nothing in the cache fetches, returns
    and stores its result, and a second call less than the cache duration
    later is served from that entry.  When the first call is served from an
    entry, so is a second call before that entry expires.  The in-process
    variant, when the kubeconfig has a current cluster, serves the second
    call from the entry of the first. *)
Theorem loadReports_twice (crdPlural : string) (name : string) :
  current_cluster_name env = Some name ->
  (forall (w : World) (ttl dt : Z),
     no_faults env -> CACHE_DURATION env = Some ttl -> SETEX_refusal (clock w) ttl = None ->
     hit (reports_key crdPlural) w = None ->
     0 <= dt < ttl ->
     exists r1 w1 cached w2,
       loadReports env crdPlural w = (Normal r1, w1)
       /\ JSON_roundtrip "" r1 = Normal (Some cached)
       /\ loadReports env crdPlural (elapse dt w1) = (Normal cached, w2)
       /\ api_calls w2 = api_calls w1
       /\ redis w2 = redis w1)
  /\ (forall (w : World) (dt : Z) (e : Entry) (cached : JSValue),
        no_faults env ->
        redis w !! reports_key crdPlural = Some e ->
        text e = JsonText cached ->
        0 <= dt -> clock w + dt < expires_at e ->
        exists w1 w2,
          loadReports env crdPlural w = (Normal cached, w1)
          /\ loadReports env crdPlural (elapse dt w1) = (Normal cached, w2)
          /\ api_calls w2 = api_calls w
          /\ redis w2 = redis w)
  /\ (forall (w : Simple.World) (dt : Z),
        Simple.fresh crdPlural w = None ->
        0 <= dt < Simple.CACHE_DURATION ->
        exists r1 w1 w2,
          Simple.loadReports env crdPlural w = (Normal r1, w1)
          /\ Simple.loadReports env crdPlural (Simple.elapse dt w1) = (Normal r1, w2)
          /\ Simple.api_calls w2 = Simple.api_calls w1
          /\ Simple.cache w2 = Simple.cache w1).
Proof.
  intros Hname. split; [|split].
  - intros w ttl dt. apply (loadReports_second_call env crdPlural w name ttl dt Hname).
  - intros w dt e cached Hok He Ht Hdt Hlive.
    assert (Hhit : forall d, 0 <= d <= dt ->
              hit (reports_key crdPlural) (elapse d w) = Some (JsonText cached)).
    { intros d Hd. unfold hit, live. simpl. rewrite He, Ht. simpl.
      destruct (Z.ltb_spec (clock w + d) (expires_at e)); [reflexivity | lia]. }
    exists (count_command w), (count_command (elapse dt (count_command w))).
    split; [|split; [|split; reflexivity]].
    + rewrite (loadReports_hit env crdPlural w (JsonText cached)); [reflexivity|apply Hok|].
      replace w with (elapse 0 w) at 1; [apply Hhit; lia|].
      destruct w. unfold elapse. simpl. f_equal. lia.
    + rewrite (loadReports_hit env crdPlural _ (JsonText cached)); [reflexivity|apply Hok|].
      apply (Hhit dt). lia.
  - intros w dt Hmiss [_ Hdt].
    destruct (Simple_loadReports_second_call env crdPlural w name dt Hname Hmiss Hdt)
      as (r1 & w1 & Hfirst & Hsecond).
    exists r1, w1, (Simple.elapse dt w1). auto.
Qed.



End CacheTheorems.
(** ** The projected record *)

Section Projection.
Context `{Engine}.








Lemma js_get_metadata item :
  js_get (obj item) "metadata" =
  Normal (match own_get "metadata" item with Some m => m | None => VUndefined end).
Proof.
  unfold js_get, obj. cbn [Get_from]. destruct (own_get "metadata" item); reflexivity.
Qed.


End Projection.


(** ** The theorems at the sample cluster *)

Lemma loadReports_failure_cached_witness :
  exists w'',
    loadReports (H := Reference.node) sample_env "configauditreports" boot
      = (Normal (obj [ ("manifests", VArr []);
                       ("clusterName", VStr "Unknown Cluster");
                       ("scope", VStr "Unknown");
                       ("error", VStr "HTTP-Code: 404 Message: Not Found");
                       ("resource", VStr "configauditreports") ]),
         w'')
    /\ live "reports:configauditreports" w''
       = Some (JsonText (obj [ ("manifests", VArr []);
                               ("clusterName", VStr "Unknown Cluster");
                               ("scope", VStr "Unknown");
                               ("error", VStr "HTTP-Code: 404 Message: Not Found");
                               ("resource", VStr "configauditreports") ])).
Proof.
  destruct (loadReports_failure_cached (H := Reference.node) sample_env "configauditreports"
              boot "kind-trivy" 1800 _ _ eq_refl eq_refl eq_refl eq_refl eq_refl
              (lookup_rejected sample_env "configauditreports" (count_command boot)
                 "HTTP-Code: 404 Message: Not Found" eq_refl)
              eq_refl)
    as [(w'' & Hrun & _ & Hlive) _].
  exists w''. split; assumption.
Defined.

(** C1 as stated fails.  When the store rejects the write of the failure,
    the call whose lookup of the CRD failed throws the error of the store:
    it returns no payload and caches none.  When the kubeconfig has no
    current cluster, the call throws before its [try]: no payload, nothing
    cached, no call to the cluster. *)
Lemma loadReports_failure_lost :
  loadReports (H := Reference.node) env_flaky "configauditreports" boot
    = (Throw (JSError "Error" "LOADING Redis is loading the dataset in memory"),
       {| redis := ∅; clock := 0; redis_commands := 2;
          api_calls := [getClusterCustomObject "apiextensions.k8s.io" "v1"
                          "customresourcedefinitions"
                          "configauditreports.aquasecurity.github.io"];
          console := [(Error, "Critical error fetching configauditreports: HTTP-Code: 404 Message: Not Found")] |})
  /\ loadReports (H := Reference.node) env_no_context "vulnerabilityreports" boot
    = (Throw (JSError "Error" "No active cluster!"),
       {| redis := ∅; clock := 0; redis_commands := 1; api_calls := []; console := [] |}).
Proof. split; reflexivity. Qed.



Lemma listAllAquaSecurityCRDs_filters_witness :
  exists w',
    listAllAquaSecurityCRDs (H := Reference.node) sample_env boot
      = (Normal (VArr [ obj [ ("group", VStr "aquasecurity.github.io");
                              ("plural", VStr "clustercompliancereports");
                              ("columns", VArr []);
                              ("scope", VStr "Cluster") ] ]), w').
Proof.
  destruct (listAllAquaSecurityCRDs_filters (H := Reference.node) sample_env boot
              "kind-trivy" 1800 [compliance_crd; vulnerability_crd]
              eq_refl eq_refl eq_refl eq_refl eq_refl eq_refl eq_refl)
    as (kept & w' & Hrun & _ & _ & Hscenario).
  rewrite (Hscenario compliance_crd vulnerability_crd eq_refl eq_refl eq_refl eq_refl eq_refl)
    in Hrun.
  exists w'. exact Hrun.
Defined.

(** C5 as stated fails: the cluster answers with the two CRDs of the vendor
    group, one of them cluster-scoped, the store rejects the write of the
    result, and the discovery returns the empty list. *)
Lemma discovery_result_lost :
  all_crds (cluster env_flaky) = inr (Some [compliance_crd; vulnerability_crd])
  /\ spec_group (crd_spec compliance_crd) = "aquasecurity.github.io"
  /\ spec_scope (crd_spec compliance_crd) = Some "Cluster"
  /\ listAllAquaSecurityCRDs (H := Reference.node) env_flaky boot
     = (Normal (VArr []),
        {| redis := ∅; clock := 0; redis_commands := 2;
           api_calls := [listClusterCustomObject "apiextensions.k8s.io" "v1"
                           "customresourcedefinitions"];
           console := [(Error, "Critical error fetching Aqua CRDs: LOADING Redis is loading the dataset in memory")] |}).
Proof. repeat split; reflexivity. Qed.

Lemma loadReports_listing_rejected_witness :
  exists w',
    loadReports (H := Reference.node) sample_env "clustercompliancereports" boot
      = (Normal (obj [ ("manifests", VArr []);
                       ("clusterName", VStr "kind-trivy");
                       ("scope", VStr "Cluster");
                       ("resource", VStr "clustercompliancereports") ]), w')
    /\ console w'
       = [(Warn, "Warning: Could not list cluster instances of clustercompliancereports: HTTP-Code: 403 Message: Forbidden")].
Proof.
  destruct (loadReports_listing_rejected (H := Reference.node) sample_env
              "clustercompliancereports" boot "kind-trivy" 1800 clustercompliancereports_spec
              {| version_name := "v1alpha1"; additionalPrinterColumns := None |}
              "HTTP-Code: 403 Message: Forbidden"
              eq_refl eq_refl eq_refl eq_refl eq_refl eq_refl eq_refl eq_refl eq_refl)
    as (w' & Hrun & Hlog & _).
  exists w'. split; [exact Hrun | exact Hlog].
Defined.

(** C6 as stated fails: the schema resolves, the listing is rejected and
    warned about, and the store rejects the write of the report; the call
    then returns the failure payload, with an [error] and the scope
    ["Unknown"], not the scope of the CRD. *)
Lemma listing_rejected_then_write_rejected :
  crd_by_name (cluster env_flaky) "clustercompliancereports.aquasecurity.github.io"
    = inr (Some clustercompliancereports_spec)
  /\ fst (loadReports (H := Reference.node) env_flaky "clustercompliancereports" boot)
     = Normal (obj [ ("manifests", VArr []);
                     ("clusterName", VStr "Unknown Cluster");
                     ("scope", VStr "Unknown");
                     ("error", VStr "LOADING Redis is loading the dataset in memory");
                     ("resource", VStr "clustercompliancereports") ])
  /\ console (snd (loadReports (H := Reference.node) env_flaky "clustercompliancereports" boot))
     = [(Warn, "Warning: Could not list cluster instances of clustercompliancereports: HTTP-Code: 403 Message: Forbidden");
        (Error, "Critical error fetching clustercompliancereports: LOADING Redis is loading the dataset in memory")].
Proof. repeat split; reflexivity. Qed.

Lemma loadReports_twice_witness :
  (exists r1 w1 cached w2,
     loadReports (H := Reference.node) sample_env "vulnerabilityreports" boot = (Normal r1, w1)
     /\ JSON_roundtrip (H := Reference.node) "" r1 = Normal (Some cached)
     /\ loadReports (H := Reference.node) sample_env "vulnerabilityreports" (elapse 600 w1)
        = (Normal cached, w2)
     /\ api_calls w2 = api_calls w1
     /\ redis w2 = redis w1)
  /\ (exists r1 w1 w2,
        Simple.loadReports sample_env "vulnerabilityreports" simple_boot = (Normal r1, w1)
        /\ Simple.loadReports sample_env "vulnerabilityreports" (Simple.elapse 299999 w1)
           = (Normal r1, w2)
        /\ Simple.api_calls w2 = Simple.api_calls w1
        /\ Simple.cache w2 = Simple.cache w1).
Proof.
  split.
  - apply (proj1 (loadReports_twice (H := Reference.node) sample_env "vulnerabilityreports"
                    "kind-trivy" eq_refl)
             boot 1800 600).
    + intros n. reflexivity.
    + reflexivity.
    + reflexivity.
    + reflexivity.
    + lia.
  - apply (proj2 (proj2 (loadReports_twice (H := Reference.node) sample_env
                           "vulnerabilityreports" "kind-trivy" eq_refl))
             simple_boot 299999).
    + reflexivity.
    + unfold Simple.CACHE_DURATION. lia.
Defined.

(** C7 as stated fails.  With a store that takes reads and refuses writes,
    the first call fetches from the cluster and throws the error of the
    store, nothing is cached, and a second call a minute later, well within
    the configured 1800 seconds, fetches from the cluster again: two call
    sequences, and no cached payload returned.  Without a current cluster,
    both calls of the in-process variant throw: the second returns no
    cached payload either. *)
Lemma second_call_fetches_again :
  CACHE_DURATION env_readonly = Some 1800
  /\ fst (loadReports (H := Reference.node) env_readonly "vulnerabilityreports" boot)
     = Throw (JSError "Error" "READONLY You can't write against a read only replica.")
  /\ fst (loadReports (H := Reference.node) env_readonly "vulnerabilityreports"
            (elapse 60 (snd (loadReports (H := Reference.node) env_readonly
                               "vulnerabilityreports" boot))))
     = Throw (JSError "Error" "READONLY You can't write against a read only replica.")
  /\ api_calls (snd (loadReports (H := Reference.node) env_readonly "vulnerabilityreports"
                       (elapse 60 (snd (loadReports (H := Reference.node) env_readonly
                                          "vulnerabilityreports" boot)))))
     = [ getClusterCustomObject "apiextensions.k8s.io" "v1" "customresourcedefinitions"
           "vulnerabilityreports.aquasecurity.github.io";
         listCustomObjectForAllNamespaces "aquasecurity.github.io" "v1alpha1"
           "vulnerabilityreports";
         getClusterCustomObject "apiextensions.k8s.io" "v1" "customresourcedefinitions"
           "vulnerabilityreports.aquasecurity.github.io";
         listCustomObjectForAllNamespaces "aquasecurity.github.io" "v1alpha1"
           "vulnerabilityreports" ]
  /\ Simple.loadReports env_no_context "vulnerabilityreports" simple_boot
     = (Throw (JSError "Error" "No active cluster!"), simple_boot)
  /\ Simple.loadReports env_no_context "vulnerabilityreports" (Simple.elapse 60000 simple_boot)
     = (Throw (JSError "Error" "No active cluster!"), Simple.elapse 60000 simple_boot).
Proof. repeat split; vm_compute; reflexivity. Qed.

Lemma sample_scopes_valid : scopes_valid sample_env.
Proof.
  intros name spec. simpl.
  destruct (String.eqb name "vulnerabilityreports.aquasecurity.github.io");
    [intros [= <-]; auto|].
  destruct (String.eqb name "clustercompliancereports.aquasecurity.github.io");
    [intros [= <-]; auto|discriminate].
Qed.

Lemma sample_first_call :
  loadReports (H := Reference.node) sample_env "vulnerabilityreports" boot
  = (Normal sample_reports,
     snd (loadReports (H := Reference.node) sample_env "vulnerabilityreports" boot)).
Proof. vm_compute. reflexivity. Qed.

Lemma loadReports_scope_witness :
  scope_invariant sample_reports
  /\ cache_sound (snd (loadReports (H := Reference.node) sample_env "vulnerabilityreports" boot)).
Proof.
  apply (loadReports_scope (H := Reference.node) sample_env "vulnerabilityreports" boot).
  - exact sample_scopes_valid.
  - intros q e He. unfold boot in He. cbn [redis] in He.
    rewrite lookup_empty in He. discriminate He.
  - exact sample_first_call.
Defined.




(** A column named [__proto__] assigns no key: the record keeps its one
    key, and a value that is an object becomes its prototype. *)
Example project_proto_column :
  project (H := Reference.node)
    [ {| col_name := "__proto__"; col_description := None; col_jsonPath := ".report";
         col_type := "string"; col_priority := None |} ] nginx_report
  = Normal (VObj (obj [ ("artifact", obj [ ("repository", VStr "library/nginx") ]) ])
              [ ("metadata", obj [ ("name", VStr "nginx");
                                   ("creationTimestamp", VStr "2024-01-01T00:00:00Z") ]) ]).
Proof. reflexivity. Qed.

(** * Further properties *)

(** ** The Redis-backed module *)

Section Calls.
Context `{Engine}.
Variable env : Env.

(** X1.  The calls of [loadReports] to the cluster API, however the call
    ends.  Served from the cache, stopped by an error of the first read, or
    stopped because the kubeconfig has no current cluster, it makes none.
    Otherwise it makes the lookup of the CRD and then, only when the schema
    resolved, exactly one listing call: across all namespaces for a
    namespaced CRD, cluster-wide otherwise.  It never makes more than these
    two calls, never both listings, and never a listing after a failed
    lookup. *)
Theorem loadReports_calls (crdPlural : string) (w : World) (c : Completion JSValue)
    (w' : World) :
  loadReports env crdPlural w = (c, w') ->
  api_calls w' =
    (api_calls w ++
     match redis_fault env (redis_commands w), hit (reports_key crdPlural) w,
           current_cluster_name env with
     | None, None, Some _ =>
         getClusterCustomObject "apiextensions.k8s.io" "v1" "customresourcedefinitions"
           (crdPlural ++ ".aquasecurity.github.io") ::
         match crd_by_name (cluster env) (crdPlural ++ ".aquasecurity.github.io") with
         | inr (Some spec) =>
             match find_version (spec_versions spec) with
             | Some _ =>
                 [if String.eqb (or_else (spec_scope spec) "Cluster") "Namespaced"
                  then listCustomObjectForAllNamespaces "aquasecurity.github.io" "v1alpha1"
                         crdPlural
                  else listClusterCustomObject "aquasecurity.github.io" "v1alpha1" crdPlural]
             | None => []
             end
         | _ => []
         end
     | _, _, _ => []
     end)%list.
Proof.
  intros Hrun. destruct (loadReports_frame _ _ _ _ _ Hrun) as (Ha & _). exact Ha.
Qed.

(** X2.  [loadReports] writes to one key only: whatever the plural and
    however the call ends, every other key of the store (the entries of the
    other plurals, the discovery list) holds what it held, and the clock of
    the store is not touched. *)
Theorem loadReports_touches_own_key (crdPlural : string) (w : World)
    (c : Completion JSValue) (w' : World) :
  loadReports env crdPlural w = (c, w') ->
  (forall k, k <> "reports:" ++ crdPlural -> redis w' !! k = redis w !! k)
  /\ redis w' !! "aqua_security_crds" = redis w !! "aqua_security_crds"
  /\ (forall q, q <> crdPlural ->
        redis w' !! ("reports:" ++ q) = redis w !! ("reports:" ++ q))
  /\ clock w' = clock w.
Proof.
  intros Hrun. destruct (loadReports_frame _ _ _ _ _ Hrun) as (_ & Hc & Hframe).
  split; [exact Hframe|]. split; [|split; [|exact Hc]].
  - apply Hframe. intros Heq. exact (reports_key_not_crds_key crdPlural (eq_sym Heq)).
  - intros q Hq. apply Hframe. intros Heq. apply Hq. apply reports_key_inj. exact Heq.
Qed.


Lemma map_completion_map {A B} (f : A -> Completion B) (g : A -> B) (l : list A) :
  Forall (fun x => f x = Normal (g x)) l ->
  map_completion f l = Normal (List.map g l).
Proof.
  induction 1 as [|x rest Hx _ IH]; simpl; [reflexivity|]. rewrite Hx, IH. reflexivity.
Qed.

(** The exception of a [map] is that of the first element whose callback
    throws. *)
Lemma map_completion_throws {A B} (f : A -> Completion B) (good : list A) (bad : A)
    (rest : list A) (e : Exn) :
  Forall (fun x => exists y, f x = Normal y) good ->
  f bad = Throw e ->
  map_completion f (good ++ bad :: rest)%list = Throw e.
Proof.
  intros Hgood Hbad. induction Hgood as [|x good' [y Hx] _ IH]; simpl.
  - rewrite Hbad. reflexivity.
  - rewrite Hx, IH. reflexivity.
Qed.

(** What the fetch builds, with the name of the current cluster. *)
Lemma fetched_named crdPlural name spec ms :
  current_cluster_name env = Some name ->
  ReportsData_to_js (fetched env crdPlural spec ms) =
    obj [ ("manifests", VArr ms);
          ("clusterName", VStr (if String.eqb name "" then "Unknown Cluster" else name));
          ("scope", VStr (or_else (spec_scope spec) "Cluster"));
          ("resource", VStr crdPlural) ].
Proof. intros Hname. unfold fetched, the_clusterName. rewrite Hname. reflexivity. Qed.

(** The fetch that goes through: what is returned, what is stored. *)
Lemma loadReports_projected crdPlural w name ttl spec version ms cached :
  current_cluster_name env = Some name ->
  CACHE_DURATION env = Some ttl -> SETEX_refusal (clock w) ttl = None ->
  redis_fault env (redis_commands w) = None ->
  redis_fault env (S (redis_commands w)) = None ->
  hit (reports_key crdPlural) w = None ->
  crd_by_name (cluster env) (crdPlural ++ ".aquasecurity.github.io") = inr (Some spec) ->
  find_version (spec_versions spec) = Some version ->
  map_completion (project (columns_for version))
    (listed_instances env crdPlural (or_else (spec_scope spec) "Cluster")) = Normal ms ->
  JSON_roundtrip "" (ReportsData_to_js (fetched env crdPlural spec ms))
    = Normal (Some cached) ->
  exists w',
    loadReports env crdPlural w = (Normal (ReportsData_to_js (fetched env crdPlural spec ms)), w')
    /\ redis w' =
       <[reports_key crdPlural :=
           {| text := JsonText cached; expires_at := clock w + ttl |}]> (redis w)
    /\ clock w' = clock w
    /\ redis_commands w' = S (S (redis_commands w)).
Proof.
  intros Hname Hd Htakes Hget Hset Hmiss Hcrd Hv Hms Hj.
  destruct (loadReports_resolved env crdPlural w name spec version Hname Hget Hmiss Hcrd Hv)
    as (w1 & -> & Hr1 & Hc1 & Hn1).
  rewrite Hms.
  rewrite (cache_put_run env _ _ (JsonText cached) ttl w1)
    by (first [unfold JSON_stringify; rewrite Hj; reflexivity
              |rewrite ?Hc1, ?Hn1; assumption]).
  eexists. split; [reflexivity|]. simpl. rewrite Hr1, Hc1, Hn1. auto.
Qed.


(** X4.  One instance spoils the listing.  When the extraction throws for
    an instance (the date conversion of the timestamp rule can), the [map]
    over the instances is left at that instance: with a current cluster in
    the kubeconfig and a store that takes the read and the write,
    [loadReports] returns the error payload with the message of that
    exception and no manifest at all, not the records of the other
    instances, and caches it like any other failure. *)
Theorem loadReports_instance_throws (crdPlural : string) (w : World) (name : string)
    (ttl : Z) (spec : CRDSpec) (version : CRDVersion) (good : list JSObject) (bad : JSObject)
    (rest : list JSObject) (e : Exn) :
  current_cluster_name env = Some name ->
  CACHE_DURATION env = Some ttl -> SETEX_refusal (clock w) ttl = None ->
  redis_fault env (redis_commands w) = None ->
  redis_fault env (S (redis_commands w)) = None ->
  hit (reports_key crdPlural) w = None ->
  crd_by_name (cluster env) (crdPlural ++ ".aquasecurity.github.io") = inr (Some spec) ->
  find_version (spec_versions spec) = Some version ->
  listed_instances env crdPlural (or_else (spec_scope spec) "Cluster")
    = (good ++ bad :: rest)%list ->
  Forall (fun item => exists r, project (columns_for version) item = Normal r) good ->
  project (columns_for version) bad = Throw e ->
  let payload := obj [ ("manifests", VArr []);
                       ("clusterName", VStr "Unknown Cluster");
                       ("scope", VStr "Unknown");
                       ("error", VStr match e with
                                      | JSError _ message => message
                                      | ThrownValue => "Unknown error"
                                      end);
                       ("resource", VStr crdPlural) ] in
  exists w',
    loadReports env crdPlural w = (Normal payload, w')
    /\ redis w' !! ("reports:" ++ crdPlural) =
       Some {| text := JsonText payload; expires_at := clock w + ttl |}.
Proof.
  intros Hname Hd Htakes Hget Hset Hmiss Hcrd Hv Hitems Hgood Hbad payload.
  destruct (loadReports_resolved env crdPlural w name spec version Hname Hget Hmiss Hcrd Hv)
    as (w1 & -> & Hr1 & Hc1 & Hn1).
  rewrite Hitems, (map_completion_throws _ good bad rest e Hgood Hbad).
  destruct (fail_reports_run env crdPlural e w1 ttl Hd) as (w' & -> & Hr' & _);
    [rewrite Hc1; exact Htakes | rewrite Hn1; exact Hset |].
  assert (Hpay : ReportsData_to_js (error_payload (message_of e) crdPlural) = payload)
    by (destruct e; reflexivity).
  rewrite Hpay in *. exists w'. split; [reflexivity|].
  rewrite Hr', Hc1. unfold reports_key. apply lookup_insert_eq.
Qed.

(** The record of an instance under the two default columns. *)
Lemma project_default_columns item n a :
  extractValue (obj item) ".metadata.name" = Normal n ->
  extractValue (obj item) ".metadata.creationTimestamp" = Normal a ->
  project default_columns item = Normal (default_record item n a).
Proof.
  intros Hn Ha. unfold project. rewrite js_get_metadata. cbn [cbind].
  replace (if truthy match own_get "metadata" item with Some m => m | None => VUndefined end
           then match own_get "metadata" item with Some m => m | None => VUndefined end
           else obj [])
    with (passthrough item)
    by (unfold passthrough; destruct (own_get "metadata" item); reflexivity).
  unfold default_columns. cbn [assign_columns col_jsonPath col_name].
  rewrite Hn. cbn [cbind]. rewrite Ha. reflexivity.
Qed.

Lemma project_default_row item :
  default_columns_return item -> project default_columns item = Normal (default_row item).
Proof.
  intros [[n Hn] [a Ha]]. unfold default_row, extracted. rewrite Hn, Ha.
  apply project_default_columns; assumption.
Qed.

(** X5.  The default columns.  When the [v1alpha1] version of the CRD
    declares no printer column (none at all, or an empty list), the records
    are built from the two default columns: each has exactly the keys
    [metadata], [Name] and [Age], in this order, with the value at
    [.metadata.name] and the one at [.metadata.creationTimestamp] ([null]
    where there is none).  This is what [loadReports] returns when the
    kubeconfig has a current cluster, the result has a JSON text and the
    store takes the read and the write. *)
Theorem loadReports_default_columns (crdPlural : string) (w : World) (name : string)
    (ttl : Z) (spec : CRDSpec) (version : CRDVersion) (cached : JSValue) :
  current_cluster_name env = Some name ->
  CACHE_DURATION env = Some ttl -> SETEX_refusal (clock w) ttl = None ->
  redis_fault env (redis_commands w) = None ->
  redis_fault env (S (redis_commands w)) = None ->
  hit (reports_key crdPlural) w = None ->
  crd_by_name (cluster env) (crdPlural ++ ".aquasecurity.github.io") = inr (Some spec) ->
  find_version (spec_versions spec) = Some version ->
  getColumnDefinitions (Some version) = [] ->
  Forall default_columns_return
    (listed_instances env crdPlural (or_else (spec_scope spec) "Cluster")) ->
  let result :=
    obj [ ("manifests",
           VArr (List.map
                   (fun item =>
                      obj [ ("metadata", passthrough item);
                            ("Name", or_null (extracted item ".metadata.name"));
                            ("Age", or_null (extracted item ".metadata.creationTimestamp")) ])
                   (listed_instances env crdPlural (or_else (spec_scope spec) "Cluster"))));
          ("clusterName", VStr (if String.eqb name "" then "Unknown Cluster" else name));
          ("scope", VStr (or_else (spec_scope spec) "Cluster"));
          ("resource", VStr crdPlural) ] in
  JSON_roundtrip "" result = Normal (Some cached) ->
  exists w', loadReports env crdPlural w = (Normal result, w').
Proof.
  intros Hname Hd Htakes Hget Hset Hmiss Hcrd Hv Hcols Hitems result Hj.
  assert (Hms : map_completion (project (columns_for version))
                  (listed_instances env crdPlural (or_else (spec_scope spec) "Cluster"))
                = Normal (List.map default_row
                            (listed_instances env crdPlural
                               (or_else (spec_scope spec) "Cluster")))).
  { unfold columns_for. rewrite Hcols. apply map_completion_map.
    eapply Forall_impl; [exact Hitems|]. intros item. apply project_default_row. }
  pose proof (fetched_named crdPlural name spec
                (List.map default_row
                   (listed_instances env crdPlural (or_else (spec_scope spec) "Cluster")))
                Hname) as Hres.
  change (ReportsData_to_js
            (fetched env crdPlural spec
               (List.map default_row
                  (listed_instances env crdPlural (or_else (spec_scope spec) "Cluster"))))
          = result) in Hres.
  rewrite <- Hres in Hj.
  destruct (loadReports_projected crdPlural w name ttl spec version _ cached Hname Hd Htakes
              Hget Hset Hmiss Hcrd Hv Hms Hj) as (w' & Hrun & _).
  rewrite Hres in Hrun. exists w'. exact Hrun.
Qed.

(** X6.  A write to the cache that the store rejects undoes a fetch that
    went through.  The [setEx] of the [try] block sits inside the [try]: its
    error goes to the [catch], which drops the records just fetched and
    builds the error payload with the message of the store.  When the store
    takes the next command, that payload is returned and cached in place of
    the reports; when it rejects this one too, [loadReports] throws and the
    keyspace is as it was.  (The kubeconfig has a current cluster, and the
    result of the fetch has a JSON text.) *)
Theorem loadReports_write_rejected (crdPlural : string) (w : World) (name : string)
    (ttl : Z) (spec : CRDSpec) (version : CRDVersion) (ms : list JSValue) (cached : JSValue)
    (msg : string) :
  current_cluster_name env = Some name ->
  CACHE_DURATION env = Some ttl -> SETEX_refusal (clock w) ttl = None ->
  redis_fault env (redis_commands w) = None ->
  redis_fault env (S (redis_commands w)) = Some msg ->
  hit (reports_key crdPlural) w = None ->
  crd_by_name (cluster env) (crdPlural ++ ".aquasecurity.github.io") = inr (Some spec) ->
  find_version (spec_versions spec) = Some version ->
  map_completion (project (columns_for version))
    (listed_instances env crdPlural (or_else (spec_scope spec) "Cluster")) = Normal ms ->
  JSON_roundtrip ""
    (obj [ ("manifests", VArr ms);
           ("clusterName", VStr (if String.eqb name "" then "Unknown Cluster" else name));
           ("scope", VStr (or_else (spec_scope spec) "Cluster"));
           ("resource", VStr crdPlural) ]) = Normal (Some cached) ->
  let payload := obj [ ("manifests", VArr []);
                       ("clusterName", VStr "Unknown Cluster");
                       ("scope", VStr "Unknown");
                       ("error", VStr msg);
                       ("resource", VStr crdPlural) ] in
  exists w',
    loadReports env crdPlural w =
      (match redis_fault env (S (S (redis_commands w))) with
       | None => Normal payload
       | Some msg' => Throw (JSError "Error" msg')
       end, w')
    /\ redis w' =
       match redis_fault env (S (S (redis_commands w))) with
       | None => <["reports:" ++ crdPlural :=
                     {| text := JsonText payload; expires_at := clock w + ttl |}]> (redis w)
       | Some _ => redis w
       end.
Proof.
  intros Hname Hd Htakes Hget Hset Hmiss Hcrd Hv Hms Hj payload.
  rewrite <- (fetched_named crdPlural name spec ms Hname) in Hj.
  destruct (loadReports_resolved env crdPlural w name spec version Hname Hget Hmiss Hcrd Hv)
    as (w1 & -> & Hr1 & Hc1 & Hn1).
  rewrite Hms.
  rewrite (cache_put_rejected env _ _ (JsonText cached) msg w1)
    by (first [unfold JSON_stringify; rewrite Hj; reflexivity | rewrite Hn1; exact Hset]).
  unfold fail_reports, bind.
  destruct (report_run Error ("Critical error fetching " ++ crdPlural ++ ": ")
              (JSError "Error" msg) (count_command w1))
    as (w2 & -> & Hr2 & Hc2 & _ & Hn2 & _).
  simpl in Hr2, Hc2, Hn2. rewrite Hn1 in Hn2.
  destruct (redis_fault env (S (S (redis_commands w)))) as [msg'|] eqn:Hf.
  - rewrite (cache_put_rejected env _ _ _ msg' w2 (JSON_stringify_error_payload _ _))
      by (rewrite Hn2; exact Hf).
    eexists. split; [reflexivity|]. simpl. congruence.
  - rewrite (cache_put_run env _ _ _ ttl w2 (JSON_stringify_error_payload _ _) Hd)
      by (rewrite ?Hc2, ?Hc1, ?Hn2; assumption).
    eexists. split; [reflexivity|]. simpl. rewrite Hr2, Hr1, Hc2, Hc1. reflexivity.
Qed.



(** [invalidateCache], when the store takes the command. *)
Lemma invalidateCache_run crdPlural w :
  redis_fault env (redis_commands w) = None ->
  invalidateCache env crdPlural w =
    (Normal tt, set_redis (delete (reports_key crdPlural) (redis w)) (count_command w)).
Proof.
  intros Hok. unfold invalidateCache, redisClient_del, redis_command. rewrite Hok. reflexivity.
Qed.

(** X8.  [invalidateCache] sends one [DEL] for the key of the plural.  An
    error of the store is thrown to the caller.  Otherwise the key of the
    plural is gone, whether it was there or not, and nothing else has
    changed: not the discovery list, not the entry of any other plural, and
    no cluster API was called.  The next [loadReports] for the plural then
    finds nothing, however little time has passed: it asks the cluster when
    the kubeconfig has a current cluster, and makes no call when it has
    none. *)
Theorem invalidateCache_forgets (crdPlural : string) (w : World) :
  (forall msg,
     redis_fault env (redis_commands w) = Some msg ->
     invalidateCache env crdPlural w = (Throw (JSError "Error" msg), count_command w))
  /\ (redis_fault env (redis_commands w) = None ->
      exists w',
        invalidateCache env crdPlural w = (Normal tt, w')
        /\ redis w' !! ("reports:" ++ crdPlural) = None
        /\ redis w' !! "aqua_security_crds" = redis w !! "aqua_security_crds"
        /\ (forall q, q <> crdPlural ->
              redis w' !! ("reports:" ++ q) = redis w !! ("reports:" ++ q))
        /\ api_calls w' = api_calls w
        /\ (forall dt c w'',
              redis_fault env (S (redis_commands w)) = None ->
              loadReports env crdPlural (elapse dt w') = (c, w'') ->
              api_calls w'' =
                (api_calls w ++ match current_cluster_name env with
                                | Some _ => expected_calls env crdPlural
                                | None => []
                                end)%list)).
Proof.
  split.
  - intros msg Hf. unfold invalidateCache, redisClient_del, redis_command. rewrite Hf.
    reflexivity.
  - intros Hok. rewrite (invalidateCache_run crdPlural w Hok). eexists. split; [reflexivity|].
    simpl. split; [apply lookup_delete_eq|]. split; [|split; [|split; [reflexivity|]]].
    + apply lookup_delete_ne. exact (reports_key_not_crds_key crdPlural).
    + intros q Hq. apply lookup_delete_ne. intros Heq. apply Hq. symmetry.
      apply reports_key_inj. exact Heq.
    + intros dt c w'' Hnext Hrun. destruct (loadReports_frame _ _ _ _ _ Hrun) as (Ha & _).
      simpl in Ha. rewrite Hnext in Ha.
      replace (hit (reports_key crdPlural) _) with (@None CachedText) in Ha; [exact Ha|].
      unfold hit, live. simpl. rewrite lookup_delete_eq. reflexivity.
Qed.

(** ** What the payloads say *)

Lemma tagged_payload d crdPlural :
  resource d = Some crdPlural ->
  tagged crdPlural (ReportsData_to_js d).
Proof.
  destruct d as [ms c s [e|] [r|]]; simpl; intros [= ->]; unfold tagged; simpl; eauto.
Qed.

Lemma cache_tagged_insert w w' crdPlural v ttl :
  cache_tagged w -> tagged crdPlural v ->
  redis w' = <[reports_key crdPlural := {| text := JsonText v; expires_at := ttl |}]> (redis w) ->
  cache_tagged w'.
Proof.
  intros Hsound Hv Hredis q e. rewrite Hredis.
  destruct (decide (reports_key crdPlural = reports_key q)) as [Heq|Hne].
  - rewrite Heq, lookup_insert_eq. intros [= <-].
    apply reports_key_inj in Heq as <-. eauto.
  - rewrite lookup_insert_ne by assumption. apply Hsound.
Qed.

(** X9.  The payloads name their plural.  When every report entry of the
    store is an object whose [resource] is the plural of its key, with a
    list of [manifests] and a [clusterName], then whatever [loadReports]
    returns for a plural names that plural as its [resource] and has a list
    of [manifests] and a [clusterName], served from the cache or fetched,
    and the store it leaves is of the same kind. *)
Theorem loadReports_tagged (crdPlural : string) (w : World) (r : JSValue) (w' : World) :
  cache_tagged w ->
  loadReports env crdPlural w = (Normal r, w') ->
  (own_field r "resource" = Some (VStr crdPlural)
   /\ (exists ms, own_field r "manifests" = Some (VArr ms))
   /\ (exists c, own_field r "clusterName" = Some (VStr c)))
  /\ cache_tagged w'.
Proof.
  intros Hsound. rewrite loadReports_unfold.
  destruct (redis_fault env (redis_commands w)); [discriminate|].
  destruct (hit (reports_key crdPlural) w) as [t|] eqn:Hhit.
  - intros [= Hparse <-]. destruct (hit_lookup _ _ _ Hhit) as (e & He & <-).
    destruct (Hsound _ _ He) as (v & Hv & Hinv). rewrite Hv in Hparse.
    injection Hparse as <-. split; [exact Hinv | exact Hsound].
  - destruct (current_cluster_name env); [|discriminate]. unfold try_catch.
    destruct (fetch_reports env crdPlural (count_command w)) as [[data|e] w1] eqn:Hfetch.
    + intros [= <- <-].
      destruct (fetch_reports_normal _ _ _ _ _ Hfetch)
        as (spec & version & ms & t & ttl & _ & _ & -> & Hs & _ & _ & Hredis & _).
      split; [apply tagged_payload; reflexivity|].
      destruct (JSON_stringify_ReportsData _ _ Hs) as (images & _ & ->).
      eapply (cache_tagged_insert (count_command w)); [exact Hsound| |exact Hredis].
      apply tagged_payload. reflexivity.
    + intros Hfail. destruct (fetch_reports_throws _ _ _ _ _ Hfetch) as [Hr _].
      destruct (fail_reports_normal _ _ _ _ _ _ Hfail) as (-> & ttl & _ & _ & Hredis & _).
      assert (Htag : tagged crdPlural
                       (ReportsData_to_js (error_payload (message_of e) crdPlural)))
        by (apply tagged_payload; reflexivity).
      split; [exact Htag|].
      eapply (cache_tagged_insert w1); [|exact Htag|exact Hredis].
      intros q e0. rewrite Hr. apply Hsound.
Qed.

End Calls.

(** ** Staleness and recovery

    The cluster and the connection to the store change over time: the
    environment of a later call need not be that of the earlier one. *)

Section Staleness.
Context `{Engine}.

(** X10.  A failure is remembered, a recovery is not seen.  After a call of
    [loadReports] whose fetch failed (with a current cluster in the
    kubeconfig and a store that takes the read and the write), the error
    payload is what every call for that plural returns until the entry
    expires, without asking the cluster, whatever the cluster would answer
    by then; the first call at or after the expiry asks the cluster again,
    when the kubeconfig still has a current cluster. *)
Theorem loadReports_failure_sticks (env env2 : Env) (crdPlural : string) (w : World)
    (name : string) (ttl : Z) (e : Exn) (w1 : World) :
  current_cluster_name env = Some name ->
  CACHE_DURATION env = Some ttl -> SETEX_refusal (clock w) ttl = None ->
  redis_fault env (redis_commands w) = None ->
  hit (reports_key crdPlural) w = None ->
  fetch_fails env crdPlural (count_command w) e w1 ->
  redis_fault env (redis_commands w1) = None ->
  let payload := obj [ ("manifests", VArr []);
                       ("clusterName", VStr "Unknown Cluster");
                       ("scope", VStr "Unknown");
                       ("error", VStr match e with
                                      | JSError _ message => message
                                      | ThrownValue => "Unknown error"
                                      end);
                       ("resource", VStr crdPlural) ] in
  exists w',
    loadReports env crdPlural w = (Normal payload, w')
    /\ (forall dt, 0 <= dt < ttl ->
          redis_fault env2 (redis_commands w') = None ->
          exists w'',
            loadReports env2 crdPlural (elapse dt w') = (Normal payload, w'')
            /\ api_calls w'' = api_calls w')
    /\ (forall dt c w'', ttl <= dt ->
          redis_fault env2 (redis_commands w') = None ->
          loadReports env2 crdPlural (elapse dt w') = (c, w'') ->
          api_calls w'' =
            (api_calls w' ++ match current_cluster_name env2 with
                             | Some _ => expected_calls env2 crdPlural
                             | None => []
                             end)%list).
Proof.
  intros Hname Hd Htakes Hget Hmiss Hfail Hset payload.
  pose proof (fetch_fails_throws _ _ _ _ _ Hfail) as Hthrow.
  destruct (loadReports_fails_run env crdPlural w name ttl e w1 Hname Hd Htakes Hget Hmiss
              Hthrow Hset) as (w' & -> & Hr' & Hc' & _).
  assert (Hpay : ReportsData_to_js (error_payload (message_of e) crdPlural) = payload)
    by (destruct e; reflexivity).
  rewrite Hpay in *. exists w'. split; [reflexivity|].
  assert (Hhit : forall dt, hit (reports_key crdPlural) (elapse dt w')
                            = if dt <? ttl then Some (JsonText payload) else None).
  { intros dt. apply (hit_insert _ payload ttl dt w' w); [exact Hr' | exact Hc']. }
  split.
  - intros dt Hdt Hok. exists (count_command (elapse dt w')).
    split; [|reflexivity].
    rewrite (loadReports_hit env2 crdPlural (elapse dt w') (JsonText payload));
      [reflexivity|exact Hok|].
    rewrite Hhit. destruct (Z.ltb_spec dt ttl); [reflexivity | lia].
  - intros dt c w'' Hdt Hok Hrun.
    destruct (loadReports_frame env2 _ _ _ _ Hrun) as (Ha & _).
    simpl in Ha. rewrite Hok, Hhit in Ha.
    destruct (Z.ltb_spec dt ttl); [lia | exact Ha].
Qed.

End Staleness.

(** ** The discovery *)

Section DiscoveryFurther.
Context `{Engine}.

(** X11.  The calls of [listAllAquaSecurityCRDs], however it ends: none
    when it is served from the cache, stopped by an error of the first
    read, or run with a kubeconfig that has no current cluster (the client
    is made inside the [try], and the call then answers the empty list);
    otherwise exactly one, the listing of all CRDs of the cluster.  It
    writes to the discovery key only: the report entries of the plurals
    hold what they held. *)
Theorem listAllAquaSecurityCRDs_calls (env : Env) (w : World) (c : Completion JSValue)
    (w' : World) :
  listAllAquaSecurityCRDs env w = (c, w') ->
  api_calls w' =
    (api_calls w ++
     match redis_fault env (redis_commands w), hit "aqua_security_crds" w,
           current_cluster_name env with
     | None, None, Some _ =>
         [listClusterCustomObject "apiextensions.k8s.io" "v1" "customresourcedefinitions"]
     | _, _, _ => []
     end)%list
  /\ (forall k, k <> "aqua_security_crds" -> redis w' !! k = redis w !! k)
  /\ (forall q, redis w' !! ("reports:" ++ q) = redis w !! ("reports:" ++ q)).
Proof.
  intros Hrun. destruct (discovery_frame _ _ _ _ Hrun) as (Ha & _ & Hframe).
  split; [exact Ha|]. split; [exact Hframe|].
  intros q. apply Hframe. exact (reports_key_not_crds_key q).
Qed.

(** X12.  The list of CRDs is as old as its cache entry.  After a discovery
    that went through (with a current cluster in the kubeconfig and a store
    that takes the read and the write), every call made before the
    configured duration has passed returns what was stored then, without
    asking the cluster, whatever the cluster would answer by then: a CRD
    installed or removed in the meantime is not seen.  The first call at or
    after the expiry asks the cluster again, when the kubeconfig still has
    a current cluster. *)
Theorem listAllAquaSecurityCRDs_stale (env env2 : Env) (w : World) (name : string) (ttl : Z)
    (response : option (list CRD)) :
  current_cluster_name env = Some name ->
  CACHE_DURATION env = Some ttl -> SETEX_refusal (clock w) ttl = None ->
  redis_fault env (redis_commands w) = None ->
  redis_fault env (S (redis_commands w)) = None ->
  hit crds_key w = None ->
  all_crds (cluster env) = inr response ->
  redis_fault env2 (S (S (redis_commands w))) = None ->
  exists r1 w1 cached,
    listAllAquaSecurityCRDs env w = (Normal r1, w1)
    /\ JSON_roundtrip "" r1 = Normal (Some cached)
    /\ (forall dt, 0 <= dt < ttl ->
          exists w2,
            listAllAquaSecurityCRDs env2 (elapse dt w1) = (Normal cached, w2)
            /\ api_calls w2 = api_calls w1)
    /\ (forall dt c w2, ttl <= dt ->
          listAllAquaSecurityCRDs env2 (elapse dt w1) = (c, w2) ->
          api_calls w2 =
            (api_calls w1 ++
             match current_cluster_name env2 with
             | Some _ => [listClusterCustomObject "apiextensions.k8s.io" "v1"
                            "customresourcedefinitions"]
             | None => []
             end)%list).
Proof.
  intros Hname Hd Htakes Hget Hset Hmiss Hcrds Hnext.
  destruct (discovery_stores env w name ttl response Hname Hd Htakes Hget Hset Hmiss Hcrds)
    as (r1 & w1 & cached & Hrun & _ & Hj & Hr & Hc & Hn).
  exists r1, w1, cached. split; [exact Hrun|]. split; [exact Hj|].
  assert (Hhit : forall dt, hit crds_key (elapse dt w1)
                            = if dt <? ttl then Some (JsonText cached) else None).
  { intros dt. apply (hit_insert _ cached ttl dt w1 w); assumption. }
  split.
  - intros dt Hdt. exists (count_command (elapse dt w1)). split; [|reflexivity].
    rewrite listAllAquaSecurityCRDs_unfold. simpl. rewrite Hn, Hnext, Hhit.
    destruct (Z.ltb_spec dt ttl); [reflexivity | lia].
  - intros dt c w2 Hdt Hrun2. destruct (discovery_frame _ _ _ _ Hrun2) as (Ha & _).
    simpl in Ha. rewrite Hn, Hnext, Hhit in Ha.
    destruct (Z.ltb_spec dt ttl); [lia | exact Ha].
Qed.

(** X13.  A failed discovery leaves nothing behind.  When the kubeconfig
    has no current cluster, or the cluster rejects the listing of the CRDs,
    the operation logs the error, answers the empty list and stores nothing
    (unlike [loadReports], which caches its failures): the next call,
    however soon, goes through the [try] again, and asks the cluster when
    the kubeconfig has a current cluster by then. *)
Theorem discovery_failure_not_remembered (env env2 : Env) (w : World) (msg : string) :
  redis_fault env (redis_commands w) = None ->
  hit crds_key w = None ->
  ((current_cluster_name env = None /\ msg = "No active cluster!")
   \/ (exists name, current_cluster_name env = Some name
                    /\ all_crds (cluster env) = inl msg)) ->
  exists w1,
    listAllAquaSecurityCRDs env w = (Normal (VArr []), w1)
    /\ console w1
       = (console w ++ [(Error, ("Critical error fetching Aqua CRDs: " ++ msg)%string)])%list
    /\ redis w1 = redis w
    /\ (forall dt c w2, 0 <= dt ->
          redis_fault env2 (redis_commands w1) = None ->
          listAllAquaSecurityCRDs env2 (elapse dt w1) = (c, w2) ->
          api_calls w2 =
            (api_calls w1 ++
             match current_cluster_name env2 with
             | Some _ => [listClusterCustomObject "apiextensions.k8s.io" "v1"
                            "customresourcedefinitions"]
             | None => []
             end)%list).
Proof.
  intros Hget Hmiss Hfailed.
  rewrite listAllAquaSecurityCRDs_unfold, Hget, Hmiss.
  assert (Hthrow : exists w0,
            fetch_crds env (count_command w) = (Throw (JSError "Error" msg), w0)
            /\ redis w0 = redis w /\ clock w0 = clock w /\ console w0 = console w).
  { unfold fetch_crds, bind, makeApiClient, throw, ret.
    destruct Hfailed as [[-> ->]|(name & -> & Hcrds)]; [eauto 6|].
    unfold api. rewrite Hcrds. eauto 6. }
  destruct Hthrow as (w0 & Hthrow & Hr0 & Hc0 & Hl0).
  unfold try_catch. rewrite Hthrow.
  destruct (fail_crds_run (JSError "Error" msg) w0) as (w1 & -> & Hr & Hc & _ & _ & Hl).
  exists w1. split; [reflexivity|]. split; [rewrite Hl, Hl0; reflexivity|].
  split; [congruence|].
  intros dt c w2 Hdt Hnext Hrun. destruct (discovery_frame _ _ _ _ Hrun) as (Ha & _).
  change (redis_commands (elapse dt w1)) with (redis_commands w1) in Ha.
  rewrite Hnext, (miss_persists crds_key w w1 dt Hmiss) in Ha by (congruence || assumption).
  exact Ha.
Qed.


End DiscoveryFurther.

(** ** The in-process variant, further *)

(** X15.  The calls of the in-process [loadReports]: none when the entry of
    the plural is fresh or the kubeconfig has no current cluster, otherwise
    exactly one, and always the listing across all namespaces (the variant
    never looks up the CRD or its scope).  It writes to the entry of the
    plural only; what it returns is what that entry holds afterwards; and
    it throws only when it finds no fresh entry and the kubeconfig has no
    current cluster, leaving everything as it was. *)
Theorem Simple_loadReports_calls (env : Env) (crdPlural : string) (w : Simple.World)
    (c : Completion JSValue) (w' : Simple.World) :
  Simple.loadReports env crdPlural w = (c, w') ->
  Simple.api_calls w' =
    (Simple.api_calls w ++
     match Simple.fresh crdPlural w, current_cluster_name env with
     | None, Some _ =>
         [listCustomObjectForAllNamespaces "aquasecurity.github.io" "v1alpha1" crdPlural]
     | _, _ => []
     end)%list
  /\ (forall q, q <> crdPlural -> Simple.cache w' !! q = Simple.cache w !! q)
  /\ (forall r, c = Normal r ->
        exists e, Simple.cache w' !! crdPlural = Some e /\ Simple.data e = r)
  /\ (forall e, c = Throw e ->
        e = JSError "Error" "No active cluster!" /\ w' = w
        /\ Simple.fresh crdPlural w = None /\ current_cluster_name env = None).
Proof.
  destruct (Simple.fresh crdPlural w) as [e|] eqn:Hfresh.
  - rewrite (Simple_loadReports_hit env crdPlural w e Hfresh). intros [= <- <-].
    rewrite app_nil_r. split; [reflexivity|]. split; [reflexivity|]. split.
    + intros r [= <-]. exists e. split; [exact (Simple_fresh_lookup _ _ _ Hfresh) | reflexivity].
    + intros e0 He0. discriminate He0.
  - destruct (current_cluster_name env) as [name|] eqn:Hname.
    + destruct (Simple_loadReports_miss env crdPlural w name Hname Hfresh) as (r0 & ->).
      intros [= <- <-]. simpl. split; [reflexivity|]. split; [|split].
      * intros q Hq. apply lookup_insert_ne. congruence.
      * intros r [= <-]. eexists. split; [apply lookup_insert_eq | reflexivity].
      * intros e He. discriminate He.
    + rewrite (Simple_loadReports_no_cluster env crdPlural w Hname Hfresh).
      intros [= <- <-]. rewrite app_nil_r. split; [reflexivity|]. split; [reflexivity|]. split.
      * intros r Hr. discriminate Hr.
      * intros e [= <-]. auto.
Qed.

(** X16.  The in-process entry lives 300 000 milliseconds, whatever it
    holds.  After a call that found no fresh entry and listed the instances
    (the kubeconfig having a current cluster), a call less than that later
    returns the value of the first call (its error, if the listing had
    failed) without asking the cluster, whatever the cluster and the
    kubeconfig would answer by then; a call at that age or later lists the
    instances again and restamps the entry with its own time when the
    kubeconfig has a current cluster, and throws when it has none. *)
Theorem Simple_loadReports_expiry (env env2 : Env) (crdPlural : string) (w : Simple.World)
    (name : string) (dt : Z) :
  current_cluster_name env = Some name ->
  Simple.fresh crdPlural w = None ->
  exists r1 w1,
    Simple.loadReports env crdPlural w = (Normal r1, w1)
    /\ (dt < 300000 ->
        Simple.loadReports env2 crdPlural (Simple.elapse dt w1)
        = (Normal r1, Simple.elapse dt w1))
    /\ (300000 <= dt ->
        (forall name2, current_cluster_name env2 = Some name2 ->
           exists r2 w2,
             Simple.loadReports env2 crdPlural (Simple.elapse dt w1) = (Normal r2, w2)
             /\ Simple.api_calls w2 =
                (Simple.api_calls w1 ++
                 [listCustomObjectForAllNamespaces "aquasecurity.github.io" "v1alpha1"
                    crdPlural])%list
             /\ Simple.cache w2 !! crdPlural =
                Some {| Simple.data := r2; Simple.timestamp := Simple.now w + dt |})
        /\ (current_cluster_name env2 = None ->
            Simple.loadReports env2 crdPlural (Simple.elapse dt w1)
            = (Throw (JSError "Error" "No active cluster!"), Simple.elapse dt w1))).
Proof.
  intros Hname Hmiss.
  destruct (Simple_loadReports_miss env crdPlural w name Hname Hmiss) as (r1 & Hrun).
  eexists _, _. split; [exact Hrun|].
  match goal with |- context [Simple.elapse dt ?W] => set (w1 := W) end.
  assert (Hfresh : Simple.fresh crdPlural (Simple.elapse dt w1)
                   = if dt <? 300000
                     then Some {| Simple.data := r1; Simple.timestamp := Simple.now w |}
                     else None).
  { unfold Simple.fresh, w1. simpl. rewrite lookup_insert_eq. simpl.
    replace (Simple.now w + dt - Simple.now w) with dt by lia. reflexivity. }
  split.
  - intros Hdt. apply Z.ltb_lt in Hdt. rewrite Hdt in Hfresh.
    rewrite (Simple_loadReports_hit env2 _ _ _ Hfresh). reflexivity.
  - intros Hdt. destruct (Z.ltb_spec dt 300000); [lia|]. split.
    + intros name2 Hname2.
      destruct (Simple_loadReports_miss env2 crdPlural _ name2 Hname2 Hfresh) as (r2 & ->).
      eexists _, _. split; [reflexivity|]. split; [reflexivity|].
      simpl. apply lookup_insert_eq.
    + intros Hnone. exact (Simple_loadReports_no_cluster env2 crdPlural _ Hnone Hfresh).
Qed.

(** ** Paths *)

Section Paths.
Context `{Engine}.

Lemma split_nonempty sep s : split sep s <> [].
Proof.
  destruct s as [|c rest]; simpl; [discriminate|].
  destruct (Ascii.eqb c sep); [discriminate|]. destruct (split sep rest); discriminate.
Qed.

(** Splitting at a dot that is written out. *)
Lemma split_app_dot a rest :
  split "." (a ++ String "." rest) = (split "." a ++ split "." rest)%list.
Proof.
  induction a as [|c a' IH]; simpl; [reflexivity|].
  destruct (Ascii.eqb c "."); [rewrite IH; reflexivity|].
  rewrite IH. pose proof (split_nonempty "." a') as Hne.
  destruct (split "." a'); [contradiction | reflexivity].
Qed.

Lemma split_dot_free a : dot_free a = true -> split "." a = [a].
Proof.
  induction a as [|c a' IH]; simpl; [reflexivity|].
  destruct (Ascii.eqb c "."); simpl; [discriminate|]. intros Hfree. rewrite (IH Hfree).
  reflexivity.
Qed.

(** X17.  [extractValue] never looks at the first segment of the path:
    what stands before the first dot only matters to the timestamp rule,
    which reads the whole path.  Two paths that differ in their first
    segment alone give the same result when the rule treats them alike (so
    [metadata.name] reads [name], not [metadata.name]); and a path without
    a dot has no segment left to read: outside the timestamp rule it gives
    the record itself. *)
Theorem extractValue_first_segment (o : JSValue) (a b rest : string) :
  dot_free a = true -> dot_free b = true ->
  (timestamp_path (a ++ "." ++ rest) = timestamp_path (b ++ "." ++ rest) ->
   extractValue o (a ++ "." ++ rest) = extractValue o (b ++ "." ++ rest))
  /\ (a <> "" -> truthy o = true -> timestamp_path a = false ->
      extractValue o a = Normal o).
Proof.
  intros Ha Hb. split.
  - intros Hrule. unfold extractValue.
    assert (Hne : forall s, String.eqb (s ++ "." ++ rest) "" = false)
      by (intros [|c s]; reflexivity).
    rewrite !Hne, Hrule.
    change (a ++ "." ++ rest) with (a ++ String "." rest).
    change (b ++ "." ++ rest) with (b ++ String "." rest).
    rewrite !split_app_dot, (split_dot_free a Ha), (split_dot_free b Hb). reflexivity.
  - intros Hne Ht Hrule. rewrite extractValue_walk by assumption.
    rewrite (split_dot_free a Ha). simpl. rewrite Hrule, andb_false_r. reflexivity.
Qed.

End Paths.

(** ** The report table *)

Lemma clicks_snoc before last s :
  clicks (before ++ [last]) s = ReportTable.toggleSort last (clicks before s).
Proof. unfold clicks. rewrite fold_left_app. reflexivity. Qed.

(** X18.  The sort state is a two-state switch per column.  A click on a
    header makes it the sorted column, and the direction after it is
    ["asc"] or ["desc"], whatever it was before.  Clicks on one header that
    was not the sorted column alternate, starting with ["asc"]: after an
    odd number of them the table is sorted ascending, after an even number
    descending. *)
Theorem toggleSort_alternates (column : string) (s : ReportTable.SortState) :
  (forall before last,
     ReportTable.sortColumn (clicks (before ++ [last]) s) = last
     /\ (ReportTable.sortDirection (clicks (before ++ [last]) s) = "asc"
         \/ ReportTable.sortDirection (clicks (before ++ [last]) s) = "desc"))
  /\ (ReportTable.sortColumn s <> column ->
      forall n,
        clicks (repeat column (S n)) s =
          {| ReportTable.sortColumn := column;
             ReportTable.sortDirection := if Nat.even n then "asc" else "desc" |}).
Proof.
  split.
  - intros before last. rewrite clicks_snoc. unfold ReportTable.toggleSort.
    destruct (String.eqb_spec (ReportTable.sortColumn (clicks before s)) last) as [Heq|Hne];
      simpl; [|auto].
    split; [exact Heq|].
    destruct (String.eqb (ReportTable.sortDirection (clicks before s)) "asc"); auto.
  - intros Hother n. induction n as [|n IH].
    + simpl. unfold ReportTable.toggleSort.
      destruct (String.eqb_spec (ReportTable.sortColumn s) column); [contradiction|reflexivity].
    + replace (repeat column (S (S n))) with (repeat column (S n) ++ [column])%list
        by (symmetry; apply (repeat_cons (S n) column)).
      rewrite clicks_snoc, IH. unfold ReportTable.toggleSort.
      cbn [ReportTable.sortColumn ReportTable.sortDirection].
      rewrite String.eqb_refl, Nat.even_succ, <- Nat.negb_even.
      destruct (Nat.even n); reflexivity.
Qed.

Section CsvFields.
Variable ToString : JSValue -> Completion string.

Lemma includes_char c s : includes s (String c EmptyString) = occurs c s.
Proof.
  induction s as [|c' rest IH]; [reflexivity|].
  cbn [includes occurs String.prefix]. rewrite IH.
  destruct (ascii_dec c c') as [->|Hne].
  - rewrite Ascii.eqb_refl. destruct rest; reflexivity.
  - destruct (Ascii.eqb_spec c' c) as [->|_]; [contradiction|reflexivity].
Qed.

Lemma occurs_head c s : occurs c (String c s) = true.
Proof. cbn [occurs]. rewrite Ascii.eqb_refl. reflexivity. Qed.

Lemma count_char_app c a b :
  count_char c (a ++ b) = (count_char c a + count_char c b)%nat.
Proof. induction a as [|c' a' IH]; simpl; [reflexivity|]. rewrite IH. lia. Qed.

Lemma count_char_absent c s : occurs c s = false -> count_char c s = 0%nat.
Proof.
  induction s as [|c' rest IH]; simpl; [reflexivity|].
  destruct (Ascii.eqb c' c); simpl; [discriminate|exact IH].
Qed.

Lemma count_double_quotes s :
  count_char ReportTable.quote (ReportTable.double_quotes s)
  = (2 * count_char ReportTable.quote s)%nat.
Proof.
  induction s as [|c rest IH]; simpl; [reflexivity|].
  destruct (Ascii.eqb_spec c ReportTable.quote) as [->|Hne]; simpl.
  - rewrite IH. lia.
  - destruct (Ascii.eqb_spec c ReportTable.quote); [contradiction|]. rewrite IH. lia.
Qed.

Lemma double_quotes_inj a : forall b,
  (ReportTable.double_quotes a ++ String ReportTable.quote EmptyString
   = ReportTable.double_quotes b ++ String ReportTable.quote EmptyString)%string ->
  a = b.
Proof.
  induction a as [|c a' IH]; intros [|d b']; simpl; try reflexivity.
  - destruct (Ascii.eqb_spec d ReportTable.quote) as [->|Hne]; simpl; intros Heq;
      [discriminate Heq|]. injection Heq as Hd _. congruence.
  - destruct (Ascii.eqb_spec c ReportTable.quote) as [->|Hne]; simpl; intros Heq;
      [discriminate Heq|]. injection Heq as Hc _. congruence.
  - destruct (Ascii.eqb_spec c ReportTable.quote) as [->|Hc],
             (Ascii.eqb_spec d ReportTable.quote) as [->|Hd]; simpl; intros Heq.
    + injection Heq as Heq. f_equal. apply IH, Heq.
    + injection Heq as Hq _. congruence.
    + injection Heq as Hq _. congruence.
    + injection Heq as -> Heq. f_equal. apply IH, Heq.
Qed.

(** X19.  The CSV field of a string.  [escapeCsvValue] never throws on a
    string, and the field it makes is well formed and can be read back: it
    holds an even number of double quotes (none at all when the string is
    left as it is); a field with a comma or a line feed in it starts with a
    double quote; and two different strings never give the same field. *)
Theorem escapeCsvValue_string (a : string) :
  exists field,
    ReportTable.escapeCsvValue ToString (VStr a) = Normal field
    /\ Nat.even (count_char ReportTable.quote field) = true
    /\ (occurs "," field || occurs ReportTable.newline field = true ->
        exists rest, field = String ReportTable.quote rest)
    /\ (forall b, ReportTable.escapeCsvValue ToString (VStr b) = Normal field -> a = b).
Proof.
  unfold ReportTable.escapeCsvValue. rewrite !includes_char.
  destruct (occurs "," a || occurs ReportTable.quote a || occurs ReportTable.newline a)
    eqn:Hspecial.
  - eexists. split; [reflexivity|]. split; [|split].
    + cbn [count_char]. rewrite Ascii.eqb_refl, count_char_app, count_double_quotes.
      cbn [count_char]. rewrite Ascii.eqb_refl.
      replace (1 + (2 * count_char ReportTable.quote a + (1 + 0)))%nat
        with (2 * (1 + count_char ReportTable.quote a))%nat by lia.
      apply Nat.even_spec. eexists. reflexivity.
    + intros _. eauto.
    + intros b. rewrite !includes_char.
      destruct (occurs "," b || occurs ReportTable.quote b || occurs ReportTable.newline b)
        eqn:Hb.
      * intros [= Heq]. symmetry. apply double_quotes_inj. exact Heq.
      * intros [= ->]. rewrite occurs_head, orb_true_r in Hb. discriminate Hb.
  - apply orb_false_iff in Hspecial as [Hcq Hn]. apply orb_false_iff in Hcq as [Hc Hq].
    exists a. split; [reflexivity|]. split; [|split].
    + rewrite (count_char_absent _ _ Hq). reflexivity.
    + rewrite Hc, Hn. discriminate.
    + intros b. rewrite !includes_char.
      destruct (occurs "," b || occurs ReportTable.quote b || occurs ReportTable.newline b).
      * intros [= <-]. rewrite occurs_head in Hq. discriminate Hq.
      * intros [= ->]. reflexivity.
Qed.

End CsvFields.

Section PathReads.
Context `{Engine}.
Variable prim_get : JSValue -> string -> Completion JSValue.

Lemma reduce_parts_app l1 : forall l2 acc,
  ReportTable.reduce_parts prim_get (l1 ++ l2)%list acc =
    match ReportTable.reduce_parts prim_get l1 acc with
    | Normal v => ReportTable.reduce_parts prim_get l2 v
    | Throw e => Throw e
    end.
Proof.
  induction l1 as [|part rest IH]; intros l2 acc; [reflexivity|].
  cbn [ReportTable.reduce_parts app]. destruct (truthy acc); [|apply IH].
  destruct (ReportTable.read prim_get acc part) as [next|e]; [|reflexivity].
  cbn [cbind]. apply IH.
Qed.

Lemma reduce_parts_falsy parts : forall v,
  truthy v = false -> ReportTable.reduce_parts prim_get parts v = Normal v.
Proof.
  induction parts as [|part rest IH]; intros v Hv; [reflexivity|].
  cbn [ReportTable.reduce_parts]. rewrite Hv. apply IH, Hv.
Qed.

(** Segments that are direct keys are read one after the other. *)
Lemma reduce_parts_direct parts : forall v x,
  direct_lookup parts v = Some x -> ReportTable.reduce_parts prim_get parts v = Normal x.
Proof.
  induction parts as [|part rest IH]; intros v x; [simpl; congruence|].
  cbn [direct_lookup ReportTable.reduce_parts].
  destruct v as [| | | | |elems|proto props|b]; try discriminate.
  - destruct (array_own_get elems part) as [y|] eqn:Hown; [|discriminate].
    intros Hd. cbn [truthy ReportTable.read js_get Get_from]. rewrite Hown. cbn [cbind].
    apply IH, Hd.
  - destruct (own_get part props) as [y|] eqn:Hown; [|discriminate].
    intros Hd. cbn [truthy ReportTable.read js_get Get_from]. rewrite Hown. cbn [cbind].
    apply IH, Hd.
Qed.

(** The path [get] walks, once the leading dot is gone. *)
Lemma get_walks o path :
  truthy o = true -> path <> "" ->
  ReportTable.get prim_get o path =
    ReportTable.reduce_parts prim_get
      (split "." match path with
                 | String c rest => if Ascii.eqb c "." then rest else path
                 | EmptyString => path
                 end) o.
Proof.
  intros Ht Hne. unfold ReportTable.get. rewrite Ht.
  destruct (String.eqb_spec path ""); [contradiction|reflexivity].
Qed.

(** X20.  The table reads what the server extracted.  For a path of direct
    keys written with its leading dot, [get] of the table gives the nested
    value, and so does [extractValue] of the server outside its timestamp
    rule; [get] gives the same value for the path written without the
    leading dot, where [extractValue] would skip the first segment. *)
Theorem get_direct_path (o : JSValue) (c : ascii) (p : string) (x : JSValue) :
  direct_lookup (split "." (String c p)) o = Some x ->
  Ascii.eqb c "." = false ->
  ReportTable.get prim_get o ("." ++ String c p) = Normal x
  /\ ReportTable.get prim_get o (String c p) = Normal x
  /\ (plain o = true -> truthy x && timestamp_path ("." ++ String c p) = false ->
      extractValue o ("." ++ String c p) = Normal x).
Proof.
  intros Hd Hc.
  assert (Ht : truthy o = true).
  { pose proof (split_nonempty "." (String c p)) as Hne.
    destruct (split "." (String c p)); [contradiction|].
    destruct o; simpl in Hd; try discriminate; reflexivity. }
  split; [|split].
  - rewrite get_walks by (auto; discriminate). cbn [append]. cbn [Ascii.eqb eqb].
    apply reduce_parts_direct, Hd.
  - rewrite get_walks by (auto; discriminate). rewrite Hc.
    apply reduce_parts_direct, Hd.
  - intros Hplain Hrule. rewrite extractValue_walk by (auto; discriminate).
    change (tail (split "." ("." ++ String c p))) with (split "." (String c p)).
    rewrite (walk_direct _ _ _ Hplain Hd), Hrule. reflexivity.
Qed.

(** X21.  [get] stops at a falsy value and gives that value back: when the
    walk along a path ends on [0], the empty string, [false], [null] or
    [undefined], any longer path through it gives the same value, not
    [undefined]. *)
Theorem get_keeps_falsy (o : JSValue) (p rest : string) (v : JSValue) :
  p <> "" ->
  ReportTable.get prim_get o p = Normal v ->
  truthy v = false ->
  ReportTable.get prim_get o (p ++ "." ++ rest) = Normal v.
Proof.
  intros Hne Hget Hv. destruct (truthy o) eqn:Ht.
  - rewrite get_walks in Hget by assumption.
    destruct p as [|c p']; [contradiction|].
    rewrite (get_walks o (String c p' ++ "." ++ rest) Ht) by discriminate.
    change (String c p' ++ "." ++ rest) with (String c (p' ++ String "." rest)).
    cbv beta iota. destruct (Ascii.eqb c ".").
    + rewrite split_app_dot, reduce_parts_app, Hget. apply reduce_parts_falsy, Hv.
    + change (String c (p' ++ String "." rest)) with (String c p' ++ String "." rest).
      rewrite split_app_dot, reduce_parts_app, Hget. apply reduce_parts_falsy, Hv.
  - unfold ReportTable.get in *. rewrite Ht in *. simpl in *. exact Hget.
Qed.

End PathReads.

Section TableColumns.
Variable toLowerCase : string -> string.

Lemma in_names_elem_of k names : in_names k names = true <-> k ∈ names.
Proof.
  unfold in_names. rewrite existsb_exists, list_elem_of_In. split.
  - intros (x & Hin & Heq). apply String.eqb_eq in Heq as ->. exact Hin.
  - intros Hin. exists k. split; [exact Hin | apply String.eqb_refl].
Qed.

Lemma has_own_elem_of k (props : JSObject) :
  has_own k props = true <-> k ∈ List.map fst props.
Proof.
  unfold has_own. induction props as [|[k0 v0] rest IH]; simpl.
  - split; [discriminate | intros Hin; inversion Hin].
  - rewrite elem_of_cons. destruct (String.eqb_spec k0 k) as [->|Hne].
    + split; auto.
    + rewrite IH. split; [auto | intros [Heq|Hin]; [congruence | exact Hin]].
Qed.

Lemma elem_of_insert_index n k n0 k0 l :
  (n, k) ∈ ReportTable.insert_index n0 k0 l <-> (n, k) = (n0, k0) \/ (n, k) ∈ l.
Proof.
  induction l as [|[m k'] rest IH]; simpl.
  - rewrite list_elem_of_singleton. split; [auto | intros [Heq|Hin]; [exact Heq | inversion Hin]].
  - destruct (n0 <? m).
    + rewrite elem_of_cons. reflexivity.
    + rewrite !elem_of_cons, IH. tauto.
Qed.

(** The keys [Object.keys] lists are the own keys, whatever their order. *)
Lemma elem_of_Object_keys k (props : JSObject) :
  k ∈ ReportTable.Object_keys props <-> has_own k props = true.
Proof.
  rewrite has_own_elem_of. unfold ReportTable.Object_keys.
  generalize (List.map fst props) as names. intros names.
  assert (Hidx : forall n, (n, k) ∈ fold_right
                   (fun k acc => match ReportTable.index_key k with
                                 | Some n => ReportTable.insert_index n k acc
                                 | None => acc
                                 end) [] names
                 <-> k ∈ names /\ ReportTable.index_key k = Some n).
  { intros n. induction names as [|k0 rest IH]; simpl.
    - split; [intros Hin; inversion Hin | intros [Hin _]; inversion Hin].
    - rewrite elem_of_cons. destruct (ReportTable.index_key k0) as [n0|] eqn:Hk0.
      + rewrite elem_of_insert_index, IH. split.
        * intros [[= -> ->]|[Hin Hn]]; auto.
        * intros [[->|Hin] Hn]; [left; congruence | auto].
      + rewrite IH. split; [tauto|]. intros [[->|Hin] Hn]; [congruence | auto]. }
  rewrite elem_of_app, !list_elem_of_In, in_map_iff, filter_In, <- !list_elem_of_In.
  split.
  - intros [([n k'] & Heq & Hin)|[Hin _]]; [|exact Hin]. simpl in Heq. subst k'.
    apply list_elem_of_In in Hin. apply (Hidx n), Hin.
  - intros Hin. destruct (ReportTable.index_key k) as [n|] eqn:Hk.
    + left. exists (n, k). split; [reflexivity|]. apply list_elem_of_In, Hidx. auto.
    + right. auto.
Qed.

Lemma set_add_spec key allKeys :
  NoDup allKeys ->
  NoDup (ReportTable.set_add key allKeys)
  /\ forall k, k ∈ ReportTable.set_add key allKeys <-> k = key \/ k ∈ allKeys.
Proof.
  intros Hnodup. unfold ReportTable.set_add.
  destruct (in_names key allKeys) eqn:Hin.
  - apply in_names_elem_of in Hin. split; [exact Hnodup|].
    intros k. split; [auto | intros [->|Hk]; assumption].
  - assert (Hnot : key ∉ allKeys).
    { intros Hk. apply in_names_elem_of in Hk. congruence. }
    split.
    + apply NoDup_app. split; [exact Hnodup|]. split; [|apply NoDup_singleton].
      intros x Hx Hx'. apply list_elem_of_singleton in Hx' as ->. contradiction.
    + intros k. rewrite elem_of_app, list_elem_of_singleton. tauto.
Qed.

Lemma add_keys_spec keys : forall allKeys,
  NoDup allKeys ->
  NoDup (ReportTable.add_keys allKeys keys)
  /\ forall k, k ∈ ReportTable.add_keys allKeys keys
               <-> k ∈ allKeys \/ (k ∈ keys /\ k <> "metadata").
Proof.
  unfold ReportTable.add_keys.
  induction keys as [|key rest IH]; intros allKeys Hnodup; simpl.
  - split; [exact Hnodup|]. intros k. split; [auto|].
    intros [Hk|[Hk _]]; [exact Hk | inversion Hk].
  - destruct (String.eqb_spec key "metadata") as [->|Hne].
    + destruct (IH allKeys Hnodup) as [Hnd Hmem]. split; [exact Hnd|].
      intros k. rewrite Hmem, elem_of_cons. split; [tauto|].
      intros [Hk|[[->|Hk] Hm]]; [auto | contradiction | auto].
    + destruct (set_add_spec key allKeys Hnodup) as [Hnd1 Hmem1].
      destruct (IH _ Hnd1) as [Hnd Hmem]. split; [exact Hnd|].
      intros k. rewrite Hmem, Hmem1, elem_of_cons. split; [|tauto].
      intros [[->|Hk]|[Hk Hm]]; auto.
Qed.

Lemma all_keys_spec reports : forall allKeys,
  NoDup allKeys ->
  NoDup (fold_left (fun acc report => ReportTable.add_keys acc (ReportTable.Object_keys report))
           reports allKeys)
  /\ forall k,
       k ∈ fold_left (fun acc report => ReportTable.add_keys acc (ReportTable.Object_keys report))
             reports allKeys
       <-> k ∈ allKeys
           \/ (k <> "metadata" /\ exists report, report ∈ reports /\ has_own k report = true).
Proof.
  induction reports as [|report rest IH]; intros allKeys Hnodup; simpl.
  - split; [exact Hnodup|]. intros k. split; [auto|].
    intros [Hk|(_ & report & Hin & _)]; [exact Hk | inversion Hin].
  - destruct (add_keys_spec (ReportTable.Object_keys report) allKeys Hnodup) as [Hnd1 Hmem1].
    destruct (IH _ Hnd1) as [Hnd Hmem]. split; [exact Hnd|].
    intros k. rewrite Hmem, Hmem1, elem_of_Object_keys. split.
    + intros [[Hk|[Hown Hm]]|(Hm & r & Hin & Hown)]; [auto| |].
      * right. split; [exact Hm|]. exists report. split; [apply list_elem_of_here | exact Hown].
      * right. split; [exact Hm|]. exists r. split; [apply list_elem_of_further, Hin | exact Hown].
    + intros [Hk|(Hm & r & Hin & Hown)]; [auto|].
      apply elem_of_cons in Hin as [->|Hin]; [auto|].
      right. split; [exact Hm|]. exists r. auto.
Qed.

(** X22.  The columns of the table when the page names none.  The table
    then has one column per key of the reports: every key of every report
    except [metadata], each once however many reports have it; the column
    has the key as its [header] and as its [value], and the colour
    [getColor] gives for the key.  When the page names columns, the table
    has these, one per column and in their order, with the name of the
    column as [header] and its JSON path as [value]. *)
Theorem tableColumns_fallback (columns : list ColumnDefinition) (reports : list JSObject) :
  let cols := ReportTable.tableColumns toLowerCase columns reports in
  (columns = [] ->
   NoDup (List.map ReportTable.header cols)
   /\ (forall k, k ∈ List.map ReportTable.header cols
                 <-> k <> "metadata"
                     /\ exists report, report ∈ reports /\ has_own k report = true)
   /\ Forall (fun col => ReportTable.value col = ReportTable.header col
                         /\ ReportTable.color col
                            = ReportTable.getColor toLowerCase (ReportTable.header col)) cols)
  /\ (columns <> [] ->
      List.map ReportTable.header cols = List.map col_name columns
      /\ List.map ReportTable.value cols = List.map col_jsonPath columns).
Proof.
  intros cols. subst cols. unfold ReportTable.tableColumns. split.
  - intros ->. cbn [List.length Nat.ltb Nat.leb].
    destruct (all_keys_spec reports [] NoDup_nil_2) as [Hnd Hmem].
    rewrite map_map. cbn [ReportTable.header]. rewrite map_id.
    split; [exact Hnd|]. split.
    + intros k. rewrite Hmem. split; [|auto]. intros [Hk|Hk]; [inversion Hk | exact Hk].
    + apply Forall_map. apply Forall_forall. intros key _. split; reflexivity.
  - intros Hne. destruct columns as [|col rest]; [contradiction|].
    cbn [List.length Nat.ltb Nat.leb]. rewrite !map_map. split; reflexivity.
Qed.

End TableColumns.

(** ** The further properties at the sample cluster *)

Lemma loadReports_calls_witness :
  api_calls (snd (loadReports (H := Reference.node) sample_env "vulnerabilityreports" boot))
  = [ getClusterCustomObject "apiextensions.k8s.io" "v1" "customresourcedefinitions"
        "vulnerabilityreports.aquasecurity.github.io";
      listCustomObjectForAllNamespaces "aquasecurity.github.io" "v1alpha1"
        "vulnerabilityreports" ].
Proof.
  rewrite (loadReports_calls (H := Reference.node) sample_env "vulnerabilityreports" boot
             _ _ (surjective_pairing _)).
  reflexivity.
Defined.

Lemma loadReports_touches_own_key_witness :
  redis (snd (loadReports (H := Reference.node) sample_env "vulnerabilityreports"
                after_discovery)) !! "aqua_security_crds"
  = redis after_discovery !! "aqua_security_crds"
  /\ exists e, redis after_discovery !! "aqua_security_crds" = Some e.
Proof.
  split.
  - exact (proj1 (proj2 (loadReports_touches_own_key (H := Reference.node) sample_env
                           "vulnerabilityreports" after_discovery _ _
                           (surjective_pairing _)))).
  - eexists. vm_compute. reflexivity.
Defined.


Lemma loadReports_instance_throws_witness :
  exists w',
    loadReports (H := Reference.node) (env_listing [nginx_report; odd_report])
      "clustercompliancereports" boot
    = (Normal (obj [ ("manifests", VArr []);
                     ("clusterName", VStr "Unknown Cluster");
                     ("scope", VStr "Unknown");
                     ("error", VStr "Cannot convert object to primitive value");
                     ("resource", VStr "clustercompliancereports") ]), w').
Proof.
  destruct (loadReports_instance_throws (H := Reference.node)
              (env_listing [nginx_report; odd_report]) "clustercompliancereports" boot
              "kind-trivy" 1800 clustercompliancereports_spec
              {| version_name := "v1alpha1"; additionalPrinterColumns := None |}
              [nginx_report] odd_report []
              (TypeError "Cannot convert object to primitive value")
              eq_refl eq_refl eq_refl eq_refl eq_refl eq_refl eq_refl eq_refl eq_refl
              ltac:(repeat constructor; eexists; vm_compute; reflexivity)
              ltac:(vm_compute; reflexivity))
    as (w' & Hrun & _).
  exists w'. exact Hrun.
Defined.

Lemma loadReports_default_columns_witness :
  exists w',
    loadReports (H := Reference.node) (env_listing [nginx_report])
      "clustercompliancereports" boot
    = (Normal (obj [ ("manifests",
                      VArr [ obj [ ("metadata",
                                    obj [ ("name", VStr "nginx");
                                          ("creationTimestamp",
                                           VStr "2024-01-01T00:00:00Z") ]);
                                   ("Name", VStr "nginx");
                                   ("Age", VStr "1/1/2024, 12:00:00 AM") ] ]);
                     ("clusterName", VStr "kind-trivy");
                     ("scope", VStr "Cluster");
                     ("resource", VStr "clustercompliancereports") ]), w').
Proof.
  destruct (loadReports_default_columns (H := Reference.node) (env_listing [nginx_report])
              "clustercompliancereports" boot "kind-trivy" 1800 clustercompliancereports_spec
              {| version_name := "v1alpha1"; additionalPrinterColumns := None |}
              (obj [ ("manifests",
                      VArr [ obj [ ("metadata",
                                    obj [ ("name", VStr "nginx");
                                          ("creationTimestamp",
                                           VStr "2024-01-01T00:00:00Z") ]);
                                   ("Name", VStr "nginx");
                                   ("Age", VStr "1/1/2024, 12:00:00 AM") ] ]);
                     ("clusterName", VStr "kind-trivy");
                     ("scope", VStr "Cluster");
                     ("resource", VStr "clustercompliancereports") ])
              eq_refl eq_refl eq_refl eq_refl eq_refl eq_refl eq_refl eq_refl eq_refl
              ltac:(repeat constructor; eexists; vm_compute; reflexivity)
              ltac:(vm_compute; reflexivity))
    as (w' & Hrun).
  exists w'. rewrite Hrun. vm_compute. reflexivity.
Defined.

Lemma invalidateCache_forgets_witness :
  (exists e, redis after_first_call !! "reports:vulnerabilityreports" = Some e)
  /\ exists w',
       invalidateCache sample_env "vulnerabilityreports" after_first_call = (Normal tt, w')
       /\ redis w' !! "reports:vulnerabilityreports" = None.
Proof.
  split; [eexists; vm_compute; reflexivity|].
  destruct (proj2 (invalidateCache_forgets (H := Reference.node) sample_env
                     "vulnerabilityreports" after_first_call) eq_refl)
    as (w' & Hrun & Hgone & _).
  exists w'. split; [exact Hrun | exact Hgone].
Defined.

Lemma loadReports_failure_sticks_witness :
  exists w' w'',
    loadReports (H := Reference.node) env_without_cluster "vulnerabilityreports" boot
      = (Normal (obj [ ("manifests", VArr []);
                       ("clusterName", VStr "Unknown Cluster");
                       ("scope", VStr "Unknown");
                       ("error", VStr "connect ECONNREFUSED 10.96.0.1:443");
                       ("resource", VStr "vulnerabilityreports") ]),
         w')
    /\ loadReports (H := Reference.node) sample_env "vulnerabilityreports" (elapse 1799 w')
      = (Normal (obj [ ("manifests", VArr []);
                       ("clusterName", VStr "Unknown Cluster");
                       ("scope", VStr "Unknown");
                       ("error", VStr "connect ECONNREFUSED 10.96.0.1:443");
                       ("resource", VStr "vulnerabilityreports") ]),
         w'')
    /\ api_calls w'' = api_calls w'.
Proof.
  destruct (loadReports_failure_sticks (H := Reference.node) env_without_cluster sample_env
              "vulnerabilityreports" boot "kind-trivy" 1800 _ _
              eq_refl eq_refl eq_refl eq_refl eq_refl
              (lookup_rejected env_without_cluster "vulnerabilityreports" (count_command boot)
                 "connect ECONNREFUSED 10.96.0.1:443" eq_refl)
              eq_refl)
    as (w' & Hrun & Hstick & _).
  destruct (Hstick 1799 ltac:(lia) eq_refl) as (w'' & Hagain & Hcalls).
  exists w', w''. split; [exact Hrun|]. split; [exact Hagain | exact Hcalls].
Defined.

Lemma loadReports_write_rejected_witness :
  exists w',
    loadReports (H := Reference.node) env_flaky "vulnerabilityreports" boot
    = (Normal (obj [ ("manifests", VArr []);
                     ("clusterName", VStr "Unknown Cluster");
                     ("scope", VStr "Unknown");
                     ("error", VStr "LOADING Redis is loading the dataset in memory");
                     ("resource", VStr "vulnerabilityreports") ]), w').
Proof.
  destruct (loadReports_write_rejected (H := Reference.node) env_flaky "vulnerabilityreports"
              boot "kind-trivy" 1800 vulnerabilityreports_spec
              {| version_name := "v1alpha1"; additionalPrinterColumns := Some sample_columns |}
              (List.map obj sample_manifests) sample_reports
              "LOADING Redis is loading the dataset in memory"
              eq_refl eq_refl eq_refl eq_refl eq_refl eq_refl eq_refl eq_refl
              ltac:(vm_compute; reflexivity) ltac:(vm_compute; reflexivity))
    as (w' & Hrun & _).
  exists w'. exact Hrun.
Defined.


Lemma loadReports_tagged_witness :
  own_field sample_reports "resource" = Some (VStr "vulnerabilityreports").
Proof.
  refine (proj1 (proj1 (loadReports_tagged (H := Reference.node) sample_env
                          "vulnerabilityreports" boot sample_reports _ _ sample_first_call))).
  intros q e He. unfold boot in He. cbn [redis] in He.
  rewrite lookup_empty in He. discriminate He.
Defined.

Lemma listAllAquaSecurityCRDs_calls_witness :
  api_calls (snd (listAllAquaSecurityCRDs (H := Reference.node) sample_env boot))
  = [ listClusterCustomObject "apiextensions.k8s.io" "v1" "customresourcedefinitions" ]
  /\ api_calls (snd (listAllAquaSecurityCRDs (H := Reference.node) env_no_context boot)) = [].
Proof.
  split.
  - exact (proj1 (listAllAquaSecurityCRDs_calls (H := Reference.node) sample_env boot _ _
                    (surjective_pairing _))).
  - exact (proj1 (listAllAquaSecurityCRDs_calls (H := Reference.node) env_no_context boot _ _
                    (surjective_pairing _))).
Defined.

Lemma listAllAquaSecurityCRDs_stale_witness :
  exists r1 w1 cached w2,
    listAllAquaSecurityCRDs (H := Reference.node) sample_env boot = (Normal r1, w1)
    /\ JSON_roundtrip (H := Reference.node) "" r1 = Normal (Some cached)
    /\ listAllAquaSecurityCRDs (H := Reference.node) env_without_cluster (elapse 1799 w1)
       = (Normal cached, w2)
    /\ api_calls w2 = api_calls w1.
Proof.
  destruct (listAllAquaSecurityCRDs_stale (H := Reference.node) sample_env
              env_without_cluster boot "kind-trivy" 1800
              (Some [compliance_crd; vulnerability_crd])
              eq_refl eq_refl eq_refl eq_refl eq_refl eq_refl eq_refl eq_refl)
    as (r1 & w1 & cached & Hrun & Hj & Hstale & _).
  destruct (Hstale 1799 ltac:(lia)) as (w2 & Hagain & Hcalls).
  exists r1, w1, cached, w2. auto.
Defined.

Lemma discovery_failure_not_remembered_witness :
  exists w1,
    listAllAquaSecurityCRDs (H := Reference.node) env_without_cluster boot
      = (Normal (VArr []), w1)
    /\ console w1
       = [(Error, "Critical error fetching Aqua CRDs: connect ECONNREFUSED 10.96.0.1:443")]
    /\ api_calls (snd (listAllAquaSecurityCRDs (H := Reference.node) sample_env (elapse 1 w1)))
       = (api_calls w1 ++
          [listClusterCustomObject "apiextensions.k8s.io" "v1"
             "customresourcedefinitions"])%list.
Proof.
  destruct (discovery_failure_not_remembered (H := Reference.node) env_without_cluster
              sample_env boot "connect ECONNREFUSED 10.96.0.1:443" eq_refl eq_refl
              (or_intror (ex_intro _ "kind-trivy" (conj eq_refl eq_refl))))
    as (w1 & Hrun & Hlog & _ & Hnext).
  exists w1. split; [exact Hrun|]. split; [exact Hlog|].
  exact (Hnext 1 _ _ ltac:(lia) eq_refl (surjective_pairing _)).
Defined.


Lemma Simple_loadReports_calls_witness :
  Simple.api_calls (snd (Simple.loadReports sample_env "clustercompliancereports" simple_boot))
  = [ listCustomObjectForAllNamespaces "aquasecurity.github.io" "v1alpha1"
        "clustercompliancereports" ]
  /\ Simple.api_calls (snd (Simple.loadReports env_no_context "clustercompliancereports"
                              simple_boot)) = [].
Proof.
  split.
  - exact (proj1 (Simple_loadReports_calls sample_env "clustercompliancereports" simple_boot
                    _ _ (surjective_pairing _))).
  - exact (proj1 (Simple_loadReports_calls env_no_context "clustercompliancereports"
                    simple_boot _ _ (surjective_pairing _))).
Defined.

Lemma Simple_loadReports_expiry_witness :
  exists r1 w1 r2 w2,
    Simple.loadReports env_without_cluster "vulnerabilityreports" simple_boot
      = (Normal r1, w1)
    /\ Simple.loadReports sample_env "vulnerabilityreports" (Simple.elapse 300000 w1)
       = (Normal r2, w2)
    /\ Simple.cache w2 !! "vulnerabilityreports"
       = Some {| Simple.data := r2; Simple.timestamp := 300000 |}.
Proof.
  destruct (Simple_loadReports_expiry env_without_cluster sample_env "vulnerabilityreports"
              simple_boot "kind-trivy" 300000 eq_refl eq_refl)
    as (r1 & w1 & Hrun & _ & Hexpired).
  destruct (proj1 (Hexpired ltac:(lia)) "kind-trivy" eq_refl)
    as (r2 & w2 & Hagain & _ & Hentry).
  exists r1, w1, r2, w2. auto.
Defined.

Lemma extractValue_first_segment_witness :
  extractValue (H := Reference.node) report_2024 "spec.metadata.name"
    = extractValue (H := Reference.node) report_2024 ".metadata.name"
  /\ extractValue (H := Reference.node) report_2024 "name" = Normal report_2024.
Proof.
  destruct (extractValue_first_segment (H := Reference.node) report_2024 "spec" "" "metadata.name"
              eq_refl eq_refl) as [Hsame _].
  destruct (extractValue_first_segment (H := Reference.node) report_2024 "name" "" ""
              eq_refl eq_refl) as [_ Hwhole].
  split; [exact (Hsame eq_refl)|].
  apply Hwhole; [discriminate | reflexivity | reflexivity].
Defined.

Lemma toggleSort_alternates_witness :
  clicks ["Age"; "Age"] ReportTable.initial
  = {| ReportTable.sortColumn := "Age"; ReportTable.sortDirection := "desc" |}.
Proof.
  exact (proj2 (toggleSort_alternates "Age" ReportTable.initial) ltac:(discriminate) 1%nat).
Defined.

Lemma escapeCsvValue_string_witness :
  exists field,
    ReportTable.escapeCsvValue sample_ToString (VStr "library/nginx, latest") = Normal field
    /\ Nat.even (count_char ReportTable.quote field) = true.
Proof.
  destruct (escapeCsvValue_string sample_ToString "library/nginx, latest")
    as (field & Hrun & Heven & _).
  exists field. split; [exact Hrun | exact Heven].
Defined.

Lemma get_direct_path_witness :
  ReportTable.get (H := Reference.node) sample_prim_get report_2024 ".metadata.name"
    = Normal (VStr "nginx")
  /\ ReportTable.get (H := Reference.node) sample_prim_get report_2024 "metadata.name"
    = Normal (VStr "nginx")
  /\ extractValue (H := Reference.node) report_2024 ".metadata.name" = Normal (VStr "nginx").
Proof.
  destruct (get_direct_path (H := Reference.node) sample_prim_get report_2024 "m"
              "etadata.name" (VStr "nginx") eq_refl eq_refl)
    as (Hdot & Hplain & Hserver).
  split; [exact Hdot|]. split; [exact Hplain|]. apply Hserver; reflexivity.
Defined.

Lemma get_keeps_falsy_witness :
  ReportTable.get (H := Reference.node) sample_prim_get report_counts
    ".summary.criticalCount.total" = Normal (VNum 0).
Proof.
  exact (get_keeps_falsy (H := Reference.node) sample_prim_get report_counts
           ".summary.criticalCount" "total" (VNum 0) ltac:(discriminate) eq_refl eq_refl).
Defined.

Lemma tableColumns_fallback_witness :
  List.map ReportTable.header (ReportTable.tableColumns sample_toLowerCase [] sample_manifests)
    = ["Repository"; "Age"]
  /\ "Repository" ∈ List.map ReportTable.header
                       (ReportTable.tableColumns sample_toLowerCase [] sample_manifests).
Proof.
  split; [reflexivity|].
  destruct (proj1 (tableColumns_fallback sample_toLowerCase [] sample_manifests) eq_refl)
    as (_ & Hmem & _).
  apply Hmem. split; [discriminate|].
  eexists. split; [apply list_elem_of_here | reflexivity].
Defined.
